(** * atframe_utils: the unified symmetric-cipher facade

    A shallow embedding of [src/algorithm/crypto_cipher.cpp]
    (namespace [util::crypto]): the algorithm registry, the name lookup,
    the cipher session ([cipher::init], [close], [set_key], [set_iv],
    [encrypt], [decrypt], [encrypt_aead], [decrypt_aead]), the Sodium
    counter decoding and the token helper [cipher::ciphertok].

    The cryptographic back-ends (OpenSSL family, mbedTLS, libsodium) are
    external libraries; they enter the model as the fields of a record
    [backend], and every call by which the session creates, changes or
    frees a context or runs a primitive is recorded in a trace of
    [backend_call]s (the size getters, which only read, are not). *)

From Stdlib Require Import ZArith String Ascii List Bool Lia.
From Stdlib Require Import Strings.Byte.
Import ListNotations.
Open Scope Z_scope.

(* ================================================================== *)
(** ** Machine integers and bytes *)
(* ================================================================== *)

(** [uint32_t], [uint64_t]/[size_t] and [int] conversions, wrap-around
    written out. *)
Definition to_u32 (z : Z) : Z := z mod 2 ^ 32.
Definition to_u64 (z : Z) : Z := z mod 2 ^ 64.
Definition to_size_t (z : Z) : Z := z mod 2 ^ 64.
Definition to_int (z : Z) : Z := (z + 2 ^ 31) mod 2 ^ 32 - 2 ^ 31.

Definition byte_val (b : byte) : Z := Z.of_N (Byte.to_N b).

(** [p[i]] for an [unsigned char *] that points at the bytes [p]; a read
    past the end of the modelled buffer yields 0. *)
Definition deref (p : list byte) (i : nat) : Z := byte_val (nth i p x00).

(** [std::vector<unsigned char>::size()] and buffer lengths as [size_t]. *)
Definition size {A} (l : list A) : Z := Z.of_nat (length l).

(** [memcpy(dst, src, n)]: the first [n] bytes of [dst] are replaced by
    the first [n] bytes of [src]. *)
Definition memcpy (dst src : list byte) (n : Z) : list byte :=
  firstn (Z.to_nat n) src ++ skipn (Z.to_nat n) dst.

(** Writing [data] at the start of the buffer [buf]. *)
Definition blit (data buf : list byte) : list byte :=
  data ++ skipn (length data) buf.

(** [v.resize(n, 0)] on a byte vector. *)
Definition resize0 (v : list byte) (n : Z) : list byte :=
  firstn (Z.to_nat n) v ++ repeat x00 (Z.to_nat n - length v).

(* ================================================================== *)
(** ** Sodium counter decoding (lines 15-27) *)
(* ================================================================== *)

Definition LIBSODIUM_BLOCK_SIZE : Z := 64.
(** [sizeof(libsodium_counter_t)], a [uint64_t]. *)
Definition LIBSODIUM_COUNTER_SIZE : Z := 8.

Definition libsodium_get_block (p : list byte) : Z :=
  to_u64
    (Z.lor (Z.lor (Z.lor (to_u32 (deref p 0))
                         (to_u32 (Z.shiftl (to_u32 (deref p 1)) 8)))
                  (to_u32 (Z.shiftl (to_u32 (deref p 2)) 16)))
           (to_u32 (Z.shiftl (to_u32 (deref p 3)) 24))).

Definition libsodium_get_counter (iv : list byte) : Z :=
  let low := to_u32 (libsodium_get_block iv) in
  let high := to_u32 (libsodium_get_block (skipn 4 iv)) in
  Z.lor (to_u64 (Z.shiftl (to_u64 high) 32)) (to_u64 low).

(** Little-endian value of a byte string (the reading the specification
    gives of the counter). *)
Fixpoint le_decode (l : list byte) : Z :=
  match l with
  | [] => 0
  | b :: l' => byte_val b + 256 * le_decode l'
  end.

(* ================================================================== *)
(** ** The algorithm registry (lines 88-216) *)
(* ================================================================== *)

Inductive cipher_interface_method_t :=
| EN_CIMT_INVALID
| EN_CIMT_XXTEA
| EN_CIMT_INNER
| EN_CIMT_CIPHER
| EN_CIMT_LIBSODIUM
| EN_CIMT_LIBSODIUM_CHACHA20
| EN_CIMT_LIBSODIUM_CHACHA20_IETF
| EN_CIMT_LIBSODIUM_XCHACHA20
| EN_CIMT_LIBSODIUM_SALSA20
| EN_CIMT_LIBSODIUM_XSALSA20
| EN_CIMT_LIBSODIUM_CHACHA20_POLY1305
| EN_CIMT_LIBSODIUM_CHACHA20_POLY1305_IETF
| EN_CIMT_LIBSODIUM_XCHACHA20_POLY1305_IETF.

(** The enumerators' values, for the ordered comparisons of the source. *)
Definition method_value (m : cipher_interface_method_t) : Z :=
  match m with
  | EN_CIMT_INVALID => 0
  | EN_CIMT_XXTEA => 1
  | EN_CIMT_INNER => 2
  | EN_CIMT_CIPHER => 3
  | EN_CIMT_LIBSODIUM => 4
  | EN_CIMT_LIBSODIUM_CHACHA20 => 5
  | EN_CIMT_LIBSODIUM_CHACHA20_IETF => 6
  | EN_CIMT_LIBSODIUM_XCHACHA20 => 7
  | EN_CIMT_LIBSODIUM_SALSA20 => 8
  | EN_CIMT_LIBSODIUM_XSALSA20 => 9
  | EN_CIMT_LIBSODIUM_CHACHA20_POLY1305 => 10
  | EN_CIMT_LIBSODIUM_CHACHA20_POLY1305_IETF => 11
  | EN_CIMT_LIBSODIUM_XCHACHA20_POLY1305_IETF => 12
  end.

Definition method_eqb (a b : cipher_interface_method_t) : bool :=
  method_value a =? method_value b.

(** The Sodium stream methods, the Sodium AEAD methods, and both: the
    groups of case labels the source lists. *)
Definition is_libsodium_stream (m : cipher_interface_method_t) : bool :=
  match m with
  | EN_CIMT_LIBSODIUM_CHACHA20 | EN_CIMT_LIBSODIUM_CHACHA20_IETF
  | EN_CIMT_LIBSODIUM_XCHACHA20 | EN_CIMT_LIBSODIUM_SALSA20
  | EN_CIMT_LIBSODIUM_XSALSA20 => true
  | _ => false
  end.

Definition is_libsodium_aead (m : cipher_interface_method_t) : bool :=
  match m with
  | EN_CIMT_LIBSODIUM_CHACHA20_POLY1305 | EN_CIMT_LIBSODIUM_CHACHA20_POLY1305_IETF
  | EN_CIMT_LIBSODIUM_XCHACHA20_POLY1305_IETF => true
  | _ => false
  end.

Definition is_libsodium_method (m : cipher_interface_method_t) : bool :=
  is_libsodium_stream m || is_libsodium_aead m.

(** The stream methods that [cipher::encrypt] and [cipher::decrypt] have
    a case label for. *)
Definition has_stream_case (m : cipher_interface_method_t) : bool :=
  match m with
  | EN_CIMT_LIBSODIUM_CHACHA20 | EN_CIMT_LIBSODIUM_CHACHA20_IETF
  | EN_CIMT_LIBSODIUM_SALSA20 | EN_CIMT_LIBSODIUM_XSALSA20 => true
  | _ => false
  end.

Definition EN_CIFT_NONE : Z := 0.
Definition EN_CIFT_NO_FINISH : Z := 0x0001.
Definition EN_CIFT_AEAD : Z := 0x0010.
Definition EN_CIFT_VARIABLE_IV_LEN : Z := 0x0020.
Definition EN_CIFT_AEAD_SET_LENGTH_BEFORE : Z := 0x0040.
Definition EN_CIFT_DECRYPT_NO_PADDING : Z := 0x0100.
Definition EN_CIFT_ENCRYPT_NO_PADDING : Z := 0x0200.

(** [0 != (flags & f)] *)
Definition has_flag (flags f : Z) : bool := negb (Z.land flags f =? 0).

(** A [const char *] is [None] when null. *)
Record cipher_interface_info_t := {
  name : option string;
  method : cipher_interface_method_t;
  openssl_name : option string;
  mbedtls_name : option string;
  flags : Z
}.

(** Which generic back-end the library is compiled against
    ([CRYPTO_USE_OPENSSL], [CRYPTO_USE_LIBRESSL] and
    [CRYPTO_USE_BORINGSSL] share one branch of every [#if]). *)
Inductive generic_backend_t := USE_OPENSSL | USE_MBEDTLS | USE_NONE.

(** The preprocessor symbols the source branches on, and the one constant
    of the (absent) class declaration the source takes a [sizeof] of. *)
Record build_config := {
  CRYPTO_GENERIC : generic_backend_t;
  CRYPTO_USE_CHACHA20_WITH_CIPHER : bool;
  CRYPTO_USE_CHACHA20_POLY1305_WITH_CIPHER : bool;
  CRYPTO_USE_LIBSODIUM : bool;
  (** [crypto_stream_xchacha20_KEYBYTES] / [_NONCEBYTES] defined *)
  HAVE_crypto_stream_xchacha20 : bool;
  (** [crypto_stream_xsalsa20_KEYBYTES] defined *)
  HAVE_crypto_stream_xsalsa20 : bool;
  (** [crypto_aead_xchacha20poly1305_ietf_KEYBYTES] / [_NPUBBYTES] defined *)
  HAVE_crypto_aead_xchacha20poly1305_ietf : bool;
  (** [sizeof(libsodium_context_.key)] *)
  sizeof_libsodium_key : Z
}.

Definition entry (n : string) (m : cipher_interface_method_t)
    (o : option string) (t : string) (f : Z) : cipher_interface_info_t :=
  {| name := Some n; method := m; openssl_name := o; mbedtls_name := Some t;
     flags := f |}.

Definition when {A} (b : bool) (l : list A) : list A := if b then l else [].

Definition NO_PADDING : Z :=
  Z.lor EN_CIFT_ENCRYPT_NO_PADDING EN_CIFT_DECRYPT_NO_PADDING.
Definition AEAD_VARIABLE_IV : Z := Z.lor EN_CIFT_AEAD EN_CIFT_VARIABLE_IV_LEN.

(** [details::supported_ciphers], terminator included. *)
Definition supported_ciphers (cfg : build_config) : list cipher_interface_info_t :=
  [ entry "xxtea" EN_CIMT_XXTEA None "xxtea" EN_CIFT_NONE;
    entry "rc4" EN_CIMT_CIPHER None "ARC4-128" EN_CIFT_NONE;
    entry "aes-128-cfb" EN_CIMT_CIPHER None "AES-128-CFB128" EN_CIFT_NONE;
    entry "aes-192-cfb" EN_CIMT_CIPHER None "AES-192-CFB128" EN_CIFT_NONE;
    entry "aes-256-cfb" EN_CIMT_CIPHER None "AES-256-CFB128" EN_CIFT_NONE;
    entry "aes-128-ctr" EN_CIMT_CIPHER None "AES-128-CTR" EN_CIFT_NONE;
    entry "aes-192-ctr" EN_CIMT_CIPHER None "AES-192-CTR" EN_CIFT_NONE;
    entry "aes-256-ctr" EN_CIMT_CIPHER None "AES-256-CTR" EN_CIFT_NONE;
    entry "aes-128-ecb" EN_CIMT_CIPHER None "AES-128-ECB" NO_PADDING;
    entry "aes-192-ecb" EN_CIMT_CIPHER None "AES-192-ECB" NO_PADDING;
    entry "aes-256-ecb" EN_CIMT_CIPHER None "AES-256-ECB" NO_PADDING;
    entry "aes-128-cbc" EN_CIMT_CIPHER None "AES-128-CBC" NO_PADDING;
    entry "aes-192-cbc" EN_CIMT_CIPHER None "AES-192-CBC" NO_PADDING;
    entry "aes-256-cbc" EN_CIMT_CIPHER None "AES-256-CBC" NO_PADDING;
    entry "des-ecb" EN_CIMT_CIPHER None "DES-ECB" NO_PADDING;
    entry "des-cbc" EN_CIMT_CIPHER None "DES-CBC" NO_PADDING;
    entry "des-ede" EN_CIMT_CIPHER None "DES-EDE-ECB" NO_PADDING;
    entry "des-ede-cbc" EN_CIMT_CIPHER None "DES-EDE-CBC" NO_PADDING;
    entry "des-ede3" EN_CIMT_CIPHER None "DES-EDE3-ECB" NO_PADDING;
    entry "des-ede3-cbc" EN_CIMT_CIPHER None "DES-EDE3-CBC" NO_PADDING;
    entry "bf-cbc" EN_CIMT_CIPHER None "BLOWFISH-CBC" NO_PADDING;
    entry "bf-cfb" EN_CIMT_CIPHER None "BLOWFISH-CFB64" EN_CIFT_NONE;
    entry "camellia-128-cfb" EN_CIMT_CIPHER None "CAMELLIA-128-CFB128" EN_CIFT_NONE;
    entry "camellia-192-cfb" EN_CIMT_CIPHER None "CAMELLIA-192-CFB128" EN_CIFT_NONE;
    entry "camellia-256-cfb" EN_CIMT_CIPHER None "CAMELLIA-256-CFB128" EN_CIFT_NONE ]
  ++ when (CRYPTO_USE_CHACHA20_WITH_CIPHER cfg)
       [ entry "chacha20" EN_CIMT_CIPHER None "CHACHA20" EN_CIFT_NONE ]
  ++ when (CRYPTO_USE_LIBSODIUM cfg)
       ([ entry "chacha20" EN_CIMT_LIBSODIUM_CHACHA20 None "CHACHA20" EN_CIFT_NONE;
          entry "chacha20-ietf" EN_CIMT_LIBSODIUM_CHACHA20_IETF None "CHACHA20-IETF"
            EN_CIFT_NONE ]
        ++ when (HAVE_crypto_stream_xchacha20 cfg)
             [ entry "xchacha20" EN_CIMT_LIBSODIUM_XCHACHA20 None "XCHACHA20"
                 EN_CIFT_NONE ]
        ++ [ entry "salsa20" EN_CIMT_LIBSODIUM_SALSA20 None "SALSA20" EN_CIFT_NONE ]
        ++ when (HAVE_crypto_stream_xsalsa20 cfg)
             [ entry "xsalsa20" EN_CIMT_LIBSODIUM_XSALSA20 None "XSALSA20"
                 EN_CIFT_NONE ])
  ++ [ entry "aes-128-gcm" EN_CIMT_CIPHER None "AES-128-GCM" AEAD_VARIABLE_IV;
       entry "aes-192-gcm" EN_CIMT_CIPHER None "AES-192-GCM" AEAD_VARIABLE_IV;
       entry "aes-256-gcm" EN_CIMT_CIPHER None "AES-256-GCM" AEAD_VARIABLE_IV ]
  ++ when (CRYPTO_USE_CHACHA20_POLY1305_WITH_CIPHER cfg)
       [ entry "chacha20-poly1305-ietf" EN_CIMT_CIPHER (Some "chacha20-poly1305"%string)
           "CHACHA20-POLY1305" AEAD_VARIABLE_IV ]
  ++ when (CRYPTO_USE_LIBSODIUM cfg)
       ([ entry "chacha20-poly1305" EN_CIMT_LIBSODIUM_CHACHA20_POLY1305 None
            "CHACHA20-POLY1305" EN_CIFT_AEAD;
          entry "chacha20-poly1305-ietf" EN_CIMT_LIBSODIUM_CHACHA20_POLY1305_IETF None
            "CHACHA20-POLY1305-IETF" EN_CIFT_AEAD ]
        ++ when (HAVE_crypto_aead_xchacha20poly1305_ietf cfg)
             [ entry "xchacha20-poly1305-ietf" EN_CIMT_LIBSODIUM_XCHACHA20_POLY1305_IETF
                 None "XCHACHA20-POLY1305-IETF" EN_CIFT_AEAD ])
  ++ [ {| name := None; method := EN_CIMT_INVALID; openssl_name := None;
          mbedtls_name := None; flags := 0 |} ].

(** *** Case-insensitive comparison

    A C string ends at its first NUL, so the comparison reads a Rocq
    string up to its first ["000"] character. *)

Definition code (c : ascii) : Z := Z.of_nat (nat_of_ascii c).

Definition tolower (c : ascii) : ascii :=
  if (65 <=? code c) && (code c <=? 90)
  then ascii_of_nat (nat_of_ascii c + 32) else c.

(** The characters a [const char *] denotes: those before the first NUL. *)
Fixpoint cstr (s : string) : list ascii :=
  match s with
  | EmptyString => []
  | String c s' => if code c =? 0 then [] else c :: cstr s'
  end.

Fixpoint strcasecmp_chars (a b : list ascii) : Z :=
  match a, b with
  | [], [] => 0
  | [], d :: _ => 0 - code (tolower d)
  | c :: _, [] => code (tolower c)
  | c :: a', d :: b' =>
      if code (tolower c) =? code (tolower d)
      then strcasecmp_chars a' b'
      else code (tolower c) - code (tolower d)
  end.

(** Modelled from the spec: the macro [UTIL_STRFUNC_STRCASE_CMP] of
    [common/string_oprs.h], which is not under [src/]. The specification
    calls the lookup a case-insensitive exact match; the macro names the
    platform's [strcasecmp]/[_stricmp]. *)
Definition UTIL_STRFUNC_STRCASE_CMP (a b : string) : Z :=
  strcasecmp_chars (cstr a) (cstr b).

(** The loop of [get_cipher_interface_by_name] over the table from index
    [i] on: it stops at the first entry with a null name. *)
Fixpoint scan_supported_ciphers (nm : string) (tbl : list cipher_interface_info_t)
  : option cipher_interface_info_t :=
  match tbl with
  | [] => None
  | d :: rest =>
      match name d with
      | None => None
      | Some n =>
          if UTIL_STRFUNC_STRCASE_CMP nm n =? 0 then Some d
          else scan_supported_ciphers nm rest
      end
  end.

Definition get_cipher_interface_by_name (cfg : build_config) (nm : option string)
  : option cipher_interface_info_t :=
  match nm with
  | None => None
  | Some n => scan_supported_ciphers n (supported_ciphers cfg)
  end.

(** *** What "the first matching entry" means *)

Definition name_matches (nm : string) (d : cipher_interface_info_t) : Prop :=
  exists n, name d = Some n /\ UTIL_STRFUNC_STRCASE_CMP nm n = 0.

Definition name_differs (nm : string) (d : cipher_interface_info_t) : Prop :=
  exists n, name d = Some n /\ UTIL_STRFUNC_STRCASE_CMP nm n <> 0.

(** [d] sits at some index [k] of [tbl], its name matches [nm], and every
    entry before it carries a name that does not. *)
Definition first_match (nm : string) (tbl : list cipher_interface_info_t)
    (d : cipher_interface_info_t) : Prop :=
  exists k, nth_error tbl k = Some d /\ name_matches nm d
            /\ forall j e, (j < k)%nat -> nth_error tbl j = Some e -> name_differs nm e.

(* ================================================================== *)
(** ** The token helper [cipher::ciphertok] (lines 1310-1338) *)
(* ================================================================== *)

Definition is_delim (c : ascii) : bool :=
  Ascii.eqb c " " || Ascii.eqb c "009" || Ascii.eqb c "013" || Ascii.eqb c "010"
  || Ascii.eqb c ";" || Ascii.eqb c "," || Ascii.eqb c ":".

(** The [while] loop: [b] is the offset of the pointer from [in], [s] the
    characters from [b] on. Returns the final offset and what is left. *)
Fixpoint skip_delims (s : string) (b : nat) : nat * string :=
  match s with
  | EmptyString => (b, s)
  | String c s' =>
      if negb (code c =? 0) && is_delim c then skip_delims s' (S b) else (b, s)
  end.

(** The [for] loop: [e] runs on to the first NUL or delimiter. *)
Fixpoint scan_token (s : string) (e : nat) : nat :=
  match s with
  | EmptyString => e
  | String c s' =>
      if code c =? 0 then e
      else if is_delim c then e
      else scan_token s' (S e)
  end.

(** A returned pointer is [None] when null and [Some k] when it is
    [in + k]. *)
Definition ciphertok (in_ : option string) : option nat * option nat :=
  match in_ with
  | None => (None, None)
  | Some s =>
      let '(b, rest) := skip_delims s 0 in
      let e := scan_token rest b in
      if (e <=? b)%nat then (None, None) else (Some b, Some e)
  end.

(* ================================================================== *)
(** ** Declarations of [algorithm/crypto_cipher.h] *)
(* ================================================================== *)

(** The header is not under [src/]; the enumerators below are the ones
    the source file names. *)
Module error_code_t.
Inductive type :=
| OK
| NOT_INITED
| ALREADY_INITED
| INVALID_PARAM
| CIPHER_NOT_SUPPORT
| CIPHER_DISABLED
| CIPHER_OPERATION
| CIPHER_OPERATION_SET_IV
| MALLOC
| MUST_CALL_AEAD_API
| MUST_NOT_CALL_AEAD_API
| LIBSODIUM_OPERATION
| LIBSODIUM_OPERATION_TAG_LEN.

Definition eqb (a b : type) : bool :=
  match a, b with
  | OK, OK | NOT_INITED, NOT_INITED | ALREADY_INITED, ALREADY_INITED
  | INVALID_PARAM, INVALID_PARAM | CIPHER_NOT_SUPPORT, CIPHER_NOT_SUPPORT
  | CIPHER_DISABLED, CIPHER_DISABLED | CIPHER_OPERATION, CIPHER_OPERATION
  | CIPHER_OPERATION_SET_IV, CIPHER_OPERATION_SET_IV | MALLOC, MALLOC
  | MUST_CALL_AEAD_API, MUST_CALL_AEAD_API
  | MUST_NOT_CALL_AEAD_API, MUST_NOT_CALL_AEAD_API
  | LIBSODIUM_OPERATION, LIBSODIUM_OPERATION
  | LIBSODIUM_OPERATION_TAG_LEN, LIBSODIUM_OPERATION_TAG_LEN => true
  | _, _ => false
  end.
End error_code_t.

(** Modelled from the spec: the bit values of [cipher::mode_t], declared
    in the absent header; the specification describes [mode] as a bit
    field over [{ENCRYPT, DECRYPT}]. *)
Module mode_t.
Definition EN_CMODE_ENCRYPT : Z := 0x01.
Definition EN_CMODE_DECRYPT : Z := 0x02.
End mode_t.

(** [mode & bit] as a condition. *)
Definition mode_has (mode bit : Z) : bool := negb (Z.land mode bit =? 0).

(** Modelled from the spec: [sizeof(::util::xxtea_key)], a type of the
    absent [algorithm/xxtea.h]; the specification gives a 128-bit key of
    four 32-bit words. *)
Definition sizeof_xxtea_key : Z := 16.

(** The XXTEA key schedule: four 32-bit words. *)
Definition xxtea_key := list Z.
Definition xxtea_key_zero : xxtea_key := [0; 0; 0; 0].

(** *** libsodium constants ([sodium.h]) *)
Definition crypto_stream_chacha20_NONCEBYTES : Z := 8.
Definition crypto_stream_chacha20_ietf_NONCEBYTES : Z := 12.
Definition crypto_stream_xchacha20_NONCEBYTES : Z := 24.
Definition crypto_stream_salsa20_NONCEBYTES : Z := 8.
Definition crypto_stream_xsalsa20_NONCEBYTES : Z := 24.
Definition crypto_aead_chacha20poly1305_NPUBBYTES : Z := 8.
Definition crypto_aead_chacha20poly1305_IETF_NPUBBYTES : Z := 12.
Definition crypto_aead_xchacha20poly1305_ietf_NPUBBYTES : Z := 24.
Definition crypto_stream_chacha20_KEYBYTES : Z := 32.
Definition crypto_stream_chacha20_ietf_KEYBYTES : Z := 32.
Definition crypto_stream_xchacha20_KEYBYTES : Z := 32.
Definition crypto_stream_salsa20_KEYBYTES : Z := 32.
Definition crypto_stream_xsalsa20_KEYBYTES : Z := 32.
Definition crypto_aead_chacha20poly1305_KEYBYTES : Z := 32.
Definition crypto_aead_chacha20poly1305_IETF_KEYBYTES : Z := 32.
Definition crypto_aead_xchacha20poly1305_ietf_KEYBYTES : Z := 32.
Definition crypto_aead_chacha20poly1305_ABYTES : Z := 16.
Definition crypto_aead_chacha20poly1305_IETF_ABYTES : Z := 16.
Definition crypto_aead_xchacha20poly1305_ietf_ABYTES : Z := 16.

(* ================================================================== *)
(** ** The back-ends *)
(* ================================================================== *)

(** What a library call leaves behind: its return value, the context it
    worked on, the bytes it wrote through its output pointer, the length
    it stored through its length pointer, the tag it wrote, and the
    value [ERR_peek_error()] reports afterwards. *)
Record call_ret (C : Type) := {
  c_ret : Z;
  c_ctx : C;
  c_out : list byte;
  c_len : Z;
  c_tag : list byte;
  c_err : Z
}.
Arguments c_ret {C} _.
Arguments c_ctx {C} _.
Arguments c_out {C} _.
Arguments c_len {C} _.
Arguments c_tag {C} _.
Arguments c_err {C} _.

Inductive evp_ctrl_t :=
| EVP_CTRL_AEAD_SET_IVLEN
| EVP_CTRL_AEAD_GET_TAG
| EVP_CTRL_AEAD_SET_TAG.

(** The external functions the source calls. [cipher_kt_t] and
    [cipher_evp_t] are [EVP_CIPHER]/[EVP_CIPHER_CTX] or
    [mbedtls_cipher_info_t]/[mbedtls_cipher_context_t]. The three
    [xxtea_*] functions belong to this repository ([algorithm/xxtea.h])
    but are not under [src/]. The Sodium functions are indexed by the
    method they serve ([crypto_stream_chacha20_xor_ic] is
    [crypto_stream_xor_ic EN_CIMT_LIBSODIUM_CHACHA20], and so on). *)
Record backend := {
  cipher_kt_t : Type;
  cipher_evp_t : Type;
  (* OpenSSL, LibreSSL, BoringSSL *)
  EVP_get_cipherbyname : string -> option cipher_kt_t;
  EVP_CIPHER_CTX_new : Z -> option cipher_evp_t;
  ERR_peek_error_after_new : Z;
  EVP_CipherInit_ex :
    cipher_evp_t -> option cipher_kt_t -> option (list byte) ->
    option (list byte) -> Z -> call_ret cipher_evp_t;
  EVP_CIPHER_CTX_iv_length : cipher_evp_t -> Z;
  EVP_CIPHER_CTX_key_length : cipher_evp_t -> Z;
  EVP_CIPHER_CTX_block_size : cipher_evp_t -> Z;
  EVP_CIPHER_CTX_ctrl :
    cipher_evp_t -> evp_ctrl_t -> Z -> option (list byte) -> call_ret cipher_evp_t;
  EVP_CIPHER_CTX_set_padding : cipher_evp_t -> Z -> cipher_evp_t;
  EVP_CipherUpdate :
    cipher_evp_t -> bool -> option (list byte) -> Z -> call_ret cipher_evp_t;
  EVP_CipherFinal_ex : cipher_evp_t -> call_ret cipher_evp_t;
  (* mbedTLS *)
  MBEDTLS_MAX_IV_LENGTH : Z;
  mbedtls_cipher_info_from_string : option string -> option cipher_kt_t;
  malloc_cipher_evp_t : Z -> option cipher_evp_t;
  mbedtls_cipher_init : cipher_evp_t -> cipher_evp_t;
  mbedtls_cipher_setup : cipher_evp_t -> cipher_kt_t -> call_ret cipher_evp_t;
  mbedtls_cipher_get_iv_size : cipher_evp_t -> Z;
  mbedtls_cipher_get_key_bitlen : cipher_evp_t -> Z;
  mbedtls_cipher_get_block_size : cipher_evp_t -> Z;
  mbedtls_cipher_mode_is_cbc : cipher_evp_t -> bool;
  mbedtls_cipher_setkey :
    cipher_evp_t -> list byte -> Z -> Z -> call_ret cipher_evp_t;
  mbedtls_cipher_set_padding_mode : cipher_evp_t -> call_ret cipher_evp_t;
  mbedtls_cipher_crypt :
    cipher_evp_t -> list byte -> Z -> list byte -> Z -> call_ret cipher_evp_t;
  mbedtls_cipher_auth_encrypt :
    cipher_evp_t -> list byte -> Z -> option (list byte) -> list byte -> Z ->
    Z -> call_ret cipher_evp_t;
  mbedtls_cipher_auth_decrypt :
    cipher_evp_t -> list byte -> Z -> option (list byte) -> list byte -> Z ->
    option (list byte) -> Z -> call_ret cipher_evp_t;
  (* libsodium: message, nonce, initial counter, key *)
  crypto_stream_xor_ic :
    cipher_interface_method_t -> list byte -> list byte -> Z -> list byte ->
    call_ret unit;
  (* message, associated data, nonce, key *)
  crypto_aead_encrypt_detached :
    cipher_interface_method_t -> list byte -> option (list byte) -> list byte ->
    list byte -> call_ret unit;
  (* ciphertext, tag, associated data, nonce, key *)
  crypto_aead_decrypt_detached :
    cipher_interface_method_t -> list byte -> option (list byte) ->
    option (list byte) -> list byte -> list byte -> call_ret unit;
  (* algorithm/xxtea.h: key, input, the caller's [*olen] *)
  xxtea_setup : list byte -> xxtea_key;
  xxtea_encrypt : xxtea_key -> list byte -> Z -> call_ret unit;
  xxtea_decrypt : xxtea_key -> list byte -> Z -> call_ret unit
}.

(** The names of the generic back-end's state-changing functions, for the
    trace. *)
Inductive generic_fn :=
| FN_EVP_get_cipherbyname
| FN_EVP_CIPHER_CTX_new
| FN_EVP_CipherInit_ex
| FN_EVP_CIPHER_CTX_free
| FN_EVP_CIPHER_CTX_ctrl
| FN_EVP_CIPHER_CTX_set_padding
| FN_EVP_CipherUpdate
| FN_EVP_CipherFinal_ex
| FN_mbedtls_cipher_info_from_string
| FN_malloc
| FN_free
| FN_mbedtls_cipher_init
| FN_mbedtls_cipher_setup
| FN_mbedtls_cipher_free
| FN_mbedtls_cipher_setkey
| FN_mbedtls_cipher_set_padding_mode
| FN_mbedtls_cipher_crypt
| FN_mbedtls_cipher_auth_encrypt
| FN_mbedtls_cipher_auth_decrypt.

(** One entry per call that reaches a back-end; the Sodium and XXTEA
    entries keep the arguments the session passed. *)
Inductive backend_call :=
| CALL_generic (f : generic_fn)
| CALL_xxtea_setup (secret : list byte)
| CALL_xxtea_encrypt (key : xxtea_key) (input : list byte)
| CALL_xxtea_decrypt (key : xxtea_key) (input : list byte)
| CALL_stream_xor_ic (m : cipher_interface_method_t) (input nonce : list byte)
    (ic : Z) (key : list byte)
| CALL_aead_encrypt_detached (m : cipher_interface_method_t) (input : list byte)
    (ad : option (list byte)) (npub key : list byte)
| CALL_aead_decrypt_detached (m : cipher_interface_method_t) (input : list byte)
    (tag ad : option (list byte)) (npub key : list byte).

(* ================================================================== *)
(** ** The cipher session *)
(* ================================================================== *)

Section Session.

Variable cfg : build_config.
Variable B : backend.

Import error_code_t.

(** The data members of [class cipher]. The class declaration is not
    under [src/]; the members are the ones the source file uses. The
    context members [cipher_context_], [libsodium_context_] and
    [xxtea_context_] are kept apart here: the member a method owns is the
    only one the code of that method touches. A null context pointer is
    [None]. *)
Record cipher := {
  interface_ : option cipher_interface_info_t;
  last_errorno_ : Z;
  cipher_kt_ : option (cipher_kt_t B);
  cipher_context_enc : option (cipher_evp_t B);
  cipher_context_dec : option (cipher_evp_t B);
  libsodium_context_key : list byte;
  xxtea_context_key : xxtea_key;
  iv_ : list byte
}.

Definition set_interface (v : option cipher_interface_info_t) (ci : cipher) : cipher :=
  {| interface_ := v; last_errorno_ := last_errorno_ ci; cipher_kt_ := cipher_kt_ ci;
     cipher_context_enc := cipher_context_enc ci;
     cipher_context_dec := cipher_context_dec ci;
     libsodium_context_key := libsodium_context_key ci;
     xxtea_context_key := xxtea_context_key ci; iv_ := iv_ ci |}.

Definition set_last_errno (v : Z) (ci : cipher) : cipher :=
  {| interface_ := interface_ ci; last_errorno_ := v; cipher_kt_ := cipher_kt_ ci;
     cipher_context_enc := cipher_context_enc ci;
     cipher_context_dec := cipher_context_dec ci;
     libsodium_context_key := libsodium_context_key ci;
     xxtea_context_key := xxtea_context_key ci; iv_ := iv_ ci |}.

Definition set_cipher_kt (v : option (cipher_kt_t B)) (ci : cipher) : cipher :=
  {| interface_ := interface_ ci; last_errorno_ := last_errorno_ ci; cipher_kt_ := v;
     cipher_context_enc := cipher_context_enc ci;
     cipher_context_dec := cipher_context_dec ci;
     libsodium_context_key := libsodium_context_key ci;
     xxtea_context_key := xxtea_context_key ci; iv_ := iv_ ci |}.

Definition set_enc (v : option (cipher_evp_t B)) (ci : cipher) : cipher :=
  {| interface_ := interface_ ci; last_errorno_ := last_errorno_ ci;
     cipher_kt_ := cipher_kt_ ci; cipher_context_enc := v;
     cipher_context_dec := cipher_context_dec ci;
     libsodium_context_key := libsodium_context_key ci;
     xxtea_context_key := xxtea_context_key ci; iv_ := iv_ ci |}.

Definition set_dec (v : option (cipher_evp_t B)) (ci : cipher) : cipher :=
  {| interface_ := interface_ ci; last_errorno_ := last_errorno_ ci;
     cipher_kt_ := cipher_kt_ ci; cipher_context_enc := cipher_context_enc ci;
     cipher_context_dec := v;
     libsodium_context_key := libsodium_context_key ci;
     xxtea_context_key := xxtea_context_key ci; iv_ := iv_ ci |}.

Definition set_libsodium_key (v : list byte) (ci : cipher) : cipher :=
  {| interface_ := interface_ ci; last_errorno_ := last_errorno_ ci;
     cipher_kt_ := cipher_kt_ ci; cipher_context_enc := cipher_context_enc ci;
     cipher_context_dec := cipher_context_dec ci;
     libsodium_context_key := v;
     xxtea_context_key := xxtea_context_key ci; iv_ := iv_ ci |}.

Definition set_xxtea_key (v : xxtea_key) (ci : cipher) : cipher :=
  {| interface_ := interface_ ci; last_errorno_ := last_errorno_ ci;
     cipher_kt_ := cipher_kt_ ci; cipher_context_enc := cipher_context_enc ci;
     cipher_context_dec := cipher_context_dec ci;
     libsodium_context_key := libsodium_context_key ci;
     xxtea_context_key := v; iv_ := iv_ ci |}.

Definition set_iv_ (v : list byte) (ci : cipher) : cipher :=
  {| interface_ := interface_ ci; last_errorno_ := last_errorno_ ci;
     cipher_kt_ := cipher_kt_ ci; cipher_context_enc := cipher_context_enc ci;
     cipher_context_dec := cipher_context_dec ci;
     libsodium_context_key := libsodium_context_key ci;
     xxtea_context_key := xxtea_context_key ci; iv_ := v |}.

(** [cipher::cipher()] (line 219): the constructor sets [interface_],
    [last_errorno_] and [cipher_kt_] only. The vector [iv_] is
    default-constructed, so it is empty. The context members have no
    initialiser: they hold whatever the storage of the object held, here
    [enc], [dec], [key] and [xkey]. *)
Definition cipher_new (enc dec : option (cipher_evp_t B)) (key : list byte)
    (xkey : xxtea_key) : cipher :=
  {| interface_ := None; last_errorno_ := 0; cipher_kt_ := None;
     cipher_context_enc := enc; cipher_context_dec := dec;
     libsodium_context_key := key; xxtea_context_key := xkey;
     iv_ := [] |}.

(** *** The state a member function runs in

    The object, the caller's out-parameters ([output], [*olen], [tag];
    [None] for a null pointer) and the trace of back-end calls made so
    far. *)
Record world := {
  self : cipher;
  output : option (list byte);
  olen : option Z;
  tag : option (list byte);
  calls : list backend_call
}.

Definition on_self (f : cipher -> cipher) (w : world) : world :=
  {| self := f (self w); output := output w; olen := olen w; tag := tag w;
     calls := calls w |}.

(** A world with no out-parameters, for the members that take none. *)
Definition world_of (ci : cipher) : world :=
  {| self := ci; output := None; olen := None; tag := None; calls := [] |}.

(** A step either goes on with a value or leaves the member function
    with its return code. *)
Inductive outcome (A : Type) :=
| Next (w : world) (a : A)
| Return (w : world) (r : error_code_t.type).
Arguments Next {A} _ _.
Arguments Return {A} _ _.

Definition M (A : Type) := world -> outcome A.

Definition pure {A} (a : A) : M A := fun w => Next w a.
Definition bind {A C} (m : M A) (k : A -> M C) : M C :=
  fun w => match m w with
           | Next w' a => k a w'
           | Return w' r => Return w' r
           end.
Definition return_ {A} (r : error_code_t.type) : M A := fun w => Return w r.

Notation "x <- m ;; k" := (bind m (fun x => k))
  (at level 61, m at next level, right associativity).
Notation "m ;; k" := (bind m (fun _ => k))
  (at level 61, right associativity).

Definition this : M cipher := fun w => Next w (self w).
Definition modify (f : cipher -> cipher) : M unit := fun w => Next (on_self f w) tt.
Definition skip : M unit := pure tt.

(** A back-end call is appended to the trace. *)
Definition call (c : backend_call) : M unit :=
  fun w => Next {| self := self w; output := output w; olen := olen w; tag := tag w;
                   calls := calls w ++ [c] |} tt.

(** Stores through [output], [olen] and [tag]: bytes land at the start
    of the buffer. *)
Definition write_output (data : list byte) : M unit :=
  fun w => Next {| self := self w; output := option_map (blit data) (output w);
                   olen := olen w; tag := tag w; calls := calls w |} tt.
Definition write_olen (v : Z) : M unit :=
  fun w => Next {| self := self w; output := output w;
                   olen := option_map (fun _ => v) (olen w); tag := tag w;
                   calls := calls w |} tt.
Definition write_tag (data : list byte) : M unit :=
  fun w => Next {| self := self w; output := output w; olen := olen w;
                   tag := option_map (blit data) (tag w); calls := calls w |} tt.

(** [details::setup_errorno] followed by [return]. *)
Definition setup_errorno {A} (err : Z) (ret : error_code_t.type) : M A :=
  modify (set_last_errno err) ;; return_ ret.

(** A nested call, or a [do { ... } while (false)] block left by
    [break]: the code it yields is a value of the caller. *)
Definition call_fn (m : M error_code_t.type) : M error_code_t.type :=
  fun w => match m w with
           | Next w' r => Next w' r
           | Return w' r => Next w' r
           end.

(** Running a member function: its return code and the state it leaves. *)
Definition run (m : M error_code_t.type) (w : world) : error_code_t.type * world :=
  match m w with
  | Next w' r => (r, w')
  | Return w' r => (r, w')
  end.

(** [NULL != interface_ && interface_->method != EN_CIMT_INVALID] *)
Definition initialized (ci : cipher) : bool :=
  match interface_ ci with
  | None => false
  | Some i => negb (method_eqb (method i) EN_CIMT_INVALID)
  end.

(** *** [cipher::get_cipher_by_name] (lines 1292-1308) *)
Definition get_cipher_by_name (nm : option string) : M (option (cipher_kt_t B)) :=
  match get_cipher_interface_by_name cfg nm with
  | None => pure None
  | Some interface =>
      match CRYPTO_GENERIC cfg with
      | USE_OPENSSL =>
          call (CALL_generic FN_EVP_get_cipherbyname) ;;
          match openssl_name interface with
          | None =>
              match name interface with
              | Some n => pure (EVP_get_cipherbyname B n)
              | None => pure None
              end
          | Some o => pure (EVP_get_cipherbyname B o)
          end
      | USE_MBEDTLS =>
          call (CALL_generic FN_mbedtls_cipher_info_from_string) ;;
          pure (mbedtls_cipher_info_from_string B (mbedtls_name interface))
      | USE_NONE =>
          (* neither [#if] branch is compiled: the function has no [return]
             here; [init_with_cipher] answers [CIPHER_NOT_SUPPORT] in this
             build whatever the value *)
          pure None
      end
  end.

(** *** [cipher::init_with_cipher] (lines 267-388) *)

Definition init_with_openssl (kt : cipher_kt_t B) (mode : Z) : M error_code_t.type :=
  ret <- call_fn (
    (if mode_has mode mode_t.EN_CMODE_ENCRYPT then
       call (CALL_generic FN_EVP_CIPHER_CTX_new) ;;
       modify (set_enc (EVP_CIPHER_CTX_new B 1)) ;;
       match EVP_CIPHER_CTX_new B 1 with
       | None => setup_errorno (ERR_peek_error_after_new B) MALLOC
       | Some c =>
           let r := EVP_CipherInit_ex B c (Some kt) None None 1 in
           call (CALL_generic FN_EVP_CipherInit_ex) ;;
           modify (set_enc (Some (c_ctx r))) ;;
           if c_ret r =? 0 then setup_errorno (c_err r) CIPHER_OPERATION else skip
       end
     else modify (set_enc None)) ;;
    (if mode_has mode mode_t.EN_CMODE_DECRYPT then
       call (CALL_generic FN_EVP_CIPHER_CTX_new) ;;
       modify (set_dec (EVP_CIPHER_CTX_new B 0)) ;;
       match EVP_CIPHER_CTX_new B 0 with
       | None => setup_errorno (ERR_peek_error_after_new B) MALLOC
       | Some c =>
           let r := EVP_CipherInit_ex B c (Some kt) None None 0 in
           call (CALL_generic FN_EVP_CipherInit_ex) ;;
           modify (set_dec (Some (c_ctx r))) ;;
           if c_ret r =? 0 then setup_errorno (c_err r) CIPHER_OPERATION else skip
       end
     else modify (set_dec None)) ;;
    pure OK) ;;
  (if error_code_t.eqb ret OK then skip
   else
     ci <- this ;;
     (match cipher_context_enc ci with
      | Some _ =>
          if mode_has mode mode_t.EN_CMODE_ENCRYPT
          then call (CALL_generic FN_EVP_CIPHER_CTX_free) ;; modify (set_enc None)
          else skip
      | None => skip
      end) ;;
     ci <- this ;;
     (match cipher_context_dec ci with
      | Some _ =>
          if mode_has mode mode_t.EN_CMODE_DECRYPT
          then call (CALL_generic FN_EVP_CIPHER_CTX_free) ;; modify (set_dec None)
          else skip
      | None => skip
      end)) ;;
  pure ret.

Definition init_with_mbedtls (kt : cipher_kt_t B) (mode : Z) : M error_code_t.type :=
  ret <- call_fn (
    (if mode_has mode mode_t.EN_CMODE_ENCRYPT then
       call (CALL_generic FN_malloc) ;;
       modify (set_enc (malloc_cipher_evp_t B 1)) ;;
       match malloc_cipher_evp_t B 1 with
       | None => setup_errorno (-1) MALLOC
       | Some c =>
           let r := mbedtls_cipher_setup B (mbedtls_cipher_init B c) kt in
           call (CALL_generic FN_mbedtls_cipher_init) ;;
           call (CALL_generic FN_mbedtls_cipher_setup) ;;
           modify (set_enc (Some (c_ctx r))) ;;
           if negb (c_ret r =? 0) then setup_errorno (c_ret r) CIPHER_OPERATION else skip
       end
     else modify (set_enc None)) ;;
    (if mode_has mode mode_t.EN_CMODE_DECRYPT then
       call (CALL_generic FN_malloc) ;;
       modify (set_dec (malloc_cipher_evp_t B 0)) ;;
       match malloc_cipher_evp_t B 0 with
       | None => setup_errorno (-1) MALLOC
       | Some c =>
           let r := mbedtls_cipher_setup B (mbedtls_cipher_init B c) kt in
           call (CALL_generic FN_mbedtls_cipher_init) ;;
           call (CALL_generic FN_mbedtls_cipher_setup) ;;
           modify (set_dec (Some (c_ctx r))) ;;
           if negb (c_ret r =? 0) then setup_errorno (c_ret r) CIPHER_OPERATION else skip
       end
     else modify (set_dec None)) ;;
    pure OK) ;;
  (if error_code_t.eqb ret OK then skip
   else
     ci <- this ;;
     (match cipher_context_enc ci with
      | Some _ =>
          if mode_has mode mode_t.EN_CMODE_ENCRYPT
          then call (CALL_generic FN_mbedtls_cipher_free) ;;
               call (CALL_generic FN_free) ;; modify (set_enc None)
          else skip
      | None => skip
      end) ;;
     ci <- this ;;
     (match cipher_context_dec ci with
      | Some _ =>
          if mode_has mode mode_t.EN_CMODE_DECRYPT
          then call (CALL_generic FN_mbedtls_cipher_free) ;;
               call (CALL_generic FN_free) ;; modify (set_dec None)
          else skip
      | None => skip
      end)) ;;
  pure ret.

Definition init_with_cipher (interface : option cipher_interface_info_t) (mode : Z)
  : M error_code_t.type :=
  match interface with
  | None => setup_errorno (-1) INVALID_PARAM
  | Some itf =>
      if negb (method_eqb (method itf) EN_CIMT_CIPHER)
      then setup_errorno (-1) INVALID_PARAM
      else
        kt <- get_cipher_by_name (name itf) ;;
        modify (set_cipher_kt kt) ;;
        match kt with
        | None => setup_errorno (-1) CIPHER_NOT_SUPPORT
        | Some k =>
            match CRYPTO_GENERIC cfg with
            | USE_OPENSSL => init_with_openssl k mode
            | USE_MBEDTLS => init_with_mbedtls k mode
            | USE_NONE => setup_errorno (-1) CIPHER_NOT_SUPPORT
            end
        end
  end.

(** *** [cipher::init] (lines 222-265) *)
Definition init (nm : option string) (mode : Z) : M error_code_t.type :=
  ci <- this ;;
  if initialized ci then setup_errorno (-1) ALREADY_INITED
  else
    match nm with
    | None => setup_errorno (-1) INVALID_PARAM
    | Some _ =>
        match get_cipher_interface_by_name cfg nm with
        | None => setup_errorno (-1) CIPHER_NOT_SUPPORT
        | Some interface =>
            ret <- (match method interface with
                    | EN_CIMT_XXTEA =>
                        modify (set_xxtea_key xxtea_key_zero) ;; pure OK
                    | EN_CIMT_CIPHER =>
                        call_fn (init_with_cipher (Some interface) mode)
                    | EN_CIMT_LIBSODIUM_CHACHA20
                    | EN_CIMT_LIBSODIUM_CHACHA20_IETF
                    | EN_CIMT_LIBSODIUM_XCHACHA20
                    | EN_CIMT_LIBSODIUM_SALSA20
                    | EN_CIMT_LIBSODIUM_XSALSA20
                    | EN_CIMT_LIBSODIUM_CHACHA20_POLY1305
                    | EN_CIMT_LIBSODIUM_CHACHA20_POLY1305_IETF
                    | EN_CIMT_LIBSODIUM_XCHACHA20_POLY1305_IETF =>
                        modify (set_libsodium_key
                                  (repeat x00 (Z.to_nat (sizeof_libsodium_key cfg)))) ;;
                        pure OK
                    | _ => call_fn (setup_errorno (-1) CIPHER_NOT_SUPPORT)
                    end) ;;
            (if error_code_t.eqb ret OK
             then modify (set_interface (Some interface)) else skip) ;;
            pure ret
        end
    end.

(** *** [cipher::close_with_cipher] and [cipher::close] (lines 390-462) *)
Definition close_with_cipher : M error_code_t.type :=
  ci <- this ;;
  match interface_ ci with
  | None => setup_errorno 0 NOT_INITED
  | Some i =>
      if negb (method_eqb (method i) EN_CIMT_CIPHER)
      then setup_errorno 0 INVALID_PARAM
      else
        (match CRYPTO_GENERIC cfg with
         | USE_OPENSSL =>
             (match cipher_context_enc ci with
              | Some _ => call (CALL_generic FN_EVP_CIPHER_CTX_free) ;;
                          modify (set_enc None)
              | None => skip
              end) ;;
             (match cipher_context_dec ci with
              | Some _ => call (CALL_generic FN_EVP_CIPHER_CTX_free) ;;
                          modify (set_dec None)
              | None => skip
              end)
         | USE_MBEDTLS =>
             (match cipher_context_enc ci with
              | Some _ => call (CALL_generic FN_mbedtls_cipher_free) ;;
                          call (CALL_generic FN_free) ;; modify (set_enc None)
              | None => skip
              end) ;;
             (match cipher_context_dec ci with
              | Some _ => call (CALL_generic FN_mbedtls_cipher_free) ;;
                          call (CALL_generic FN_free) ;; modify (set_dec None)
              | None => skip
              end)
         | USE_NONE => skip
         end) ;;
        setup_errorno 0 OK
  end.

Definition close : M error_code_t.type :=
  ci <- this ;;
  if negb (initialized ci) then setup_errorno 0 NOT_INITED
  else
    match interface_ ci with
    | None => setup_errorno 0 NOT_INITED
    | Some i =>
        ret <- (match method i with
                | EN_CIMT_XXTEA => call_fn (setup_errorno 0 OK)
                | EN_CIMT_CIPHER => call_fn close_with_cipher
                | EN_CIMT_LIBSODIUM_CHACHA20
                | EN_CIMT_LIBSODIUM_CHACHA20_IETF
                | EN_CIMT_LIBSODIUM_XCHACHA20
                | EN_CIMT_LIBSODIUM_SALSA20
                | EN_CIMT_LIBSODIUM_XSALSA20
                | EN_CIMT_LIBSODIUM_CHACHA20_POLY1305
                | EN_CIMT_LIBSODIUM_CHACHA20_POLY1305_IETF
                | EN_CIMT_LIBSODIUM_XCHACHA20_POLY1305_IETF =>
                    call_fn (setup_errorno 0 OK)
                | _ => call_fn (setup_errorno 0 CIPHER_NOT_SUPPORT)
                end) ;;
        modify (set_interface None) ;;
        pure ret
    end.

(** *** [cipher::is_aead] and the size getters (lines 464-637) *)
Definition is_aead (ci : cipher) : bool :=
  match interface_ ci with
  | None => false
  | Some i => has_flag (flags i) EN_CIFT_AEAD
  end.

(** With neither generic back-end compiled in, the [EN_CIMT_CIPHER] case
    of the getters has an empty body when a context is non-null, and
    control falls into the case that follows it; [fall] is that value. *)
Definition generic_getter (ci : cipher) (ossl mbed : cipher_evp_t B -> Z) (fall : Z) : Z :=
  match cipher_context_enc ci with
  | Some c =>
      match CRYPTO_GENERIC cfg with
      | USE_OPENSSL => to_u32 (ossl c)
      | USE_MBEDTLS => to_u32 (mbed c)
      | USE_NONE => fall
      end
  | None =>
      match cipher_context_dec ci with
      | Some c =>
          match CRYPTO_GENERIC cfg with
          | USE_OPENSSL => to_u32 (ossl c)
          | USE_MBEDTLS => to_u32 (mbed c)
          | USE_NONE => fall
          end
      | None => 0
      end
  end.

Definition get_iv_size (ci : cipher) : Z :=
  match interface_ ci with
  | None => 0
  | Some i =>
      let sodium (b : bool) (v : Z) := if CRYPTO_USE_LIBSODIUM cfg && b then to_u32 v else 0 in
      match method i with
      | EN_CIMT_INVALID | EN_CIMT_XXTEA => 0
      | EN_CIMT_CIPHER =>
          generic_getter ci (EVP_CIPHER_CTX_iv_length B) (mbedtls_cipher_get_iv_size B)
            (sodium true (LIBSODIUM_COUNTER_SIZE + crypto_stream_chacha20_NONCEBYTES))
      | EN_CIMT_LIBSODIUM_CHACHA20 =>
          sodium true (LIBSODIUM_COUNTER_SIZE + crypto_stream_chacha20_NONCEBYTES)
      | EN_CIMT_LIBSODIUM_CHACHA20_IETF =>
          sodium true (LIBSODIUM_COUNTER_SIZE + crypto_stream_chacha20_ietf_NONCEBYTES)
      | EN_CIMT_LIBSODIUM_XCHACHA20 =>
          sodium (HAVE_crypto_stream_xchacha20 cfg)
            (LIBSODIUM_COUNTER_SIZE + crypto_stream_xchacha20_NONCEBYTES)
      | EN_CIMT_LIBSODIUM_SALSA20 =>
          sodium true (LIBSODIUM_COUNTER_SIZE + crypto_stream_salsa20_NONCEBYTES)
      | EN_CIMT_LIBSODIUM_XSALSA20 =>
          sodium true (LIBSODIUM_COUNTER_SIZE + crypto_stream_xsalsa20_NONCEBYTES)
      | EN_CIMT_LIBSODIUM_CHACHA20_POLY1305 =>
          sodium true crypto_aead_chacha20poly1305_NPUBBYTES
      | EN_CIMT_LIBSODIUM_CHACHA20_POLY1305_IETF =>
          sodium true crypto_aead_chacha20poly1305_IETF_NPUBBYTES
      | EN_CIMT_LIBSODIUM_XCHACHA20_POLY1305_IETF =>
          sodium (HAVE_crypto_aead_xchacha20poly1305_ietf cfg)
            crypto_aead_xchacha20poly1305_ietf_NPUBBYTES
      | _ => 0
      end
  end.

Definition get_key_bits (ci : cipher) : Z :=
  match interface_ ci with
  | None => 0
  | Some i =>
      let sodium (b : bool) (v : Z) := if CRYPTO_USE_LIBSODIUM cfg && b then to_u32 v else 0 in
      match method i with
      | EN_CIMT_INVALID => 0
      | EN_CIMT_XXTEA => to_u32 (sizeof_xxtea_key * 8)
      | EN_CIMT_CIPHER =>
          generic_getter ci (fun c => to_int (EVP_CIPHER_CTX_key_length B c * 8))
            (mbedtls_cipher_get_key_bitlen B)
            (sodium true (crypto_stream_chacha20_KEYBYTES * 8))
      | EN_CIMT_LIBSODIUM_CHACHA20 => sodium true (crypto_stream_chacha20_KEYBYTES * 8)
      | EN_CIMT_LIBSODIUM_CHACHA20_IETF =>
          sodium true (crypto_stream_chacha20_ietf_KEYBYTES * 8)
      | EN_CIMT_LIBSODIUM_XCHACHA20 =>
          sodium (HAVE_crypto_stream_xchacha20 cfg) (crypto_stream_xchacha20_KEYBYTES * 8)
      | EN_CIMT_LIBSODIUM_SALSA20 => sodium true (crypto_stream_salsa20_KEYBYTES * 8)
      | EN_CIMT_LIBSODIUM_XSALSA20 => sodium true (crypto_stream_xsalsa20_KEYBYTES * 8)
      | EN_CIMT_LIBSODIUM_CHACHA20_POLY1305 =>
          sodium true (crypto_aead_chacha20poly1305_KEYBYTES * 8)
      | EN_CIMT_LIBSODIUM_CHACHA20_POLY1305_IETF =>
          sodium true (crypto_aead_chacha20poly1305_IETF_KEYBYTES * 8)
      | EN_CIMT_LIBSODIUM_XCHACHA20_POLY1305_IETF =>
          sodium (HAVE_crypto_aead_xchacha20poly1305_ietf cfg)
            (crypto_aead_xchacha20poly1305_ietf_KEYBYTES * 8)
      | _ => 0
      end
  end.

Definition get_block_size (ci : cipher) : Z :=
  match interface_ ci with
  | None => 0
  | Some i =>
      match method i with
      | EN_CIMT_INVALID => 0
      | EN_CIMT_XXTEA => 0x04
      | EN_CIMT_CIPHER =>
          generic_getter ci (EVP_CIPHER_CTX_block_size B) (mbedtls_cipher_get_block_size B) 1
      | EN_CIMT_LIBSODIUM_CHACHA20
      | EN_CIMT_LIBSODIUM_CHACHA20_IETF
      | EN_CIMT_LIBSODIUM_XCHACHA20
      | EN_CIMT_LIBSODIUM_SALSA20
      | EN_CIMT_LIBSODIUM_XSALSA20
      | EN_CIMT_LIBSODIUM_CHACHA20_POLY1305
      | EN_CIMT_LIBSODIUM_CHACHA20_POLY1305_IETF
      | EN_CIMT_LIBSODIUM_XCHACHA20_POLY1305_IETF => 1
      | _ => 0
      end
  end.

(** *** [cipher::set_key] (lines 639-709) *)

(** The [EN_CIMT_CIPHER] case. *)
Definition set_key_with_cipher (key : list byte) (key_bitlen : Z) : M error_code_t.type :=
  ci <- this ;;
  res <- (match CRYPTO_GENERIC cfg with
          | USE_OPENSSL =>
              if get_key_bits ci >? key_bitlen then setup_errorno (-1) INVALID_PARAM
              else
                res1 <- (match cipher_context_enc ci with
                         | Some c =>
                             let r := EVP_CipherInit_ex B c None (Some key) None (-1) in
                             call (CALL_generic FN_EVP_CipherInit_ex) ;;
                             modify (set_enc (Some (c_ctx r))) ;;
                             pure (if c_ret r =? 0 then to_int (c_err r) else 0)
                         | None => pure 0
                         end) ;;
                match cipher_context_dec ci with
                | Some c =>
                    let r := EVP_CipherInit_ex B c None (Some key) None (-1) in
                    call (CALL_generic FN_EVP_CipherInit_ex) ;;
                    modify (set_dec (Some (c_ctx r))) ;;
                    pure (if c_ret r =? 0 then to_int (c_err r) else res1)
                | None => pure res1
                end
          | USE_MBEDTLS =>
              res1 <- (match cipher_context_enc ci with
                       | Some c =>
                           let r := mbedtls_cipher_setkey B c key (to_int key_bitlen) 1 in
                           call (CALL_generic FN_mbedtls_cipher_setkey) ;;
                           modify (set_enc (Some (c_ctx r))) ;;
                           pure (c_ret r)
                       | None => pure 0
                       end) ;;
              match cipher_context_dec ci with
              | Some c =>
                  let r := mbedtls_cipher_setkey B c key (to_int key_bitlen) 0 in
                  call (CALL_generic FN_mbedtls_cipher_setkey) ;;
                  modify (set_dec (Some (c_ctx r))) ;;
                  pure (c_ret r)
              | None => pure res1
              end
          | USE_NONE => pure 0
          end) ;;
  if negb (res =? 0) then setup_errorno res CIPHER_OPERATION
  else setup_errorno res OK.

Definition set_key (key : list byte) (key_bitlen : Z) : M error_code_t.type :=
  ci <- this ;;
  match interface_ ci with
  | None => setup_errorno 0 NOT_INITED
  | Some i =>
      match method i with
      | EN_CIMT_INVALID => setup_errorno (-1) NOT_INITED
      | EN_CIMT_XXTEA =>
          let secret0 := repeat x00 (Z.to_nat (4 * 4)) in
          let secret :=
            if key_bitlen >=? size secret0 * 8
            then memcpy secret0 key (size secret0)
            else memcpy secret0 key (key_bitlen / 8) in
          call (CALL_xxtea_setup secret) ;;
          modify (set_xxtea_key (xxtea_setup B secret)) ;;
          setup_errorno 0 OK
      | EN_CIMT_CIPHER => set_key_with_cipher key key_bitlen
      | EN_CIMT_LIBSODIUM_CHACHA20
      | EN_CIMT_LIBSODIUM_CHACHA20_IETF
      | EN_CIMT_LIBSODIUM_XCHACHA20
      | EN_CIMT_LIBSODIUM_SALSA20
      | EN_CIMT_LIBSODIUM_XSALSA20
      | EN_CIMT_LIBSODIUM_CHACHA20_POLY1305
      | EN_CIMT_LIBSODIUM_CHACHA20_POLY1305_IETF
      | EN_CIMT_LIBSODIUM_XCHACHA20_POLY1305_IETF =>
          (if key_bitlen >=? sizeof_libsodium_key cfg * 8
           then modify (set_libsodium_key
                          (memcpy (libsodium_context_key ci) key (sizeof_libsodium_key cfg)))
           else modify (set_libsodium_key
                          (memcpy (libsodium_context_key ci) key (key_bitlen / 8)))) ;;
          setup_errorno 0 OK
      | _ => setup_errorno (-1) NOT_INITED
      end
  end.

(** *** [cipher::set_iv] and [cipher::clear_iv] (lines 711-759)

    [iv] and [iv_len] are one byte string. *)
Definition set_iv (iv : list byte) : M error_code_t.type :=
  ci <- this ;;
  if negb (initialized ci) then setup_errorno 0 NOT_INITED
  else
    match interface_ ci with
    | None => setup_errorno 0 NOT_INITED
    | Some i =>
        match method i with
        | EN_CIMT_INVALID | EN_CIMT_XXTEA => return_ OK
        | EN_CIMT_CIPHER =>
            (match CRYPTO_GENERIC cfg with
             | USE_MBEDTLS =>
                 if size iv >? MBEDTLS_MAX_IV_LENGTH B
                 then setup_errorno (-1) INVALID_PARAM else skip
             | _ => skip
             end) ;;
            let res := 0 in
            (if Z.land (flags i) EN_CIFT_VARIABLE_IV_LEN =? 0
             then if negb (get_iv_size ci =? size iv)
                  then setup_errorno (-1) INVALID_PARAM else skip
             else skip) ;;
            modify (set_iv_ iv) ;;
            setup_errorno res OK
        | EN_CIMT_LIBSODIUM_CHACHA20
        | EN_CIMT_LIBSODIUM_CHACHA20_IETF
        | EN_CIMT_LIBSODIUM_XCHACHA20
        | EN_CIMT_LIBSODIUM_SALSA20
        | EN_CIMT_LIBSODIUM_XSALSA20
        | EN_CIMT_LIBSODIUM_CHACHA20_POLY1305
        | EN_CIMT_LIBSODIUM_CHACHA20_POLY1305_IETF
        | EN_CIMT_LIBSODIUM_XCHACHA20_POLY1305_IETF =>
            (if negb (get_iv_size ci =? size iv)
             then setup_errorno (-1) INVALID_PARAM else skip) ;;
            modify (set_iv_ iv) ;;
            setup_errorno 0 OK
        | _ => return_ OK
        end
    end.

Definition clear_iv : M unit := modify (set_iv_ []).

(** *** [cipher::encrypt] and [cipher::decrypt] (lines 761-992)

    The two member functions are the same text up to the context they
    use ([cipher_context_.enc] or [.dec]), the padding flag they test and
    the XXTEA routine they call; [direction] names the copy. [input] and
    [ilen] are one byte string, [None] for a null pointer. *)

Inductive direction := ENCRYPT | DECRYPT.

Definition context_of (d : direction) (ci : cipher) : option (cipher_evp_t B) :=
  match d with
  | ENCRYPT => cipher_context_enc ci
  | DECRYPT => cipher_context_dec ci
  end.

Definition set_context (d : direction) (c : cipher_evp_t B) : M unit :=
  match d with
  | ENCRYPT => modify (set_enc (Some c))
  | DECRYPT => modify (set_dec (Some c))
  end.

Definition no_padding_flag (d : direction) : Z :=
  match d with
  | ENCRYPT => EN_CIFT_ENCRYPT_NO_PADDING
  | DECRYPT => EN_CIFT_DECRYPT_NO_PADDING
  end.

Definition is_null {A} (p : option A) : bool :=
  match p with None => true | Some _ => false end.

Definition ilen_of (input : option (list byte)) : Z :=
  match input with None => 0 | Some l => size l end.

(** [*olen], read after the null test. *)
Definition olen_value (w : world) : Z :=
  match olen w with None => 0 | Some v => v end.

(** [input == NULL || ilen <= 0 || output == NULL || NULL == olen ||
     *olen <= 0 || *olen < ilen + get_block_size()] *)
Definition bad_crypt_params (input : option (list byte)) (w : world) : bool :=
  is_null input || (ilen_of input <=? 0) || is_null (output w) || is_null (olen w)
  || (olen_value w <=? 0)
  || (olen_value w <? to_size_t (ilen_of input + get_block_size (self w))).

(** The zero-padding of a short IV. *)
Definition pad_iv : M unit :=
  ci <- this ;;
  match interface_ ci with
  | None => skip
  | Some i =>
      if (method_value (method i) >=? method_value EN_CIMT_CIPHER)
         && (Z.land (flags i) EN_CIFT_VARIABLE_IV_LEN =? 0)
         && (size (iv_ ci) <? get_iv_size ci)
      then if negb (0 =? get_iv_size ci)
           then modify (set_iv_ (resize0 (iv_ ci) (get_iv_size ci)))
           else skip
      else skip
  end.

(** Writing at [output + off]. *)
Definition blit_at (off : Z) (data buf : list byte) : list byte :=
  firstn (Z.to_nat off) buf ++ data ++ skipn (Z.to_nat off + length data) buf.

Definition write_output_at (off : Z) (data : list byte) : M unit :=
  fun w => Next {| self := self w; output := option_map (blit_at off data) (output w);
                   olen := olen w; tag := tag w; calls := calls w |} tt.

(** The OpenSSL-family body of the [EN_CIMT_CIPHER] case. *)
Definition crypt_with_openssl (d : direction) (i : cipher_interface_info_t)
    (c0 : cipher_evp_t B) (input : list byte) : M error_code_t.type :=
  ci <- this ;;
  c1 <- (if negb (size (iv_ ci) =? 0) then
           let r := EVP_CipherInit_ex B c0 None None (Some (iv_ ci)) (-1) in
           call (CALL_generic FN_EVP_CipherInit_ex) ;;
           set_context d (c_ctx r) ;;
           if c_ret r =? 0 then setup_errorno (c_err r) CIPHER_OPERATION_SET_IV
           else pure (c_ctx r)
         else pure c0) ;;
  c2 <- (if has_flag (flags i) (no_padding_flag d) then
           call (CALL_generic FN_EVP_CIPHER_CTX_set_padding) ;;
           set_context d (EVP_CIPHER_CTX_set_padding B c1 0) ;;
           pure (EVP_CIPHER_CTX_set_padding B c1 0)
         else pure c1) ;;
  let u := EVP_CipherUpdate B c2 true (Some input) (to_int (size input)) in
  call (CALL_generic FN_EVP_CipherUpdate) ;;
  set_context d (c_ctx u) ;;
  write_output (c_out u) ;;
  if c_ret u =? 0 then setup_errorno (c_err u) CIPHER_OPERATION
  else
    finish_olen <- (if has_flag (flags i) EN_CIFT_NO_FINISH then pure 0
                    else
                      let f := EVP_CipherFinal_ex B (c_ctx u) in
                      call (CALL_generic FN_EVP_CipherFinal_ex) ;;
                      set_context d (c_ctx f) ;;
                      write_output_at (c_len u) (c_out f) ;;
                      if c_ret f =? 0 then setup_errorno (c_err f) CIPHER_OPERATION
                      else pure (c_len f)) ;;
    write_olen (to_size_t (c_len u + finish_olen)) ;;
    return_ OK.

(** The mbedTLS body of the [EN_CIMT_CIPHER] case. *)
Definition crypt_with_mbedtls (d : direction) (i : cipher_interface_info_t)
    (c0 : cipher_evp_t B) (input : list byte) : M error_code_t.type :=
  c1 <- (if has_flag (flags i) (no_padding_flag d) && mbedtls_cipher_mode_is_cbc B c0 then
           let r := mbedtls_cipher_set_padding_mode B c0 in
           call (CALL_generic FN_mbedtls_cipher_set_padding_mode) ;;
           set_context d (c_ctx r) ;;
           modify (set_last_errno (c_ret r)) ;;
           if negb (c_ret r =? 0) then return_ CIPHER_OPERATION else pure (c_ctx r)
         else pure c0) ;;
  ci <- this ;;
  let empty_iv := repeat x00 (Z.to_nat (MBEDTLS_MAX_IV_LENGTH B)) in
  fun w =>
    (let r := mbedtls_cipher_crypt B c1
                (if size (iv_ ci) =? 0 then empty_iv else iv_ ci) (size (iv_ ci))
                input (olen_value w) in
     call (CALL_generic FN_mbedtls_cipher_crypt) ;;
     set_context d (c_ctx r) ;;
     write_output (c_out r) ;;
     write_olen (c_len r) ;;
     modify (set_last_errno (c_ret r)) ;;
     if negb (c_ret r =? 0) then return_ CIPHER_OPERATION else return_ OK) w.

(** The counter as the primitive receives it. The call passes the
    [libsodium_counter_t] value, a [uint64_t];
    [crypto_stream_chacha20_ietf_xor_ic] declares its parameter
    [uint32_t ic], so the call converts the value, the other primitives
    declare [uint64_t ic]. *)
Definition libsodium_counter_arg (m : cipher_interface_method_t) (ic : Z) : Z :=
  match m with
  | EN_CIMT_LIBSODIUM_CHACHA20_IETF => to_u32 ic
  | _ => ic
  end.

(** One [crypto_stream_*_xor_ic] case. *)
Definition crypt_with_libsodium_stream (m : cipher_interface_method_t)
    (input : list byte) : M error_code_t.type :=
  ci <- this ;;
  let nonce := skipn (Z.to_nat LIBSODIUM_COUNTER_SIZE) (iv_ ci) in
  let ic := libsodium_counter_arg m (libsodium_get_counter (iv_ ci)) in
  let r := crypto_stream_xor_ic B m input nonce ic (libsodium_context_key ci) in
  call (CALL_stream_xor_ic m input nonce ic (libsodium_context_key ci)) ;;
  write_output (c_out r) ;;
  modify (set_last_errno (c_ret r)) ;;
  if negb (c_ret r =? 0) then return_ LIBSODIUM_OPERATION else return_ OK.

(** The [util::xxtea_encrypt] / [util::xxtea_decrypt] case. *)
Definition crypt_with_xxtea (d : direction) (input : list byte) : M error_code_t.type :=
  ci <- this ;;
  fun w =>
    (let r := match d with
              | ENCRYPT => xxtea_encrypt B (xxtea_context_key ci) input (olen_value w)
              | DECRYPT => xxtea_decrypt B (xxtea_context_key ci) input (olen_value w)
              end in
     call (match d with
           | ENCRYPT => CALL_xxtea_encrypt (xxtea_context_key ci) input
           | DECRYPT => CALL_xxtea_decrypt (xxtea_context_key ci) input
           end) ;;
     write_output (c_out r) ;;
     write_olen (c_len r) ;;
     setup_errorno 0 OK) w.

(** The [default:] label. *)
Definition crypt_default : M error_code_t.type := setup_errorno (-1) NOT_INITED.

Definition crypt (d : direction) (input : option (list byte)) : M error_code_t.type :=
  ci <- this ;;
  if negb (initialized ci) then setup_errorno 0 NOT_INITED
  else if is_aead ci then return_ MUST_CALL_AEAD_API
  else fun w =>
    (if bad_crypt_params input w then setup_errorno (-1) INVALID_PARAM
     else
       pad_iv ;;
       match interface_ ci, input with
       | Some i, Some inp =>
           match method i with
           | EN_CIMT_INVALID => setup_errorno (-1) NOT_INITED
           | EN_CIMT_XXTEA => crypt_with_xxtea d inp
           | EN_CIMT_CIPHER =>
               match context_of d ci with
               | None => setup_errorno 0 CIPHER_DISABLED
               | Some c =>
                   match CRYPTO_GENERIC cfg with
                   | USE_OPENSSL => crypt_with_openssl d i c inp
                   | USE_MBEDTLS => crypt_with_mbedtls d i c inp
                   | USE_NONE =>
                       (* an empty case body: control falls into the next label *)
                       if CRYPTO_USE_LIBSODIUM cfg
                       then crypt_with_libsodium_stream EN_CIMT_LIBSODIUM_CHACHA20 inp
                       else crypt_default
                   end
               end
           | EN_CIMT_LIBSODIUM_CHACHA20 =>
               if CRYPTO_USE_LIBSODIUM cfg
               then crypt_with_libsodium_stream EN_CIMT_LIBSODIUM_CHACHA20 inp
               else crypt_default
           | EN_CIMT_LIBSODIUM_CHACHA20_IETF =>
               if CRYPTO_USE_LIBSODIUM cfg
               then crypt_with_libsodium_stream EN_CIMT_LIBSODIUM_CHACHA20_IETF inp
               else crypt_default
           (* the [crypto_stream_xchacha20_xor_ic] call of the source follows a
              [return] and carries no case label: [EN_CIMT_LIBSODIUM_XCHACHA20]
              is served by [default:] *)
           | EN_CIMT_LIBSODIUM_SALSA20 =>
               if CRYPTO_USE_LIBSODIUM cfg
               then crypt_with_libsodium_stream EN_CIMT_LIBSODIUM_SALSA20 inp
               else crypt_default
           | EN_CIMT_LIBSODIUM_XSALSA20 =>
               if CRYPTO_USE_LIBSODIUM cfg
               then crypt_with_libsodium_stream EN_CIMT_LIBSODIUM_XSALSA20 inp
               else crypt_default
           | _ => crypt_default
           end
       | _, _ => crypt_default
       end) w.

Definition encrypt (input : option (list byte)) : M error_code_t.type :=
  crypt ENCRYPT input.
Definition decrypt (input : option (list byte)) : M error_code_t.type :=
  crypt DECRYPT input.

(** *** [cipher::encrypt_aead] and [cipher::decrypt_aead] (lines 994-1290)

    [ad] and [ad_len] are one byte string; [tag_len] is kept apart from
    the tag buffer, since the source tests it on its own. *)

Definition ad_len_of (ad : option (list byte)) : Z :=
  match ad with None => 0 | Some l => size l end.

(** The IV steps the two OpenSSL-family AEAD bodies share. *)
Definition aead_bind_iv_openssl (d : direction) (i : cipher_interface_info_t)
    (c0 : cipher_evp_t B) : M (cipher_evp_t B) :=
  ci <- this ;;
  if negb (size (iv_ ci) =? 0) then
    c1 <- (if has_flag (flags i) EN_CIFT_VARIABLE_IV_LEN then
             let r := EVP_CIPHER_CTX_ctrl B c0 EVP_CTRL_AEAD_SET_IVLEN
                        (to_int (size (iv_ ci))) None in
             call (CALL_generic FN_EVP_CIPHER_CTX_ctrl) ;;
             set_context d (c_ctx r) ;;
             if c_ret r =? 0 then setup_errorno (c_err r) CIPHER_OPERATION_SET_IV
             else pure (c_ctx r)
           else pure c0) ;;
    let r := EVP_CipherInit_ex B c1 None None (Some (iv_ ci)) (-1) in
    call (CALL_generic FN_EVP_CipherInit_ex) ;;
    set_context d (c_ctx r) ;;
    if c_ret r =? 0 then setup_errorno (c_err r) CIPHER_OPERATION_SET_IV
    else pure (c_ctx r)
  else pure c0.

(** From the length announcement to the store through [olen]. *)
Definition aead_update_openssl (d : direction) (i : cipher_interface_info_t)
    (c0 : cipher_evp_t B) (input : list byte) (ad : option (list byte))
  : M (cipher_evp_t B) :=
  c1 <- (if has_flag (flags i) EN_CIFT_AEAD_SET_LENGTH_BEFORE then
           let r := EVP_CipherUpdate B c0 false None (to_int (size input)) in
           call (CALL_generic FN_EVP_CipherUpdate) ;;
           set_context d (c_ctx r) ;;
           if c_ret r =? 0 then setup_errorno (c_err r) CIPHER_OPERATION
           else pure (c_ctx r)
         else pure c0) ;;
  c2 <- (if negb (is_null ad) && (ad_len_of ad >? 0) then
           let r := EVP_CipherUpdate B c1 false ad (to_int (ad_len_of ad)) in
           call (CALL_generic FN_EVP_CipherUpdate) ;;
           set_context d (c_ctx r) ;;
           if c_ret r =? 0 then setup_errorno (c_err r) CIPHER_OPERATION
           else pure (c_ctx r)
         else pure c1) ;;
  c3 <- (if has_flag (flags i) (no_padding_flag d) then
           call (CALL_generic FN_EVP_CIPHER_CTX_set_padding) ;;
           set_context d (EVP_CIPHER_CTX_set_padding B c2 0) ;;
           pure (EVP_CIPHER_CTX_set_padding B c2 0)
         else pure c2) ;;
  let u := EVP_CipherUpdate B c3 true (Some input) (to_int (size input)) in
  call (CALL_generic FN_EVP_CipherUpdate) ;;
  set_context d (c_ctx u) ;;
  write_output (c_out u) ;;
  if c_ret u =? 0 then setup_errorno (c_err u) CIPHER_OPERATION
  else
    fin <- (if has_flag (flags i) EN_CIFT_NO_FINISH then pure (0, c_ctx u)
            else
              let f := EVP_CipherFinal_ex B (c_ctx u) in
              call (CALL_generic FN_EVP_CipherFinal_ex) ;;
              set_context d (c_ctx f) ;;
              write_output_at (c_len u) (c_out f) ;;
              if c_ret f =? 0 then setup_errorno (c_err f) CIPHER_OPERATION
              else pure (c_len f, c_ctx f)) ;;
    write_olen (to_size_t (c_len u + fst fin)) ;;
    pure (snd fin).

Definition encrypt_aead_with_openssl (i : cipher_interface_info_t)
    (c0 : cipher_evp_t B) (input : list byte) (ad : option (list byte)) (tag_len : Z)
  : M error_code_t.type :=
  c1 <- aead_bind_iv_openssl ENCRYPT i c0 ;;
  c2 <- aead_update_openssl ENCRYPT i c1 input ad ;;
  fun w =>
    ((if negb (is_null (tag w)) && (tag_len >? 0) then
        let r := EVP_CIPHER_CTX_ctrl B c2 EVP_CTRL_AEAD_GET_TAG (to_int tag_len) (tag w) in
        call (CALL_generic FN_EVP_CIPHER_CTX_ctrl) ;;
        set_context ENCRYPT (c_ctx r) ;;
        write_tag (c_tag r) ;;
        if c_ret r =? 0 then setup_errorno (c_err r) CIPHER_OPERATION else skip
      else skip) ;;
     return_ OK) w.

Definition decrypt_aead_with_openssl (i : cipher_interface_info_t)
    (c0 : cipher_evp_t B) (input : list byte) (ad : option (list byte))
    (tag_in : option (list byte)) (tag_len : Z) : M error_code_t.type :=
  c1 <- aead_bind_iv_openssl DECRYPT i c0 ;;
  c2 <- (if negb (is_null tag_in) && (tag_len >? 0) then
           let r := EVP_CIPHER_CTX_ctrl B c1 EVP_CTRL_AEAD_SET_TAG (to_int tag_len) tag_in in
           call (CALL_generic FN_EVP_CIPHER_CTX_ctrl) ;;
           set_context DECRYPT (c_ctx r) ;;
           if c_ret r =? 0 then setup_errorno (c_err r) CIPHER_OPERATION
           else pure (c_ctx r)
         else pure c1) ;;
  aead_update_openssl DECRYPT i c2 input ad ;;
  return_ OK.

Definition encrypt_aead_with_mbedtls (c0 : cipher_evp_t B) (input : list byte)
    (ad : option (list byte)) (tag_len : Z) : M error_code_t.type :=
  ci <- this ;;
  let empty_iv := repeat x00 (Z.to_nat (MBEDTLS_MAX_IV_LENGTH B)) in
  fun w =>
    (let r := mbedtls_cipher_auth_encrypt B c0
                (if size (iv_ ci) =? 0 then empty_iv else iv_ ci) (size (iv_ ci))
                ad input (olen_value w) tag_len in
     call (CALL_generic FN_mbedtls_cipher_auth_encrypt) ;;
     set_context ENCRYPT (c_ctx r) ;;
     write_output (c_out r) ;;
     write_olen (c_len r) ;;
     write_tag (c_tag r) ;;
     modify (set_last_errno (c_ret r)) ;;
     if negb (c_ret r =? 0) then return_ CIPHER_OPERATION else return_ OK) w.

Definition decrypt_aead_with_mbedtls (c0 : cipher_evp_t B) (input : list byte)
    (ad : option (list byte)) (tag_in : option (list byte)) (tag_len : Z)
  : M error_code_t.type :=
  ci <- this ;;
  let empty_iv := repeat x00 (Z.to_nat (MBEDTLS_MAX_IV_LENGTH B)) in
  fun w =>
    (let r := mbedtls_cipher_auth_decrypt B c0
                (if size (iv_ ci) =? 0 then empty_iv else iv_ ci) (size (iv_ ci))
                ad input (olen_value w) tag_in tag_len in
     call (CALL_generic FN_mbedtls_cipher_auth_decrypt) ;;
     set_context DECRYPT (c_ctx r) ;;
     write_output (c_out r) ;;
     write_olen (c_len r) ;;
     modify (set_last_errno (c_ret r)) ;;
     if negb (c_ret r =? 0) then return_ CIPHER_OPERATION else return_ OK) w.

(** One [crypto_aead_*_encrypt_detached] case; [abytes] is the method's
    [ABYTES]. *)
Definition encrypt_aead_with_libsodium (m : cipher_interface_method_t) (abytes : Z)
    (input : list byte) (ad : option (list byte)) (tag_len : Z) : M error_code_t.type :=
  if abytes >? tag_len then return_ LIBSODIUM_OPERATION_TAG_LEN
  else
    ci <- this ;;
    let r := crypto_aead_encrypt_detached B m input ad (iv_ ci) (libsodium_context_key ci) in
    call (CALL_aead_encrypt_detached m input ad (iv_ ci) (libsodium_context_key ci)) ;;
    write_output (c_out r) ;;
    write_tag (c_tag r) ;;
    modify (set_last_errno (c_ret r)) ;;
    if negb (c_ret r =? 0) then return_ LIBSODIUM_OPERATION else return_ OK.

Definition decrypt_aead_with_libsodium (m : cipher_interface_method_t) (abytes : Z)
    (input : list byte) (ad : option (list byte)) (tag_in : option (list byte))
    (tag_len : Z) : M error_code_t.type :=
  if abytes >? tag_len then return_ LIBSODIUM_OPERATION_TAG_LEN
  else
    ci <- this ;;
    let r := crypto_aead_decrypt_detached B m input tag_in ad (iv_ ci)
               (libsodium_context_key ci) in
    call (CALL_aead_decrypt_detached m input tag_in ad (iv_ ci) (libsodium_context_key ci)) ;;
    write_output (c_out r) ;;
    modify (set_last_errno (c_ret r)) ;;
    if negb (c_ret r =? 0) then return_ LIBSODIUM_OPERATION else return_ OK.

Definition encrypt_aead (input : option (list byte)) (ad : option (list byte))
    (tag_len : Z) : M error_code_t.type :=
  ci <- this ;;
  if negb (initialized ci) then setup_errorno 0 NOT_INITED
  else if negb (is_aead ci) then return_ MUST_NOT_CALL_AEAD_API
  else fun w =>
    (if bad_crypt_params input w then setup_errorno (-1) INVALID_PARAM
     else
       pad_iv ;;
       let chacha20_poly1305 :=
         if CRYPTO_USE_LIBSODIUM cfg
         then encrypt_aead_with_libsodium EN_CIMT_LIBSODIUM_CHACHA20_POLY1305
                crypto_aead_chacha20poly1305_ABYTES
         else fun _ _ _ => crypt_default in
       match interface_ ci, input with
       | Some i, Some inp =>
           match method i with
           | EN_CIMT_CIPHER =>
               match cipher_context_enc ci with
               | None => setup_errorno 0 CIPHER_DISABLED
               | Some c =>
                   match CRYPTO_GENERIC cfg with
                   | USE_OPENSSL => encrypt_aead_with_openssl i c inp ad tag_len
                   | USE_MBEDTLS => encrypt_aead_with_mbedtls c inp ad tag_len
                   | USE_NONE => chacha20_poly1305 inp ad tag_len
                   end
               end
           | EN_CIMT_LIBSODIUM_CHACHA20_POLY1305 => chacha20_poly1305 inp ad tag_len
           | EN_CIMT_LIBSODIUM_CHACHA20_POLY1305_IETF =>
               if CRYPTO_USE_LIBSODIUM cfg
               then encrypt_aead_with_libsodium EN_CIMT_LIBSODIUM_CHACHA20_POLY1305_IETF
                      crypto_aead_chacha20poly1305_IETF_ABYTES inp ad tag_len
               else crypt_default
           | EN_CIMT_LIBSODIUM_XCHACHA20_POLY1305_IETF =>
               if CRYPTO_USE_LIBSODIUM cfg && HAVE_crypto_aead_xchacha20poly1305_ietf cfg
               then encrypt_aead_with_libsodium EN_CIMT_LIBSODIUM_XCHACHA20_POLY1305_IETF
                      crypto_aead_xchacha20poly1305_ietf_ABYTES inp ad tag_len
               else crypt_default
           | _ => crypt_default
           end
       | _, _ => crypt_default
       end) w.

Definition decrypt_aead (input : option (list byte)) (ad : option (list byte))
    (tag_in : option (list byte)) (tag_len : Z) : M error_code_t.type :=
  ci <- this ;;
  if negb (initialized ci) then setup_errorno 0 NOT_INITED
  else if negb (is_aead ci) then return_ MUST_NOT_CALL_AEAD_API
  else fun w =>
    (if bad_crypt_params input w then setup_errorno (-1) INVALID_PARAM
     else
       pad_iv ;;
       let chacha20_poly1305 :=
         if CRYPTO_USE_LIBSODIUM cfg
         then decrypt_aead_with_libsodium EN_CIMT_LIBSODIUM_CHACHA20_POLY1305
                crypto_aead_chacha20poly1305_ABYTES
         else fun _ _ _ _ => crypt_default in
       match interface_ ci, input with
       | Some i, Some inp =>
           match method i with
           | EN_CIMT_INVALID => setup_errorno (-1) NOT_INITED
           | EN_CIMT_XXTEA => crypt_with_xxtea DECRYPT inp
           | EN_CIMT_CIPHER =>
               match cipher_context_dec ci with
               | None => setup_errorno 0 CIPHER_DISABLED
               | Some c =>
                   match CRYPTO_GENERIC cfg with
                   | USE_OPENSSL => decrypt_aead_with_openssl i c inp ad tag_in tag_len
                   | USE_MBEDTLS => decrypt_aead_with_mbedtls c inp ad tag_in tag_len
                   | USE_NONE => chacha20_poly1305 inp ad tag_in tag_len
                   end
               end
           | EN_CIMT_LIBSODIUM_CHACHA20_POLY1305 => chacha20_poly1305 inp ad tag_in tag_len
           | EN_CIMT_LIBSODIUM_CHACHA20_POLY1305_IETF =>
               if CRYPTO_USE_LIBSODIUM cfg
               then decrypt_aead_with_libsodium EN_CIMT_LIBSODIUM_CHACHA20_POLY1305_IETF
                      crypto_aead_chacha20poly1305_IETF_ABYTES inp ad tag_in tag_len
               else crypt_default
           | EN_CIMT_LIBSODIUM_XCHACHA20_POLY1305_IETF =>
               if CRYPTO_USE_LIBSODIUM cfg && HAVE_crypto_aead_xchacha20poly1305_ietf cfg
               then decrypt_aead_with_libsodium EN_CIMT_LIBSODIUM_XCHACHA20_POLY1305_IETF
                      crypto_aead_xchacha20poly1305_ietf_ABYTES inp ad tag_in tag_len
               else crypt_default
           | _ => crypt_default
           end
       | _, _ => crypt_default
       end) w.

(** *** What the call chains amount to

    The IV the crypto calls see, and the values the generic back-end
    reports along the chain of [crypt_with_openssl] and
    [crypt_with_mbedtls], as plain functions of the context they start
    from. *)

Definition padded_iv (ci : cipher) : list byte :=
  match interface_ ci with
  | None => iv_ ci
  | Some i =>
      if (method_value (method i) >=? method_value EN_CIMT_CIPHER)
         && (Z.land (flags i) EN_CIFT_VARIABLE_IV_LEN =? 0)
         && (size (iv_ ci) <? get_iv_size ci)
         && negb (0 =? get_iv_size ci)
      then resize0 (iv_ ci) (get_iv_size ci)
      else iv_ ci
  end.

Definition openssl_bind_iv (c0 : cipher_evp_t B) (iv : list byte) : call_ret (cipher_evp_t B) :=
  EVP_CipherInit_ex B c0 None None (Some iv) (-1).

Definition openssl_ready (d : direction) (i : cipher_interface_info_t)
    (c0 : cipher_evp_t B) (iv : list byte) : cipher_evp_t B :=
  let c1 := if negb (size iv =? 0) then c_ctx (openssl_bind_iv c0 iv) else c0 in
  if has_flag (flags i) (no_padding_flag d) then EVP_CIPHER_CTX_set_padding B c1 0 else c1.

Definition openssl_update (d : direction) (i : cipher_interface_info_t)
    (c0 : cipher_evp_t B) (iv input : list byte) : call_ret (cipher_evp_t B) :=
  EVP_CipherUpdate B (openssl_ready d i c0 iv) true (Some input) (to_int (size input)).

Definition openssl_final (d : direction) (i : cipher_interface_info_t)
    (c0 : cipher_evp_t B) (iv input : list byte) : call_ret (cipher_evp_t B) :=
  EVP_CipherFinal_ex B (c_ctx (openssl_update d i c0 iv input)).

(** [outl + finish_olen] *)
Definition openssl_produced (d : direction) (i : cipher_interface_info_t)
    (c0 : cipher_evp_t B) (iv input : list byte) : Z :=
  c_len (openssl_update d i c0 iv input)
  + (if has_flag (flags i) EN_CIFT_NO_FINISH then 0
     else c_len (openssl_final d i c0 iv input)).

Definition mbedtls_ready (d : direction) (i : cipher_interface_info_t)
    (c0 : cipher_evp_t B) : cipher_evp_t B :=
  if has_flag (flags i) (no_padding_flag d) && mbedtls_cipher_mode_is_cbc B c0
  then c_ctx (mbedtls_cipher_set_padding_mode B c0) else c0.

Definition mbedtls_crypt (d : direction) (i : cipher_interface_info_t)
    (c0 : cipher_evp_t B) (iv input : list byte) (olen0 : Z) : call_ret (cipher_evp_t B) :=
  mbedtls_cipher_crypt B (mbedtls_ready d i c0)
    (if size iv =? 0 then repeat x00 (Z.to_nat (MBEDTLS_MAX_IV_LENGTH B)) else iv)
    (size iv) input olen0.

End Session.

Arguments interface_ {B} _.
Arguments last_errorno_ {B} _.
Arguments cipher_kt_ {B} _.
Arguments cipher_context_enc {B} _.
Arguments cipher_context_dec {B} _.
Arguments libsodium_context_key {B} _.
Arguments xxtea_context_key {B} _.
Arguments iv_ {B} _.
Arguments self {B} _.
Arguments output {B} _.
Arguments olen {B} _.
Arguments tag {B} _.
Arguments calls {B} _.
Arguments Next {B A} _ _.
Arguments Return {B A} _ _.
Arguments run {B} _ _.
Arguments world_of {B} _.
Arguments initialized {B} _.
Arguments is_aead {B} _.
Arguments set_last_errno {B} _ _.
Arguments set_interface {B} _ _.
Arguments set_enc {B} _ _.
Arguments set_dec {B} _ _.
Arguments set_iv_ {B} _ _.
Arguments set_libsodium_key {B} _ _.
Arguments set_xxtea_key {B} _ _.
Arguments on_self {B} _ _.
Arguments olen_value {B} _.

(* ================================================================== *)
(** ** Vocabulary for the statements *)
(* ================================================================== *)

(** The caller's output buffer, its first [n] bytes, and the state in
    which the caller makes its next call on the same object with a fresh
    output buffer [buf], announced at its full size. *)
Definition buffer {B} (w : world B) : list byte :=
  match output w with Some b => b | None => [] end.


Definition next_call {B} (w : world B) (buf : list byte) : world B :=
  {| self := self w; output := Some buf; olen := Some (size buf); tag := tag w;
     calls := calls w |}.




(** *** What the generic library answers along one call

    The library calls one crypto call makes on a generic session, as
    functions of the context it starts from, and what it means that the
    library serves the call: every call of the chain reports success,
    each reports the number of bytes it wrote, and [out] is what was
    written, in order. *)

Section GenericChains.

Variable B : backend.
Variable i : cipher_interface_info_t.























End GenericChains.




(* ================================================================== *)
(** ** A small back-end to run the model on

    Every generic cipher is a null cipher with a 128-bit key, a 16-byte
    IV and block size 1; the stream primitive XORs the message with a
    keystream read off the key and the nonce; the detached AEAD
    primitive uses the same keystream and a tag that repeats the first
    key byte; XXTEA is stood in for by a byte-wise complement. *)
(* ================================================================== *)

Module Example.

Definition byte_xor (a b : byte) : byte :=
  let '(a0, (a1, (a2, (a3, (a4, (a5, (a6, a7))))))) := Byte.to_bits a in
  let '(b0, (b1, (b2, (b3, (b4, (b5, (b6, b7))))))) := Byte.to_bits b in
  Byte.of_bits (xorb a0 b0, (xorb a1 b1, (xorb a2 b2, (xorb a3 b3,
               (xorb a4 b4, (xorb a5 b5, (xorb a6 b6, xorb a7 b7))))))).

(** Byte [j] of the keystream for key [k], nonce [n] and counter [ic]. *)
Definition keystream_byte (k n : list byte) (ic : Z) (j : nat) : byte :=
  byte_xor (nth (j mod 32) k x00)
           (byte_xor (nth (j mod 8) n x00) (nth (Z.to_nat (ic mod 8)) k x00)).

Fixpoint xor_from (k n : list byte) (ic : Z) (j : nat) (m : list byte) : list byte :=
  match m with
  | [] => []
  | b :: m' => byte_xor b (keystream_byte k n ic j) :: xor_from k n ic (S j) m'
  end.

Definition ret_of {C} (c : C) (r : Z) (out : list byte) (tg : list byte) : call_ret C :=
  {| c_ret := r; c_ctx := c; c_out := out; c_len := size out; c_tag := tg; c_err := 0 |}.

Definition tag_of (k : list byte) : list byte := repeat (nth 0 k x00) 16.

Fixpoint bytes_eqb (a b : list byte) : bool :=
  match a, b with
  | [], [] => true
  | x :: a', y :: b' => Byte.eqb x y && bytes_eqb a' b'
  | _, _ => false
  end.

Definition complement (l : list byte) : list byte := map (byte_xor xff) l.

Definition toy : backend :=
  {| cipher_kt_t := string;
     cipher_evp_t := unit;
     EVP_get_cipherbyname := fun n => Some n;
     EVP_CIPHER_CTX_new := fun _ => Some tt;
     ERR_peek_error_after_new := 0;
     EVP_CipherInit_ex := fun c _ _ _ _ => ret_of c 1 [] [];
     EVP_CIPHER_CTX_iv_length := fun _ => 16;
     EVP_CIPHER_CTX_key_length := fun _ => 16;
     EVP_CIPHER_CTX_block_size := fun _ => 1;
     EVP_CIPHER_CTX_ctrl := fun c _ _ _ => ret_of c 1 [] (repeat x00 16);
     EVP_CIPHER_CTX_set_padding := fun c _ => c;
     EVP_CipherUpdate := fun c wr inp _ =>
       ret_of c 1 (if wr then match inp with Some l => l | None => [] end else []) [];
     EVP_CipherFinal_ex := fun c => ret_of c 1 [] [];
     MBEDTLS_MAX_IV_LENGTH := 16;
     mbedtls_cipher_info_from_string := fun n => n;
     malloc_cipher_evp_t := fun _ => Some tt;
     mbedtls_cipher_init := fun c => c;
     mbedtls_cipher_setup := fun c _ => ret_of c 0 [] [];
     mbedtls_cipher_get_iv_size := fun _ => 16;
     mbedtls_cipher_get_key_bitlen := fun _ => 128;
     mbedtls_cipher_get_block_size := fun _ => 1;
     mbedtls_cipher_mode_is_cbc := fun _ => false;
     mbedtls_cipher_setkey := fun c _ bits _ =>
       ret_of c (if bits =? 128 then 0 else (-24832)) [] [];
     mbedtls_cipher_set_padding_mode := fun c => ret_of c 0 [] [];
     mbedtls_cipher_crypt := fun c _ _ inp _ => ret_of c 0 inp [];
     mbedtls_cipher_auth_encrypt := fun c _ _ _ inp _ _ => ret_of c 0 inp (repeat x00 16);
     mbedtls_cipher_auth_decrypt := fun c _ _ _ inp _ _ _ => ret_of c 0 inp [];
     crypto_stream_xor_ic := fun _ m n ic k => ret_of tt 0 (xor_from k n ic 0 m) [];
     crypto_aead_encrypt_detached := fun _ m _ n k =>
       ret_of tt 0 (xor_from k n 0 0 m) (tag_of k);
     crypto_aead_decrypt_detached := fun _ c tg _ n k =>
       match tg with
       | Some t =>
           if bytes_eqb (firstn 16 t) (tag_of k)
           then ret_of tt 0 (xor_from k n 0 0 c) []
           else ret_of tt (-1) [] []
       | None => ret_of tt (-1) [] []
       end;
     xxtea_setup := fun secret => map byte_val secret;
     xxtea_encrypt := fun _ inp _ => ret_of tt 0 (complement inp) [];
     xxtea_decrypt := fun _ inp _ => ret_of tt 0 (complement inp) [] |}.

(** A build against OpenSSL 1.1 and a current libsodium. *)
Definition full_build : build_config :=
  {| CRYPTO_GENERIC := USE_OPENSSL;
     CRYPTO_USE_CHACHA20_WITH_CIPHER := true;
     CRYPTO_USE_CHACHA20_POLY1305_WITH_CIPHER := true;
     CRYPTO_USE_LIBSODIUM := true;
     HAVE_crypto_stream_xchacha20 := true;
     HAVE_crypto_stream_xsalsa20 := true;
     HAVE_crypto_aead_xchacha20poly1305_ietf := true;
     sizeof_libsodium_key := 32 |}.

(** A build against mbedTLS alone. *)
Definition mbedtls_build : build_config :=
  {| CRYPTO_GENERIC := USE_MBEDTLS;
     CRYPTO_USE_CHACHA20_WITH_CIPHER := false;
     CRYPTO_USE_CHACHA20_POLY1305_WITH_CIPHER := false;
     CRYPTO_USE_LIBSODIUM := false;
     HAVE_crypto_stream_xchacha20 := false;
     HAVE_crypto_stream_xsalsa20 := false;
     HAVE_crypto_aead_xchacha20poly1305_ietf := false;
     sizeof_libsodium_key := 32 |}.

(** A build against libsodium alone. *)
Definition sodium_build : build_config :=
  {| CRYPTO_GENERIC := USE_NONE;
     CRYPTO_USE_CHACHA20_WITH_CIPHER := false;
     CRYPTO_USE_CHACHA20_POLY1305_WITH_CIPHER := false;
     CRYPTO_USE_LIBSODIUM := true;
     HAVE_crypto_stream_xchacha20 := true;
     HAVE_crypto_stream_xsalsa20 := true;
     HAVE_crypto_aead_xchacha20poly1305_ietf := true;
     sizeof_libsodium_key := 32 |}.

(** A new object whose storage held zero bytes: null context pointers
    and zeroed key buffers. *)
Definition fresh : cipher toy :=
  cipher_new toy None None (repeat x00 32) xxtea_key_zero.

(** The object after [init(nm, ENCRYPT | DECRYPT)] on a fresh one. *)
Definition opened (cfg : build_config) (nm : string) : cipher toy :=
  self (snd (run (init cfg toy (Some nm) 3) (world_of fresh))).

(** The caller's buffers: [n] zero bytes of output announced as [n], and
    a [t]-byte tag buffer. *)
Definition with_buffers (ci : cipher toy) (n t : nat) : world toy :=
  {| self := ci; output := Some (repeat x00 n); olen := Some (Z.of_nat n);
     tag := Some (repeat x00 t); calls := [] |}.

(** The opened object after [set_key(key, 256)] and [set_iv(iv)]. *)
Definition keyed (cfg : build_config) (nm : string) (key iv : list byte) : cipher toy :=
  self (snd (run (set_iv cfg toy iv)
               (world_of (self (snd (run (set_key cfg toy key 256)
                                       (world_of (opened cfg nm)))))))).

(** Sixteen key bytes repeated twice, and IVs of 16, 8, 12 and 32 bytes. *)
Definition key32 : list byte :=
  [x00; x01; x02; x03; x04; x05; x06; x07; x08; x09; x0a; x0b; x0c; x0d; x0e; x0f;
   x00; x01; x02; x03; x04; x05; x06; x07; x08; x09; x0a; x0b; x0c; x0d; x0e; x0f].
Definition iv16 : list byte :=
  [x01; x00; x00; x00; x00; x00; x00; x00; x00; x01; x02; x03; x04; x05; x06; x07].
Definition iv8 : list byte := [x00; x01; x02; x03; x04; x05; x06; x07].
Definition iv12 : list byte :=
  [x07; x06; x05; x04; x03; x02; x01; x00; x08; x09; x0a; x0b].
Definition iv32 : list byte := iv16 ++ iv16.

End Example.

(* ================================================================== *)
(** ** [cipher::get_all_cipher_names] (lines 1340-1363) *)
(* ================================================================== *)

Section Listing.

Variable cfg : build_config.
Variable B : backend.

(** The [for] loop over the table from index [i] on; [ret] is the vector
    so far and [push_back] appends to it. *)
Fixpoint push_cipher_names (tbl : list cipher_interface_info_t) (ret : list string)
  : M B (list string) :=
  match tbl with
  | [] => pure B ret
  | d :: rest =>
      match name d with
      | None => pure B ret
      | Some n =>
          if method_value (method d) <? method_value EN_CIMT_INNER
          then push_cipher_names rest (ret ++ [n])
          else if method_eqb (method d) EN_CIMT_CIPHER
          then bind B (get_cipher_by_name cfg B (name d))
                 (fun kt => push_cipher_names rest
                              (if is_null kt then ret else ret ++ [n]))
          else if method_value (method d) >? method_value EN_CIMT_LIBSODIUM
          then push_cipher_names rest (ret ++ [n])
          else push_cipher_names rest ret
      end
  end.

(** [ret] is the function's static vector as the call finds it; the
    value is the vector the call leaves and returns a reference to. *)
Definition get_all_cipher_names (ret : list string) : M B (list string) :=
  match ret with
  | [] => push_cipher_names (supported_ciphers cfg) []
  | _ :: _ => pure B ret
  end.

End Listing.

(* ================================================================== *)
(** ** More vocabulary for the statements *)
(* ================================================================== *)

(** The value a step goes on with, and the state it leaves whichever way
    it ends. *)
Definition value_of {B A} (o : outcome B A) : option A :=
  match o with
  | Next _ a => Some a
  | Return _ _ => None
  end.

Definition state_after {B A} (o : outcome B A) : world B :=
  match o with
  | Next w _ => w
  | Return w _ => w
  end.

(** [m] takes every state to one that [R] relates it to. *)
Definition keeps {B A} (R : world B -> world B -> Prop) (m : M B A) : Prop :=
  forall w, R w (state_after (m w)).

(** Every [return] inside [m] carries a code of [S]. *)
Definition leaves_with {B A} (S : error_code_t.type -> Prop) (m : M B A) : Prop :=
  forall w w' r, m w = Return w' r -> S r.

(** Every code [m] ends with, by [return] or as its value, is one of [S]. *)
Definition yields {B} (S : error_code_t.type -> Prop) (m : M B error_code_t.type)
  : Prop :=
  forall w, S (fst (run m w)).

(** The entries the table loops visit: those before the terminator. *)
Fixpoint named_entries (tbl : list cipher_interface_info_t)
  : list (string * cipher_interface_info_t) :=
  match tbl with
  | [] => []
  | d :: rest =>
      match name d with
      | None => []
      | Some n => (n, d) :: named_entries rest
      end
  end.

(** Equality of table entries, field by field. *)
Definition option_string_eqb (a b : option string) : bool :=
  match a, b with
  | Some x, Some y => String.eqb x y
  | None, None => true
  | _, _ => false
  end.

Definition same_entry (a b : cipher_interface_info_t) : bool :=
  option_string_eqb (name a) (name b)
  && method_eqb (method a) (method b)
  && option_string_eqb (openssl_name a) (openssl_name b)
  && option_string_eqb (mbedtls_name a) (mbedtls_name b)
  && (flags a =? flags b).

(** Whether looking the entry [d] up by its own name gives [d] back. *)
Definition found_by_own_name (cfg : build_config) (d : cipher_interface_info_t) : bool :=
  match get_cipher_interface_by_name cfg (name d) with
  | Some d' => same_entry d' d
  | None => false
  end.

(** Whether the generic back-end knows the cipher of the entry [d], asked
    by the name the entry carries for that back-end. *)
Definition backend_has (cfg : build_config) (B : backend) (d : cipher_interface_info_t)
  : bool :=
  match CRYPTO_GENERIC cfg with
  | USE_OPENSSL =>
      match openssl_name d, name d with
      | Some o, _ => negb (is_null (EVP_get_cipherbyname B o))
      | None, Some n => negb (is_null (EVP_get_cipherbyname B n))
      | None, None => false
      end
  | USE_MBEDTLS => negb (is_null (mbedtls_cipher_info_from_string B (mbedtls_name d)))
  | USE_NONE => false
  end.

(** The entries whose names [get_all_cipher_names] reports. *)
Definition is_listed (cfg : build_config) (B : backend) (d : cipher_interface_info_t)
  : bool :=
  method_eqb (method d) EN_CIMT_XXTEA
  || (method_eqb (method d) EN_CIMT_CIPHER && backend_has cfg B d)
  || is_libsodium_method (method d).

(** What an operation on the session may leave alone: the descriptor,
    the resolved cipher, the two key buffers and the IV; the caller's
    buffers; one direction's context. A trace only ever grows. *)
Definition same_descriptor {B} (w w' : world B) : Prop :=
  interface_ (self w') = interface_ (self w)
  /\ cipher_kt_ (self w') = cipher_kt_ (self w).

Definition same_keys {B} (w w' : world B) : Prop :=
  libsodium_context_key (self w') = libsodium_context_key (self w)
  /\ xxtea_context_key (self w') = xxtea_context_key (self w).

Definition same_iv {B} (w w' : world B) : Prop := iv_ (self w') = iv_ (self w).

Definition same_buffers {B} (w w' : world B) : Prop :=
  output w' = output w /\ olen w' = olen w /\ tag w' = tag w.

Definition same_context {B} (d : direction) (w w' : world B) : Prop :=
  context_of B d (self w') = context_of B d (self w).

Definition trace_grows {B} (w w' : world B) : Prop :=
  exists l, calls w' = calls w ++ l.

(** The bit of [mode_t] that asks [init] for the context of a direction. *)
Definition mode_bit (d : direction) : Z :=
  match d with
  | ENCRYPT => mode_t.EN_CMODE_ENCRYPT
  | DECRYPT => mode_t.EN_CMODE_DECRYPT
  end.

Definition opposite (d : direction) : direction :=
  match d with
  | ENCRYPT => DECRYPT
  | DECRYPT => ENCRYPT
  end.

(** What a crypto call on direction [d] keeps: the fields above, the
    other direction's context, and the presence of its own. *)
Definition crypto_frame {B} (d : direction) (w w' : world B) : Prop :=
  same_descriptor w w' /\ same_keys w w' /\ same_iv w w'
  /\ same_context (opposite d) w w'
  /\ (is_null (context_of B d (self w)) = false ->
      is_null (context_of B d (self w')) = false)
  /\ trace_grows w w'.

(** The number of generic contexts the session holds. *)
Definition live_contexts {B} (ci : cipher B) : nat :=
  (if is_null (cipher_context_enc ci) then 0 else 1)
  + (if is_null (cipher_context_dec ci) then 0 else 1).

(** A session is in order when its descriptor, if any, is an entry of
    the table other than the terminator, a generic one only in a build
    with a generic back-end, and when it holds generic contexts only
    under a generic descriptor. *)
Definition in_order (cfg : build_config) {B} (ci : cipher B) : Prop :=
  match interface_ ci with
  | None => live_contexts ci = 0%nat
  | Some d =>
      In d (supported_ciphers cfg) /\ name d <> None
      /\ (method d = EN_CIMT_CIPHER -> CRYPTO_GENERIC cfg <> USE_NONE)
      /\ (method d <> EN_CIMT_CIPHER -> live_contexts ci = 0%nat)
  end.

(** The calls of the trace that release a generic context. *)
Definition is_free_call (c : backend_call) : bool :=
  match c with
  | CALL_generic FN_EVP_CIPHER_CTX_free => true
  | CALL_generic FN_free => true
  | _ => false
  end.

(** The codes a member function answers before it reaches a back-end. *)
Definition is_guard_code (r : error_code_t.type) : bool :=
  match r with
  | error_code_t.NOT_INITED | error_code_t.ALREADY_INITED
  | error_code_t.INVALID_PARAM | error_code_t.CIPHER_DISABLED
  | error_code_t.MUST_CALL_AEAD_API | error_code_t.MUST_NOT_CALL_AEAD_API
  | error_code_t.LIBSODIUM_OPERATION_TAG_LEN => true
  | _ => false
  end.

(** What a back-end chain answers is never one of them. *)
Definition past_guards (r : error_code_t.type) : Prop := is_guard_code r = false.

(** The state a crypto call hands to its back-end chain: the IV
    zero-padded to the size the method wants. *)
Definition padded (cfg : build_config) {B} (w : world B) : world B :=
  on_self (set_iv_ (padded_iv cfg B (self w))) w.

(** What a crypto call on direction [d] does to the session at most: it
    zero-pads the IV, works on the context of its direction and appends
    to the trace. *)
Definition crypto_effect (cfg : build_config) {B} (d : direction) (w w' : world B)
  : Prop :=
  same_descriptor w w' /\ same_keys w w'
  /\ same_context (opposite d) w w'
  /\ live_contexts (self w') = live_contexts (self w)
  /\ trace_grows w w'
  /\ (same_iv w w' \/ iv_ (self w') = padded_iv cfg B (self w)).

(** The contexts [init_with_cipher] hands over when it succeeds, one for
    each direction asked for, and what it leaves when it fails: each
    context null or as it found it. *)
Definition contexts_as_asked {B} (mode : Z) (ci : cipher B) : Prop :=
  is_null (cipher_context_enc ci) = negb (mode_has mode mode_t.EN_CMODE_ENCRYPT)
  /\ is_null (cipher_context_dec ci) = negb (mode_has mode mode_t.EN_CMODE_DECRYPT).

Definition contexts_given_up {B} (ci ci' : cipher B) : Prop :=
  (cipher_context_enc ci' = None \/ cipher_context_enc ci' = cipher_context_enc ci)
  /\ (cipher_context_dec ci' = None \/ cipher_context_dec ci' = cipher_context_dec ci).

(** The state after some calls that only the trace records. *)
Definition traced {B} (w : world B) (l : list backend_call) : world B :=
  {| self := self w; output := output w; olen := olen w; tag := tag w;
     calls := calls w ++ l |}.

(* ================================================================== *)
(** ** Facts about the counter decoding *)
(* ================================================================== *)

Import error_code_t.

Lemma byte_val_range b : 0 <= byte_val b < 256.
Proof.
  unfold byte_val. pose proof (Byte.to_N_bounded b). lia.
Qed.

Lemma deref_range p i : 0 <= deref p i < 256.
Proof. apply byte_val_range. Qed.

(** An [|] of two values whose bits do not overlap is their sum. *)
Lemma lor_disjoint_add a b n :
  0 <= n -> 0 <= a < 2 ^ n -> Z.lor a (b * 2 ^ n) = a + b * 2 ^ n.
Proof.
  intros Hn Ha.
  assert (Hl : Z.land a (b * 2 ^ n) = 0).
  { apply Z.bits_inj'. intros i Hi. rewrite Z.land_spec, Z.bits_0.
    destruct (Z.lt_ge_cases i n) as [Hlt | Hge].
    - rewrite Z.mul_pow2_bits_low by lia. apply andb_false_r.
    - replace a with (a mod 2 ^ n) by (apply Z.mod_small; lia).
      rewrite Z.mod_pow2_bits_high by lia. reflexivity. }
  rewrite <- Z.lxor_lor by exact Hl.
  symmetry. apply Z.add_nocarry_lxor. exact Hl.
Qed.

Lemma libsodium_get_block_value p :
  libsodium_get_block p =
  deref p 0 + deref p 1 * 2 ^ 8 + deref p 2 * 2 ^ 16 + deref p 3 * 2 ^ 24.
Proof.
  unfold libsodium_get_block.
  pose proof (deref_range p 0). pose proof (deref_range p 1).
  pose proof (deref_range p 2). pose proof (deref_range p 3).
  rewrite !Z.shiftl_mul_pow2 by lia.
  unfold to_u32, to_u64.
  rewrite (Z.mod_small (deref p 0)) by lia.
  rewrite (Z.mod_small (deref p 1)) by lia.
  rewrite (Z.mod_small (deref p 2)) by lia.
  rewrite (Z.mod_small (deref p 3)) by lia.
  rewrite (Z.mod_small (deref p 1 * 2 ^ 8)) by lia.
  rewrite (Z.mod_small (deref p 2 * 2 ^ 16)) by lia.
  rewrite (Z.mod_small (deref p 3 * 2 ^ 24)) by lia.
  rewrite (lor_disjoint_add (deref p 0)) by lia.
  rewrite (lor_disjoint_add (deref p 0 + _)) by lia.
  rewrite (lor_disjoint_add (deref p 0 + _ + _)) by lia.
  apply Z.mod_small. lia.
Qed.

Lemma libsodium_get_counter_value iv :
  libsodium_get_counter iv =
  libsodium_get_block iv + libsodium_get_block (skipn 4 iv) * 2 ^ 32.
Proof.
  unfold libsodium_get_counter. cbv zeta.
  rewrite !libsodium_get_block_value.
  pose proof (deref_range iv 0). pose proof (deref_range iv 1).
  pose proof (deref_range iv 2). pose proof (deref_range iv 3).
  pose proof (deref_range (skipn 4 iv) 0). pose proof (deref_range (skipn 4 iv) 1).
  pose proof (deref_range (skipn 4 iv) 2). pose proof (deref_range (skipn 4 iv) 3).
  set (lo := deref iv 0 + _ + _ + _) in *.
  set (hi := deref (skipn 4 iv) 0 + _ + _ + _) in *.
  assert (0 <= lo < 2 ^ 32) by (subst lo; lia).
  assert (0 <= hi < 2 ^ 32) by (subst hi; lia).
  unfold to_u32, to_u64.
  rewrite (Z.mod_small lo (2 ^ 32)) by lia.
  rewrite (Z.mod_small hi (2 ^ 32)) by lia.
  rewrite (Z.mod_small hi (2 ^ 64)) by lia.
  rewrite (Z.mod_small lo (2 ^ 64)) by lia.
  rewrite Z.shiftl_mul_pow2 by lia.
  rewrite (Z.mod_small (hi * 2 ^ 32)) by lia.
  rewrite Z.lor_comm. rewrite lor_disjoint_add by lia. reflexivity.
Qed.

(** The counter is the little-endian value of the first eight IV bytes. *)
Lemma libsodium_get_counter_little_endian iv :
  (8 <= length iv)%nat ->
  libsodium_get_counter iv = le_decode (firstn 8 iv).
Proof.
  intros H.
  do 8 (destruct iv as [|? iv]; [simpl in H; lia|]).
  rewrite libsodium_get_counter_value, !libsodium_get_block_value.
  unfold deref. cbn [skipn nth firstn le_decode]. lia.
Qed.

(* ================================================================== *)
(** ** Facts about the registry *)
(* ================================================================== *)

Ltac split_flags cfg :=
  destruct (CRYPTO_USE_CHACHA20_WITH_CIPHER cfg), (CRYPTO_USE_LIBSODIUM cfg),
    (HAVE_crypto_stream_xchacha20 cfg), (HAVE_crypto_stream_xsalsa20 cfg),
    (CRYPTO_USE_CHACHA20_POLY1305_WITH_CIPHER cfg),
    (HAVE_crypto_aead_xchacha20poly1305_ietf cfg).

(** Membership in a literal list, entry by entry. *)
Ltac find_entry := repeat (first [left; reflexivity | right]).

Lemma registry_methods cfg d :
  In d (supported_ciphers cfg) ->
  method d = EN_CIMT_INVALID \/ method d = EN_CIMT_XXTEA \/ method d = EN_CIMT_CIPHER
  \/ is_libsodium_method (method d) = true.
Proof.
  unfold supported_ciphers. split_flags cfg; simpl; intros H;
    repeat (destruct H as [<- | H]; [simpl; tauto|]); contradiction.
Qed.

Lemma registry_libsodium cfg d :
  In d (supported_ciphers cfg) ->
  is_libsodium_method (method d) = true ->
  CRYPTO_USE_LIBSODIUM cfg = true
  /\ (is_libsodium_stream (method d) = true -> flags d = EN_CIFT_NONE)
  /\ (is_libsodium_aead (method d) = true -> flags d = EN_CIFT_AEAD)
  /\ (method d = EN_CIMT_LIBSODIUM_XCHACHA20_POLY1305_IETF ->
      HAVE_crypto_aead_xchacha20poly1305_ietf cfg = true).
Proof.
  unfold supported_ciphers. split_flags cfg; simpl; intros H;
    repeat (destruct H as [<- | H];
            [simpl; intros Hx; try discriminate Hx;
             repeat split; intros; try reflexivity; discriminate|]);
    contradiction.
Qed.


Lemma no_entry_without_name cfg :
  get_cipher_interface_by_name cfg (Some ""%string) = None.
Proof.
  unfold get_cipher_interface_by_name, supported_ciphers.
  split_flags cfg; reflexivity.
Qed.

(** *** Case-insensitive matching *)

Lemma code_inj a b : code a = code b -> a = b.
Proof.
  unfold code. intros H. apply Nat2Z.inj in H.
  rewrite <- (ascii_nat_embedding a), <- (ascii_nat_embedding b). now rewrite H.
Qed.

Lemma code_range c : 0 <= code c < 256.
Proof. unfold code. pose proof (nat_ascii_bounded c). lia. Qed.

Lemma code_tolower c :
  code (tolower c) = if (65 <=? code c) && (code c <=? 90) then code c + 32 else code c.
Proof.
  unfold tolower. destruct ((65 <=? code c) && (code c <=? 90)) eqn:H; [|reflexivity].
  apply andb_prop in H. destruct H as [H1 H2].
  apply Z.leb_le in H1, H2. unfold code in *.
  rewrite nat_ascii_embedding by lia. lia.
Qed.

Lemma tolower_nonzero c : code c <> 0 -> code (tolower c) <> 0.
Proof.
  intros H. rewrite code_tolower. pose proof (code_range c).
  destruct ((65 <=? code c) && (code c <=? 90)); lia.
Qed.

Lemma cstr_nonzero s : Forall (fun c => code c <> 0) (cstr s).
Proof.
  induction s as [|c s IH]; simpl; [constructor|].
  destruct (code c =? 0) eqn:H; [constructor|].
  constructor; [now apply Z.eqb_neq|exact IH].
Qed.

Lemma strcasecmp_chars_zero a : forall b,
  Forall (fun c => code c <> 0) a -> Forall (fun c => code c <> 0) b ->
  (strcasecmp_chars a b = 0 <-> map tolower a = map tolower b).
Proof.
  induction a as [|c a IH]; intros [|d b] Ha Hb; simpl.
  - tauto.
  - inversion Hb; subst. pose proof (tolower_nonzero d). split; [lia|discriminate].
  - inversion Ha; subst. pose proof (tolower_nonzero c). split; [lia|discriminate].
  - inversion Ha; subst. inversion Hb; subst.
    destruct (code (tolower c) =? code (tolower d)) eqn:E.
    + apply Z.eqb_eq, code_inj in E. rewrite E, (IH b) by assumption.
      split; [intros ->; reflexivity|intros H; now injection H].
    + apply Z.eqb_neq in E. split; [lia|].
      intros H. injection H as H _. rewrite H in E. contradiction.
Qed.

(** The comparison yields 0 exactly when the two names agree once
    lowered. *)
Lemma strcasecmp_zero a b :
  UTIL_STRFUNC_STRCASE_CMP a b = 0 <-> map tolower (cstr a) = map tolower (cstr b).
Proof. apply strcasecmp_chars_zero; apply cstr_nonzero. Qed.

Lemma scan_supported_ciphers_first nm tbl d :
  scan_supported_ciphers nm tbl = Some d <-> first_match nm tbl d.
Proof.
  induction tbl as [|e tbl IH]; simpl.
  - split; [discriminate|]. intros (k & Hk & _). destruct k; discriminate.
  - destruct (name e) as [n|] eqn:Hn.
    + destruct (UTIL_STRFUNC_STRCASE_CMP nm n =? 0) eqn:E.
      * apply Z.eqb_eq in E. split.
        -- intros H. injection H as <-. exists 0%nat.
           split; [reflexivity|]. split; [exists n; auto|]. intros j e' Hj. lia.
        -- intros (k & Hk & Hm & Hb). destruct k as [|k]; [simpl in Hk; congruence|].
           destruct (Hb 0%nat e (Nat.lt_0_succ k) eq_refl) as (n' & Hn' & Hd).
           congruence.
      * apply Z.eqb_neq in E. rewrite IH. split.
        -- intros (k & Hk & Hm & Hb). exists (S k). split; [exact Hk|]. split; [exact Hm|].
           intros [|j] e' Hj He'.
           ++ simpl in He'. injection He' as <-. exists n. auto.
           ++ apply (Hb j); [lia|exact He'].
        -- intros (k & Hk & Hm & Hb). destruct k as [|k].
           ++ simpl in Hk. injection Hk as <-. destruct Hm as (n' & Hn' & Hz). congruence.
           ++ exists k. split; [exact Hk|]. split; [exact Hm|].
              intros j e' Hj He'. apply (Hb (S j)); [lia|exact He'].
    + split; [discriminate|]. intros (k & Hk & Hm & Hb). destruct k as [|k].
      * simpl in Hk. injection Hk as <-. destruct Hm as (n' & Hn' & _). congruence.
      * destruct (Hb 0%nat e (Nat.lt_0_succ k) eq_refl) as (n' & Hn' & _). congruence.
Qed.

Lemma chacha20_prefers_generic cfg nm :
  CRYPTO_USE_CHACHA20_WITH_CIPHER cfg = true ->
  CRYPTO_USE_LIBSODIUM cfg = true ->
  UTIL_STRFUNC_STRCASE_CMP nm "chacha20" = 0 ->
  get_cipher_interface_by_name cfg (Some nm)
  = Some (entry "chacha20" EN_CIMT_CIPHER None "CHACHA20" EN_CIFT_NONE)
  /\ In (entry "chacha20" EN_CIMT_LIBSODIUM_CHACHA20 None "CHACHA20" EN_CIFT_NONE)
        (supported_ciphers cfg).
Proof.
  intros Hc Hs Hnm.
  assert (Hne : forall n, map tolower (cstr n) <> map tolower (cstr "chacha20") ->
                          (UTIL_STRFUNC_STRCASE_CMP nm n =? 0) = false).
  { intros n Hn. apply Z.eqb_neq. intros H. apply Hn.
    apply strcasecmp_zero in H, Hnm. congruence. }
  split.
  - unfold get_cipher_interface_by_name, supported_ciphers. rewrite Hc.
    cbn [app when scan_supported_ciphers entry name].
    repeat (rewrite Hne by (vm_compute; discriminate)).
    apply Z.eqb_eq in Hnm. rewrite Hnm. reflexivity.
  - unfold supported_ciphers. rewrite Hc, Hs. simpl. find_entry.
Qed.

(* ================================================================== *)
(** ** Facts about the token helper *)
(* ================================================================== *)

Lemma skip_delims_spec s : forall b,
  exists pre rest,
    skip_delims s b = ((b + length pre)%nat, rest)
    /\ cstr s = pre ++ cstr rest
    /\ Forall (fun c => is_delim c = true) pre
    /\ (cstr rest = [] \/ exists c r, cstr rest = c :: r /\ is_delim c = false).
Proof.
  induction s as [|c s IH]; intros b.
  - exists [], EmptyString. simpl. rewrite Nat.add_0_r. auto.
  - simpl. destruct (code c =? 0) eqn:Hz.
    + exists [], (String c s). simpl. rewrite Hz, Nat.add_0_r. auto.
    + simpl. destruct (is_delim c) eqn:Hd.
      * destruct (IH (S b)) as (pre & rest & Hs & Hc & Hp & Hr).
        exists (c :: pre), rest. rewrite Hs. simpl.
        rewrite Nat.add_succ_r. split; [reflexivity|].
        split; [now rewrite Hc|]. split; [now constructor|exact Hr].
      * exists [], (String c s). simpl. rewrite Hz, Nat.add_0_r.
        split; [reflexivity|]. split; [reflexivity|]. split; [constructor|].
        right. exists c, (cstr s). auto.
Qed.

Lemma scan_token_spec s : forall e,
  exists tok post,
    scan_token s e = (e + length tok)%nat
    /\ cstr s = tok ++ post
    /\ Forall (fun c => is_delim c = false) tok
    /\ (post = [] \/ exists c r, post = c :: r /\ is_delim c = true).
Proof.
  induction s as [|c s IH]; intros e.
  - exists [], []. simpl. rewrite Nat.add_0_r. auto.
  - simpl. destruct (code c =? 0) eqn:Hz.
    + exists [], []. simpl. rewrite Nat.add_0_r. auto.
    + destruct (is_delim c) eqn:Hd.
      * exists [], (c :: cstr s). simpl. rewrite Nat.add_0_r.
        split; [reflexivity|]. split; [reflexivity|]. split; [constructor|].
        right. exists c, (cstr s). auto.
      * destruct (IH (S e)) as (tok & post & Hs & Hc & Hp & Hr).
        exists (c :: tok), post. rewrite Hs. simpl. rewrite Nat.add_succ_r.
        split; [reflexivity|]. split; [now rewrite Hc|].
        split; [now constructor|exact Hr].
Qed.

(* ================================================================== *)
(** ** Facts about the session *)
(* ================================================================== *)

Ltac break_ifs :=
  repeat match goal with
         | |- context [if ?b then _ else _] => destruct b eqn:?
         end.



(** The number of key bytes [set_key] copies. *)
Lemma copy_length_min (bits cap : Z) :
  0 <= cap ->
  (if bits >=? cap * 8 then cap else bits / 8) = Z.min (bits / 8) cap.
Proof.
  intros Hc. destruct (bits >=? cap * 8) eqn:E.
  - apply Z.geb_le in E.
    assert (cap <= bits / 8) by (apply Z.div_le_lower_bound; lia). lia.
  - rewrite Z.geb_leb in E. apply Z.leb_gt in E.
    assert (bits / 8 < cap) by (apply Z.div_lt_upper_bound; lia). lia.
Qed.

Lemma resize0_length v n :
  (length v <= Z.to_nat n)%nat -> length (resize0 v n) = Z.to_nat n.
Proof.
  intros H. unfold resize0. rewrite length_app, length_firstn, repeat_length. lia.
Qed.



Lemma has_stream_case_stream m :
  has_stream_case m = true -> is_libsodium_method m = true /\ is_libsodium_stream m = true.
Proof. destruct m; try discriminate; auto. Qed.

Section SessionFacts.

Variable cfg : build_config.
Variable B : backend.

(** The zero-padding step, as a function of the state. *)
Lemma pad_iv_spec (w : world B) :
  pad_iv cfg B w = Next (on_self (set_iv_ (padded_iv cfg B (self w))) w) tt.
Proof.
  destruct w as [ci out ol tg cl]. destruct ci as [itf err kt ce cd lk xk iv].
  unfold pad_iv, padded_iv, bind, this, on_self, set_iv_. cbn [self interface_ iv_].
  destruct itf as [i|]; [|reflexivity].
  destruct (method_value (method i) >=? method_value EN_CIMT_CIPHER); [|reflexivity].
  destruct (Z.land (flags i) EN_CIFT_VARIABLE_IV_LEN =? 0); [|reflexivity].
  cbn [andb].
  destruct (size iv <? _); [|reflexivity].
  cbn [andb].
  destruct (negb (0 =? _)); reflexivity.
Qed.





Lemma good_params_olen input (w : world B) :
  bad_crypt_params cfg B input w = false -> olen w = Some (olen_value w).
Proof.
  unfold bad_crypt_params, olen_value. destruct (olen w); [reflexivity|].
  cbn [is_null]. rewrite orb_true_r. cbn. discriminate.
Qed.




(** *** What the in-process paths do

    [encrypt]/[decrypt] on a Sodium stream method that has a case label. *)
Lemma stream_crypt_result d (w : world B) dr inp :
  interface_ (self w) = Some d ->
  has_stream_case (method d) = true ->
  flags d = EN_CIFT_NONE ->
  CRYPTO_USE_LIBSODIUM cfg = true ->
  bad_crypt_params cfg B (Some inp) w = false ->
  run (crypt cfg B dr (Some inp)) w =
  let iv := padded_iv cfg B (self w) in
  let key := libsodium_context_key (self w) in
  let nonce := skipn 8 iv in
  let ic := libsodium_counter_arg (method d) (libsodium_get_counter iv) in
  let r := crypto_stream_xor_ic B (method d) inp nonce ic key in
  (if c_ret r =? 0 then OK else LIBSODIUM_OPERATION,
   {| self := set_last_errno (c_ret r) (set_iv_ iv (self w));
      output := option_map (blit (c_out r)) (output w);
      olen := olen w; tag := tag w;
      calls := calls w ++ [CALL_stream_xor_ic (method d) inp nonce ic key] |}).
Proof.
  intros Hd Hm Hf Hs Hp.
  unfold crypt, run, bind, this, initialized, is_aead. cbv beta.
  rewrite Hd, Hf, Hs.
  destruct (method d) eqn:Em; try discriminate;
    cbn -[pad_iv bad_crypt_params crypt_with_libsodium_stream padded_iv skipn
          libsodium_get_counter to_u32];
    rewrite Hp, pad_iv_spec;
    unfold crypt_with_libsodium_stream, bind, this;
    change (Z.to_nat LIBSODIUM_COUNTER_SIZE) with 8%nat;
    cbn -[padded_iv libsodium_get_counter skipn to_u32];
    match goal with |- context [c_ret ?r =? 0] => destruct (c_ret r =? 0) end;
    reflexivity.
Qed.

Lemma stream_iv_long d (ci : cipher B) :
  interface_ ci = Some d ->
  has_stream_case (method d) = true ->
  flags d = EN_CIFT_NONE ->
  CRYPTO_USE_LIBSODIUM cfg = true ->
  (8 <= length (padded_iv cfg B ci))%nat.
Proof.
  intros Hd Hm Hf Hs. unfold padded_iv, get_iv_size. rewrite Hd, Hf, Hs.
  destruct (method d); try discriminate; cbn -[resize0 Z.ltb to_u32];
    match goal with
    | |- context [to_u32 ?k] =>
        change (to_u32 k) with k;
        destruct (Z.ltb_spec (size (iv_ ci)) k) as [Hlt | Hge]; unfold size in *;
        cbn [andb negb];
        [rewrite resize0_length by lia; lia | lia]
    end.
Qed.

(** The arguments of the XOR-IC call: the counter is the little-endian
    value of the first eight IV bytes, converted to the type of the
    primitive's parameter; the nonce is what follows the eight bytes. *)
Lemma stream_call_arguments d (w : world B) dr inp :
  interface_ (self w) = Some d ->
  has_stream_case (method d) = true ->
  flags d = EN_CIFT_NONE ->
  CRYPTO_USE_LIBSODIUM cfg = true ->
  bad_crypt_params cfg B (Some inp) w = false ->
  let iv := padded_iv cfg B (self w) in
  calls (snd (run (crypt cfg B dr (Some inp)) w))
  = calls w ++ [CALL_stream_xor_ic (method d) inp (skipn 8 iv)
                  (libsodium_counter_arg (method d) (le_decode (firstn 8 iv)))
                  (libsodium_context_key (self w))].
Proof.
  intros Hd Hm Hf Hs Hp. cbv zeta.
  rewrite (stream_crypt_result d w dr inp Hd Hm Hf Hs Hp). cbv zeta. cbn [snd calls].
  rewrite (libsodium_get_counter_little_endian (padded_iv cfg B (self w)))
    by (eapply stream_iv_long; eauto).
  reflexivity.
Qed.


Lemma aead_encrypt_result d (w : world B) inp ad tag_len :
  interface_ (self w) = Some d ->
  is_libsodium_aead (method d) = true ->
  flags d = EN_CIFT_AEAD ->
  CRYPTO_USE_LIBSODIUM cfg = true ->
  (method d = EN_CIMT_LIBSODIUM_XCHACHA20_POLY1305_IETF ->
   HAVE_crypto_aead_xchacha20poly1305_ietf cfg = true) ->
  bad_crypt_params cfg B (Some inp) w = false ->
  16 <= tag_len ->
  run (encrypt_aead cfg B (Some inp) ad tag_len) w =
  let iv := padded_iv cfg B (self w) in
  let key := libsodium_context_key (self w) in
  let r := crypto_aead_encrypt_detached B (method d) inp ad iv key in
  (if c_ret r =? 0 then OK else LIBSODIUM_OPERATION,
   {| self := set_last_errno (c_ret r) (set_iv_ iv (self w));
      output := option_map (blit (c_out r)) (output w);
      olen := olen w;
      tag := option_map (blit (c_tag r)) (tag w);
      calls := calls w ++ [CALL_aead_encrypt_detached (method d) inp ad iv key] |}).
Proof.
  intros Hd Hm Hf Hs Hx Hp Ht.
  assert (Hgt : (16 >? tag_len) = false) by (rewrite Z.gtb_ltb; apply Z.ltb_ge; lia).
  unfold encrypt_aead, run, bind, this, initialized, is_aead. cbv beta.
  rewrite Hd, Hf, Hs.
  destruct (method d) eqn:Em; try discriminate;
    try rewrite (Hx eq_refl);
    cbn -[pad_iv bad_crypt_params encrypt_aead_with_libsodium padded_iv];
    rewrite Hp, pad_iv_spec;
    unfold encrypt_aead_with_libsodium, bind, this,
      crypto_aead_chacha20poly1305_ABYTES, crypto_aead_chacha20poly1305_IETF_ABYTES,
      crypto_aead_xchacha20poly1305_ietf_ABYTES;
    rewrite Hgt;
    cbn -[padded_iv];
    match goal with |- context [c_ret ?r =? 0] => destruct (c_ret r =? 0) end;
    reflexivity.
Qed.

Lemma aead_decrypt_result d (w : world B) inp ad tag_in tag_len :
  interface_ (self w) = Some d ->
  is_libsodium_aead (method d) = true ->
  flags d = EN_CIFT_AEAD ->
  CRYPTO_USE_LIBSODIUM cfg = true ->
  (method d = EN_CIMT_LIBSODIUM_XCHACHA20_POLY1305_IETF ->
   HAVE_crypto_aead_xchacha20poly1305_ietf cfg = true) ->
  bad_crypt_params cfg B (Some inp) w = false ->
  16 <= tag_len ->
  run (decrypt_aead cfg B (Some inp) ad tag_in tag_len) w =
  let iv := padded_iv cfg B (self w) in
  let key := libsodium_context_key (self w) in
  let r := crypto_aead_decrypt_detached B (method d) inp tag_in ad iv key in
  (if c_ret r =? 0 then OK else LIBSODIUM_OPERATION,
   {| self := set_last_errno (c_ret r) (set_iv_ iv (self w));
      output := option_map (blit (c_out r)) (output w);
      olen := olen w; tag := tag w;
      calls := calls w ++ [CALL_aead_decrypt_detached (method d) inp tag_in ad iv key] |}).
Proof.
  intros Hd Hm Hf Hs Hx Hp Ht.
  assert (Hgt : (16 >? tag_len) = false) by (rewrite Z.gtb_ltb; apply Z.ltb_ge; lia).
  unfold decrypt_aead, run, bind, this, initialized, is_aead. cbv beta.
  rewrite Hd, Hf, Hs.
  destruct (method d) eqn:Em; try discriminate;
    try rewrite (Hx eq_refl);
    cbn -[pad_iv bad_crypt_params decrypt_aead_with_libsodium padded_iv];
    rewrite Hp, pad_iv_spec;
    unfold decrypt_aead_with_libsodium, bind, this,
      crypto_aead_chacha20poly1305_ABYTES, crypto_aead_chacha20poly1305_IETF_ABYTES,
      crypto_aead_xchacha20poly1305_ietf_ABYTES;
    rewrite Hgt;
    cbn -[padded_iv];
    match goal with |- context [c_ret ?r =? 0] => destruct (c_ret r =? 0) end;
    reflexivity.
Qed.


(** *** Round trips, one per in-process back-end *)




(** *** The length out-parameter *)

Lemma stream_keeps_olen d (w : world B) dr input :
  interface_ (self w) = Some d ->
  is_libsodium_stream (method d) = true ->
  olen (snd (run (crypt cfg B dr input) w)) = olen w.
Proof.
  intros Hd Hm.
  unfold crypt, run, bind, this. rewrite Hd.
  destruct (negb (initialized (self w))); [reflexivity|].
  destruct (is_aead (self w)); [reflexivity|].
  destruct (bad_crypt_params cfg B input w); [reflexivity|].
  rewrite pad_iv_spec.
  destruct input as [inp|]; [|reflexivity].
  destruct (method d); try discriminate;
    unfold crypt_with_libsodium_stream, crypt_default, bind, this;
    cbn; break_ifs; reflexivity.
Qed.

Lemma xxtea_sets_olen d (w : world B) dr inp :
  interface_ (self w) = Some d ->
  method d = EN_CIMT_XXTEA ->
  is_aead (self w) = false ->
  bad_crypt_params cfg B (Some inp) w = false ->
  olen (snd (run (crypt cfg B dr (Some inp)) w))
  = Some (c_len (match dr with
                 | ENCRYPT => xxtea_encrypt B (xxtea_context_key (self w)) inp (olen_value w)
                 | DECRYPT => xxtea_decrypt B (xxtea_context_key (self w)) inp (olen_value w)
                 end)).
Proof.
  intros Hd Hm Ha Hp.
  pose proof (good_params_olen _ _ Hp) as Ho.
  unfold crypt, run, bind, this, initialized. cbv beta. rewrite Hd, Hm, Ha.
  cbn [method_eqb method_value Z.eqb negb]. rewrite Hp, pad_iv_spec.
  destruct w as [ci out ol tg cl]. cbn in Ho.
  destruct ol as [v|]; [|discriminate].
  destruct dr; reflexivity.
Qed.

(** The generic chains store what the library reported. *)
Lemma openssl_chain_olen dr i c0 inp (w : world B) v :
  olen w = Some v ->
  run (crypt_with_openssl B dr i c0 inp) w = (OK, snd (run (crypt_with_openssl B dr i c0 inp) w)) ->
  olen (snd (run (crypt_with_openssl B dr i c0 inp) w))
  = Some (to_size_t (openssl_produced B dr i c0 (iv_ (self w)) inp)).
Proof.
  intros Ho.
  unfold openssl_produced, openssl_final, openssl_update, openssl_ready, openssl_bind_iv.
  unfold crypt_with_openssl, run, bind, this, set_context, call, modify, write_output,
    write_output_at, write_olen, setup_errorno, return_, pure, on_self.
  destruct w as [ci out ol tg cl]. cbn in Ho. subst ol.
  cbn [self iv_ set_iv_ output olen tag calls].
  destruct dr; cbn [no_padding_flag];
    (destruct (negb (size (iv_ ci) =? 0)); cbn -[to_size_t];
     [destruct (c_ret (EVP_CipherInit_ex B c0 None None (Some (iv_ ci)) (-1)) =? 0);
      cbn -[to_size_t]; [intros; discriminate|] |]);
    (match goal with
     | |- context [has_flag (flags i) ?f] =>
         destruct (has_flag (flags i) f); cbn -[to_size_t]
     end);
    (match goal with |- context [c_ret ?u =? 0] => destruct (c_ret u =? 0) end;
     cbn -[to_size_t]; [intros; discriminate|]);
    (destruct (has_flag (flags i) EN_CIFT_NO_FINISH); cbn -[to_size_t];
     [intros _; reflexivity|]);
    (match goal with |- context [c_ret ?u =? 0] => destruct (c_ret u =? 0) end;
     cbn -[to_size_t]; [intros; discriminate|intros _; reflexivity]).
Qed.

Lemma mbedtls_chain_olen dr i c0 inp (w : world B) v :
  olen w = Some v ->
  run (crypt_with_mbedtls B dr i c0 inp) w = (OK, snd (run (crypt_with_mbedtls B dr i c0 inp) w)) ->
  olen (snd (run (crypt_with_mbedtls B dr i c0 inp) w))
  = Some (c_len (mbedtls_crypt B dr i c0 (iv_ (self w)) inp v)).
Proof.
  intros Ho.
  unfold mbedtls_crypt, mbedtls_ready.
  unfold crypt_with_mbedtls, run, bind, this, set_context, call, modify, write_output,
    write_olen, setup_errorno, return_, pure, on_self.
  destruct w as [ci out ol tg cl]. cbn in Ho. subst ol.
  cbn [self iv_ set_iv_ output olen tag calls olen_value].
  destruct dr; cbn [no_padding_flag];
    match goal with
    | |- context [has_flag (flags i) ?f && mbedtls_cipher_mode_is_cbc B c0] =>
        destruct (has_flag (flags i) f && mbedtls_cipher_mode_is_cbc B c0)
    end; cbn.
  all: try (match goal with
            | |- context [c_ret (mbedtls_cipher_set_padding_mode B ?c) =? 0] =>
                destruct (c_ret (mbedtls_cipher_set_padding_mode B c) =? 0); cbn;
                [|intros; discriminate]
            end).
  all: match goal with |- context [negb (c_ret ?u =? 0)] => destruct (c_ret u =? 0) end;
    cbn; [intros _; reflexivity|intros; discriminate].
Qed.

(** Where [encrypt]/[decrypt] send a session of the generic method. *)
Lemma generic_crypt_dispatch d (w : world B) dr inp c0 :
  interface_ (self w) = Some d ->
  method d = EN_CIMT_CIPHER ->
  context_of B dr (self w) = Some c0 ->
  is_aead (self w) = false ->
  bad_crypt_params cfg B (Some inp) w = false ->
  run (crypt cfg B dr (Some inp)) w =
  let w1 := on_self (set_iv_ (padded_iv cfg B (self w))) w in
  match CRYPTO_GENERIC cfg with
  | USE_OPENSSL => run (crypt_with_openssl B dr d c0 inp) w1
  | USE_MBEDTLS => run (crypt_with_mbedtls B dr d c0 inp) w1
  | USE_NONE =>
      run (if CRYPTO_USE_LIBSODIUM cfg
           then crypt_with_libsodium_stream B EN_CIMT_LIBSODIUM_CHACHA20 inp
           else crypt_default B) w1
  end.
Proof.
  intros Hd Hm Hc Ha Hp.
  unfold crypt, run, bind, this, initialized. cbv beta. rewrite Hd, Hm, Ha.
  cbn [method_eqb method_value Z.eqb negb]. rewrite Hp, pad_iv_spec, Hc.
  cbv zeta. destruct (CRYPTO_GENERIC cfg); reflexivity.
Qed.

Lemma generic_sets_olen d (w : world B) dr inp c0 :
  interface_ (self w) = Some d ->
  method d = EN_CIMT_CIPHER ->
  context_of B dr (self w) = Some c0 ->
  fst (run (crypt cfg B dr (Some inp)) w) = OK ->
  (CRYPTO_GENERIC cfg = USE_OPENSSL ->
   olen (snd (run (crypt cfg B dr (Some inp)) w))
   = Some (to_size_t (openssl_produced B dr d c0 (padded_iv cfg B (self w)) inp)))
  /\ (CRYPTO_GENERIC cfg = USE_MBEDTLS ->
      olen (snd (run (crypt cfg B dr (Some inp)) w))
      = Some (c_len (mbedtls_crypt B dr d c0 (padded_iv cfg B (self w)) inp (olen_value w)))).
Proof.
  intros Hd Hm Hc Hok.
  destruct (is_aead (self w)) eqn:Ha.
  { revert Hok. unfold crypt, run, bind, this, initialized. cbv beta. rewrite Hd, Hm, Ha.
    cbn. discriminate. }
  destruct (bad_crypt_params cfg B (Some inp) w) eqn:Hp.
  { revert Hok. unfold crypt, run, bind, this, initialized. cbv beta. rewrite Hd, Hm, Ha.
    cbn [method_eqb method_value Z.eqb negb]. rewrite Hp. cbn. discriminate. }
  pose proof (good_params_olen _ _ Hp) as Ho.
  rewrite (generic_crypt_dispatch d w dr inp c0 Hd Hm Hc Ha Hp) in *. cbv zeta in *.
  set (w1 := on_self (set_iv_ (padded_iv cfg B (self w))) w) in *.
  assert (Ho1 : olen w1 = Some (olen_value w)) by exact Ho.
  assert (Hiv : iv_ (self w1) = padded_iv cfg B (self w))
    by (unfold w1; destruct w as [ci ? ? ? ?]; destruct ci; reflexivity).
  split; intros Hg; rewrite Hg in *.
  - rewrite <- Hiv. apply (openssl_chain_olen dr d c0 inp w1 _ Ho1).
    rewrite <- Hok. apply surjective_pairing.
  - rewrite <- Hiv. apply (mbedtls_chain_olen dr d c0 inp w1 _ Ho1).
    rewrite <- Hok. apply surjective_pairing.
Qed.


End SessionFacts.

(* ================================================================== *)
(** ** The small back-end obeys the primitives' laws *)
(* ================================================================== *)







(* ================================================================== *)
(** ** The claims *)
(* ================================================================== *)

(** Closed facts about the small back-end, conjunct by conjunct. *)
Ltac by_evaluation :=
  cbv zeta;
  repeat match goal with |- _ /\ _ => split end;
  first [ vm_compute; reflexivity
        | let H := fresh in intros H; vm_compute in H; discriminate H ].

(** C2. On an initialized session whose descriptor carries the AEAD flag,
    [encrypt] and [decrypt] return [MUST_CALL_AEAD_API]; on one whose
    descriptor lacks it, [encrypt_aead] and [decrypt_aead] return
    [MUST_NOT_CALL_AEAD_API]. In both cases the state is returned as it
    was: no back-end call is added to the trace, no context, buffer or
    error number changes. *)
Theorem aead_api_guard (cfg : build_config) (B : backend) (w : world B)
    (d : cipher_interface_info_t) (input ad tag_in : option (list byte)) (tag_len : Z) :
  interface_ (self w) = Some d ->
  method d <> EN_CIMT_INVALID ->
  (has_flag (flags d) EN_CIFT_AEAD = true ->
   run (encrypt cfg B input) w = (MUST_CALL_AEAD_API, w)
   /\ run (decrypt cfg B input) w = (MUST_CALL_AEAD_API, w))
  /\ (has_flag (flags d) EN_CIFT_AEAD = false ->
      run (encrypt_aead cfg B input ad tag_len) w = (MUST_NOT_CALL_AEAD_API, w)
      /\ run (decrypt_aead cfg B input ad tag_in tag_len) w = (MUST_NOT_CALL_AEAD_API, w)).
Proof.
  intros Hd Hm.
  assert (Hi : initialized (self w) = true).
  { unfold initialized. rewrite Hd. destruct (method d); try reflexivity. congruence. }
  split; intros Ha.
  - unfold encrypt, decrypt, crypt, run, bind, this, return_, is_aead.
    rewrite Hi, Hd, Ha. cbn. auto.
  - unfold encrypt_aead, decrypt_aead, run, bind, this, return_, is_aead.
    rewrite Hi, Hd, Ha. cbn. auto.
Qed.

(** C2 on the small back-end: [encrypt] on aes-256-gcm, [encrypt_aead] on
    xxtea; the trace stays empty. *)
Lemma aead_api_guard_witness :
  let gcm := Example.with_buffers (Example.opened Example.full_build "aes-256-gcm") 8 16 in
  let block := Example.with_buffers (Example.opened Example.full_build "xxtea") 8 16 in
  run (encrypt Example.full_build Example.toy (Some [x61])) gcm = (MUST_CALL_AEAD_API, gcm)
  /\ run (encrypt_aead Example.full_build Example.toy (Some [x61]) None 16) block
     = (MUST_NOT_CALL_AEAD_API, block)
  /\ calls gcm = [] /\ calls block = [].
Proof.
  cbv zeta.
  destruct (aead_api_guard Example.full_build Example.toy
              (Example.with_buffers (Example.opened Example.full_build "aes-256-gcm") 8 16)
              (entry "aes-256-gcm" EN_CIMT_CIPHER None "AES-256-GCM" AEAD_VARIABLE_IV)
              (Some [x61]) None None 16 eq_refl ltac:(discriminate)) as (H1 & _).
  destruct (aead_api_guard Example.full_build Example.toy
              (Example.with_buffers (Example.opened Example.full_build "xxtea") 8 16)
              (entry "xxtea" EN_CIMT_XXTEA None "xxtea" EN_CIFT_NONE)
              (Some [x61]) None None 16 eq_refl ltac:(discriminate)) as (_ & H2).
  destruct (H1 eq_refl) as (H1' & _). destruct (H2 eq_refl) as (H2' & _).
  split; [exact H1'|]. split; [exact H2'|]. split; reflexivity.
Defined.







(** C5 (as amended). On an uninitialized session, whatever the mode,
    [init] with a null name returns [INVALID_PARAM] and [init] with a
    zero-length name returns [CIPHER_NOT_SUPPORT]; both set the error
    number to -1, reach no back-end and leave the session uninitialized. *)
Theorem init_without_a_name (cfg : build_config) (B : backend) (w : world B) (mode : Z) :
  initialized (self w) = false ->
  run (init cfg B None mode) w = (INVALID_PARAM, on_self (set_last_errno (-1)) w)
  /\ run (init cfg B (Some ""%string) mode) w
     = (CIPHER_NOT_SUPPORT, on_self (set_last_errno (-1)) w)
  /\ initialized (self (on_self (set_last_errno (-1)) w)) = false
  /\ calls (on_self (set_last_errno (-1)) w) = calls w.
Proof.
  intros Hi. unfold init, run, bind, this. rewrite Hi.
  rewrite no_entry_without_name. cbn.
  repeat split; try reflexivity. exact Hi.
Qed.

(** C5 on a fresh object of the small back-end. *)
Lemma init_without_a_name_witness :
  let w := world_of Example.fresh in
  run (init Example.full_build Example.toy None 3) w
  = (INVALID_PARAM, on_self (set_last_errno (-1)) w)
  /\ run (init Example.full_build Example.toy (Some ""%string) 3) w
     = (CIPHER_NOT_SUPPORT, on_self (set_last_errno (-1)) w).
Proof.
  cbv zeta.
  destruct (init_without_a_name Example.full_build Example.toy
              (world_of Example.fresh) 3 eq_refl) as (H1 & H2 & _).
  split; [exact H1|exact H2].
Defined.

(** C5, as stated in the specification, fails on the zero-length name:
    [init("")] on a fresh object returns [CIPHER_NOT_SUPPORT]. *)
Lemma init_empty_name_not_invalid_param :
  let w := world_of Example.fresh in
  initialized (self w) = false
  /\ String.length "" = 0%nat
  /\ fst (run (init Example.full_build Example.toy (Some ""%string) 3) w) = CIPHER_NOT_SUPPORT
  /\ fst (run (init Example.full_build Example.toy (Some ""%string) 3) w) <> INVALID_PARAM
  /\ initialized (self (snd (run (init Example.full_build Example.toy (Some ""%string) 3) w)))
     = false.
Proof. by_evaluation. Qed.

(** C6 (as amended). On an initialized session:
    - generic method, build against the OpenSSL family: [set_key] with
      [key_bits] below [key_bits()] returns [INVALID_PARAM];
    - generic method, build against mbedTLS: the session compares
      nothing itself. It hands the key to [mbedtls_cipher_setkey] once
      for each context it holds, the encryption context first, and
      these are its only back-end calls; the value the last of them
      returned (0 when no context is held) becomes the error number, and
      [set_key] returns [CIPHER_OPERATION] when that value is not 0 and
      [OK] when it is, never [INVALID_PARAM];
    - xxtea: [set_key] returns [OK] and hands [xxtea_setup] a zeroed
      16-byte secret whose first [min(key_bits/8, 16)] bytes are the
      key's;
    - Sodium methods: [set_key] returns [OK] and copies the first
      [min(key_bits/8, sizeof key buffer)] bytes of the key over the
      start of the key buffer. *)
Theorem set_key_checks (cfg : build_config) (B : backend) (w : world B)
    (d : cipher_interface_info_t) (key : list byte) (key_bitlen : Z) :
  interface_ (self w) = Some d ->
  (method d = EN_CIMT_CIPHER -> CRYPTO_GENERIC cfg = USE_OPENSSL ->
   key_bitlen < get_key_bits cfg B (self w) ->
   run (set_key cfg B key key_bitlen) w
   = (INVALID_PARAM, on_self (set_last_errno (-1)) w))
  /\ (method d = EN_CIMT_CIPHER -> CRYPTO_GENERIC cfg = USE_MBEDTLS ->
      let rw := run (set_key cfg B key key_bitlen) w in
      let enc := option_map (fun c => mbedtls_cipher_setkey B c key (to_int key_bitlen) 1)
                   (cipher_context_enc (self w)) in
      let dec := option_map (fun c => mbedtls_cipher_setkey B c key (to_int key_bitlen) 0)
                   (cipher_context_dec (self w)) in
      let res := match dec, enc with
                 | Some r, _ => c_ret r
                 | None, Some r => c_ret r
                 | None, None => 0
                 end in
      let asked (r : option (call_ret (cipher_evp_t B))) : list backend_call :=
        match r with
        | Some _ => [CALL_generic FN_mbedtls_cipher_setkey]
        | None => []
        end in
      fst rw = (if res =? 0 then OK else CIPHER_OPERATION)
      /\ fst rw <> INVALID_PARAM
      /\ last_errorno_ (self (snd rw)) = res
      /\ calls (snd rw) = calls w ++ asked enc ++ asked dec
      /\ cipher_context_enc (self (snd rw)) = option_map c_ctx enc
      /\ cipher_context_dec (self (snd rw)) = option_map c_ctx dec)
  /\ (method d = EN_CIMT_XXTEA ->
      let secret := memcpy (repeat x00 16) key (Z.min (key_bitlen / 8) 16) in
      run (set_key cfg B key key_bitlen) w
      = (OK, {| self := set_last_errno 0 (set_xxtea_key (xxtea_setup B secret) (self w));
                output := output w; olen := olen w; tag := tag w;
                calls := calls w ++ [CALL_xxtea_setup secret] |}))
  /\ (is_libsodium_method (method d) = true -> 0 <= sizeof_libsodium_key cfg ->
      let n := Z.min (key_bitlen / 8) (sizeof_libsodium_key cfg) in
      run (set_key cfg B key key_bitlen) w
      = (OK, on_self (fun ci => set_last_errno 0
                         (set_libsodium_key (memcpy (libsodium_context_key ci) key n) ci))
                     w)).
Proof.
  intros Hd. unfold set_key, run, bind, this. rewrite Hd.
  split; [|split; [|split]].
  - intros Hm Hg Hlt. rewrite Hm. unfold set_key_with_cipher, bind, this. rewrite Hg.
    apply Z.gtb_lt in Hlt. rewrite Hlt. reflexivity.
  - intros Hm Hg. rewrite Hm. unfold set_key_with_cipher, bind, this. rewrite Hg.
    destruct w as [ci out ol tg cl]. destruct ci as [itf err kt ce cd lk xk iv].
    cbn [self cipher_context_enc cipher_context_dec].
    destruct ce as [ce|], cd as [cd|]; cbn -[Z.eqb to_int];
      match goal with
      | |- context [negb (?x =? 0)] => destruct (x =? 0); cbn -[Z.eqb to_int]
      end;
      repeat split; try reflexivity; try discriminate;
      rewrite <- ?app_assoc, ?app_nil_r; reflexivity.
  - intros Hm. rewrite Hm. cbv zeta.
    rewrite <- (copy_length_min key_bitlen 16) by lia.
    change (size (repeat x00 (Z.to_nat (4 * 4)))) with 16.
    change (Z.to_nat (4 * 4)) with 16%nat.
    destruct (key_bitlen >=? 16 * 8); reflexivity.
  - intros Hm Hs. cbv zeta.
    rewrite <- (copy_length_min key_bitlen (sizeof_libsodium_key cfg)) by lia.
    destruct (method d); try discriminate;
      destruct (key_bitlen >=? sizeof_libsodium_key cfg * 8); reflexivity.
Qed.

(** C6 on the small back-end: a one-byte key offered to aes-128-cfb
    under the OpenSSL family and under mbedTLS, where the library's
    answer -24832 becomes the error number, and a four-byte key stored
    by salsa20. *)
Lemma set_key_checks_witness :
  let generic := world_of (Example.opened Example.full_build "aes-128-cfb") in
  let other := world_of (Example.opened Example.mbedtls_build "aes-128-cfb") in
  let stream := world_of (Example.opened Example.full_build "salsa20") in
  get_key_bits Example.full_build Example.toy (self generic) = 128
  /\ fst (run (set_key Example.full_build Example.toy [x2a] 8) generic) = INVALID_PARAM
  /\ fst (run (set_key Example.full_build Example.toy [x01; x02; x03; x04] 32) stream) = OK
  /\ libsodium_context_key
       (self (snd (run (set_key Example.full_build Example.toy [x01; x02; x03; x04] 32)
                     stream)))
     = [x01; x02; x03; x04] ++ repeat x00 28
  /\ fst (run (set_key Example.mbedtls_build Example.toy [x2a] 8) other) = CIPHER_OPERATION
  /\ last_errorno_ (self (snd (run (set_key Example.mbedtls_build Example.toy [x2a] 8)
                                 other))) = -24832
  /\ calls (snd (run (set_key Example.mbedtls_build Example.toy [x2a] 8) other))
     = calls other ++ [CALL_generic FN_mbedtls_cipher_setkey;
                       CALL_generic FN_mbedtls_cipher_setkey].
Proof.
  cbv zeta.
  destruct (set_key_checks Example.full_build Example.toy
              (world_of (Example.opened Example.full_build "aes-128-cfb"))
              (entry "aes-128-cfb" EN_CIMT_CIPHER None "AES-128-CFB128" EN_CIFT_NONE)
              [x2a] 8 eq_refl) as (H1 & _).
  destruct (set_key_checks Example.full_build Example.toy
              (world_of (Example.opened Example.full_build "salsa20"))
              (entry "salsa20" EN_CIMT_LIBSODIUM_SALSA20 None "SALSA20" EN_CIFT_NONE)
              [x01; x02; x03; x04] 32 eq_refl) as (_ & _ & _ & H4).
  destruct (set_key_checks Example.mbedtls_build Example.toy
              (world_of (Example.opened Example.mbedtls_build "aes-128-cfb"))
              (entry "aes-128-cfb" EN_CIMT_CIPHER None "AES-128-CFB128" EN_CIFT_NONE)
              [x2a] 8 eq_refl) as (_ & H2 & _).
  specialize (H1 eq_refl eq_refl ltac:(vm_compute; reflexivity)).
  specialize (H4 eq_refl ltac:(vm_compute; discriminate)). cbv zeta in H4.
  specialize (H2 eq_refl eq_refl). cbv zeta in H2.
  destruct H2 as (M1 & _ & M2 & M3 & _).
  split; [reflexivity|]. rewrite H1, H4.
  split; [reflexivity|]. split; [reflexivity|]. split; [reflexivity|].
  split; [exact M1|]. split; [exact M2|exact M3].
Defined.

(** C6, as stated in the specification, fails in a build against
    mbedTLS: on aes-128-cfb, whose [key_bits()] is 128, [set_key] with
    8 key bits returns [CIPHER_OPERATION]. *)
Lemma mbedtls_set_key_short_key :
  let w := world_of (Example.opened Example.mbedtls_build "aes-128-cfb") in
  initialized (self w) = true
  /\ option_map method (interface_ (self w)) = Some EN_CIMT_CIPHER
  /\ get_key_bits Example.mbedtls_build Example.toy (self w) = 128
  /\ 8 < get_key_bits Example.mbedtls_build Example.toy (self w)
  /\ fst (run (set_key Example.mbedtls_build Example.toy [x2a] 8) w) = CIPHER_OPERATION
  /\ fst (run (set_key Example.mbedtls_build Example.toy [x2a] 8) w) <> INVALID_PARAM.
Proof. by_evaluation. Qed.

(** C7. The failing input: a session opened on "xchacha20" (libsodium
    build with [crypto_stream_xchacha20]) with a 256-bit key and a
    32-byte IV. [encrypt] and [decrypt] of a two-byte message return
    [NOT_INITED], make no back-end call and leave the output as it was:
    the method has no case label, so no counter and no nonce reach the
    XOR-IC primitive. On "salsa20", which has one, the same message
    produces one XOR-IC call whose counter is the little-endian value of
    IV bytes 0..8 and whose nonce is IV bytes 8.. *)
Theorem xchacha20_has_no_stream_case :
  let ci := Example.keyed Example.full_build "xchacha20" Example.key32 Example.iv32 in
  let w := Example.with_buffers ci 8 0 in
  let ok := Example.with_buffers
              (Example.keyed Example.full_build "salsa20" Example.key32 Example.iv16) 8 0 in
  option_map method (interface_ ci) = Some EN_CIMT_LIBSODIUM_XCHACHA20
  /\ is_libsodium_stream EN_CIMT_LIBSODIUM_XCHACHA20 = true
  /\ iv_ ci = Example.iv32
  /\ get_iv_size Example.full_build Example.toy ci = 32
  /\ fst (run (encrypt Example.full_build Example.toy (Some [x61; x62])) w) = NOT_INITED
  /\ calls (snd (run (encrypt Example.full_build Example.toy (Some [x61; x62])) w)) = []
  /\ buffer (snd (run (encrypt Example.full_build Example.toy (Some [x61; x62])) w))
     = repeat x00 8
  /\ fst (run (decrypt Example.full_build Example.toy (Some [x61; x62])) w) = NOT_INITED
  /\ calls (snd (run (decrypt Example.full_build Example.toy (Some [x61; x62])) w)) = []
  /\ fst (run (encrypt Example.full_build Example.toy (Some [x61; x62])) ok) = OK
  /\ calls (snd (run (encrypt Example.full_build Example.toy (Some [x61; x62])) ok))
     = [CALL_stream_xor_ic EN_CIMT_LIBSODIUM_SALSA20 [x61; x62]
          (skipn 8 Example.iv16) (le_decode (firstn 8 Example.iv16)) Example.key32].
Proof. by_evaluation. Qed.

(** C8. Name resolution returns an entry exactly when that entry is the
    first one, in table order, whose name equals the requested name up to
    the case of its letters (the comparison is 0 exactly when the two
    names agree once lowered); and when both the generic chacha20 entry
    and the Sodium chacha20 entry are compiled in, "chacha20" in any
    spelling resolves to the generic one, the Sodium entry being in the
    table as well. *)
Theorem lookup_first_match (cfg : build_config) (nm : string) :
  (forall d, get_cipher_interface_by_name cfg (Some nm) = Some d
             <-> first_match nm (supported_ciphers cfg) d)
  /\ (forall n, UTIL_STRFUNC_STRCASE_CMP nm n = 0
                <-> map tolower (cstr nm) = map tolower (cstr n))
  /\ (CRYPTO_USE_CHACHA20_WITH_CIPHER cfg = true ->
      CRYPTO_USE_LIBSODIUM cfg = true ->
      UTIL_STRFUNC_STRCASE_CMP nm "chacha20" = 0 ->
      get_cipher_interface_by_name cfg (Some nm)
      = Some (entry "chacha20" EN_CIMT_CIPHER None "CHACHA20" EN_CIFT_NONE)
      /\ In (entry "chacha20" EN_CIMT_LIBSODIUM_CHACHA20 None "CHACHA20" EN_CIFT_NONE)
            (supported_ciphers cfg)).
Proof.
  split; [|split].
  - intros d. apply scan_supported_ciphers_first.
  - intros n. apply strcasecmp_zero.
  - apply chacha20_prefers_generic.
Qed.

(** C8 on the full build: "ChaCha20" resolves to the generic entry. *)
Lemma lookup_first_match_witness :
  option_map method (get_cipher_interface_by_name Example.full_build (Some "ChaCha20"%string))
  = Some EN_CIMT_CIPHER
  /\ option_map method
       (get_cipher_interface_by_name Example.sodium_build (Some "ChaCha20"%string))
     = Some EN_CIMT_LIBSODIUM_CHACHA20.
Proof.
  destruct (lookup_first_match Example.full_build "ChaCha20") as (_ & _ & H).
  destruct (H eq_refl eq_refl eq_refl) as (H1 & _).
  rewrite H1. split; reflexivity.
Defined.

(** C9. [ciphertok] returns (null, null) on a null pointer and on a
    string that holds delimiters only; otherwise the string is a run of
    delimiters, then a non-empty run of non-delimiters that ends at the
    end of the string or at a delimiter, and the pointers returned are
    the two ends of that run. *)
Theorem ciphertok_first_token (s : string) :
  ciphertok None = (None, None)
  /\ ((Forall (fun c => is_delim c = true) (cstr s)
       /\ ciphertok (Some s) = (None, None))
      \/ exists pre tok post,
           cstr s = pre ++ tok ++ post
           /\ Forall (fun c => is_delim c = true) pre
           /\ tok <> []
           /\ Forall (fun c => is_delim c = false) tok
           /\ (post = [] \/ exists c r, post = c :: r /\ is_delim c = true)
           /\ ciphertok (Some s)
              = (Some (length pre), Some (length pre + length tok)%nat)).
Proof.
  split; [reflexivity|].
  unfold ciphertok.
  destruct (skip_delims_spec s 0) as (pre & rest & Hs & Hc & Hp & Hr).
  rewrite Hs. simpl Nat.add.
  destruct (scan_token_spec rest (length pre)) as (tok & post & Ht & Hc' & Hn & Hq).
  rewrite Ht.
  destruct tok as [|t tok].
  - left. rewrite Nat.add_0_r, Nat.leb_refl. split; [|reflexivity].
    rewrite Hc, Hc'. simpl.
    destruct Hr as [Hr | (c & r & Hr & Hd)].
    + rewrite Hc' in Hr. simpl in Hr. subst post. now rewrite app_nil_r.
    + rewrite Hc' in Hr. simpl in Hr.
      destruct Hq as [Hq | (c' & r' & Hq & Hd')].
      * rewrite Hq in Hr. discriminate.
      * rewrite Hq in Hr. injection Hr as -> ->. congruence.
  - right. exists pre, (t :: tok), post.
    split; [now rewrite Hc, Hc'|].
    split; [exact Hp|]. split; [discriminate|]. split; [exact Hn|].
    split; [exact Hq|].
    destruct (length pre + length (t :: tok) <=? length pre)%nat eqn:Hle.
    + apply Nat.leb_le in Hle. simpl in Hle. lia.
    + reflexivity.
Qed.

(** C10. On a session of a Sodium stream method, [encrypt] and [decrypt]
    leave [*olen] as the caller set it, whatever they return. The other
    paths store a length: the xxtea path stores what the XXTEA routine
    reports, and the generic path, when it returns [OK], stores what the
    library reported ([outl + finish_olen] under the OpenSSL family, the
    length [mbedtls_cipher_crypt] wrote under mbedTLS). *)
Theorem libsodium_stream_keeps_olen (cfg : build_config) (B : backend) (w : world B)
    (d : cipher_interface_info_t) (input : option (list byte)) (dr : direction)
    (inp : list byte) (c0 : cipher_evp_t B) :
  interface_ (self w) = Some d ->
  (is_libsodium_stream (method d) = true ->
   olen (snd (run (encrypt cfg B input) w)) = olen w
   /\ olen (snd (run (decrypt cfg B input) w)) = olen w)
  /\ (method d = EN_CIMT_XXTEA -> is_aead (self w) = false ->
      bad_crypt_params cfg B (Some inp) w = false ->
      olen (snd (run (crypt cfg B dr (Some inp)) w))
      = Some (c_len (match dr with
                     | ENCRYPT =>
                         xxtea_encrypt B (xxtea_context_key (self w)) inp (olen_value w)
                     | DECRYPT =>
                         xxtea_decrypt B (xxtea_context_key (self w)) inp (olen_value w)
                     end)))
  /\ (method d = EN_CIMT_CIPHER -> context_of B dr (self w) = Some c0 ->
      fst (run (crypt cfg B dr (Some inp)) w) = OK ->
      (CRYPTO_GENERIC cfg = USE_OPENSSL ->
       olen (snd (run (crypt cfg B dr (Some inp)) w))
       = Some (to_size_t (openssl_produced B dr d c0 (padded_iv cfg B (self w)) inp)))
      /\ (CRYPTO_GENERIC cfg = USE_MBEDTLS ->
          olen (snd (run (crypt cfg B dr (Some inp)) w))
          = Some (c_len (mbedtls_crypt B dr d c0 (padded_iv cfg B (self w)) inp
                           (olen_value w))))).
Proof.
  intros Hd. split; [|split].
  - intros Hm. split; apply (stream_keeps_olen cfg B d); assumption.
  - intros Hm Ha Hp. apply (xxtea_sets_olen cfg B d); assumption.
  - intros Hm Hc Hok. apply (generic_sets_olen cfg B d); assumption.
Qed.

(** C10 on the small back-end: salsa20 returns [OK] on a three-byte
    message and leaves the 8 the caller announced; xxtea and aes-128-cfb
    store 3. *)
Lemma libsodium_stream_keeps_olen_witness :
  let p := [x61; x62; x63] in
  let stream := Example.with_buffers
                  (Example.keyed Example.full_build "salsa20" Example.key32 Example.iv16)
                  8 0 in
  let block := Example.with_buffers
                 (Example.keyed Example.full_build "xxtea" Example.key32 []) 8 0 in
  let generic := Example.with_buffers
                   (Example.keyed Example.full_build "aes-128-cfb" Example.key32
                      Example.iv16) 8 0 in
  fst (run (encrypt Example.full_build Example.toy (Some p)) stream) = OK
  /\ olen (snd (run (encrypt Example.full_build Example.toy (Some p)) stream)) = Some 8
  /\ olen (snd (run (encrypt Example.full_build Example.toy (Some p)) block)) = Some 3
  /\ olen (snd (run (encrypt Example.full_build Example.toy (Some p)) generic)) = Some 3.
Proof.
  cbv zeta.
  destruct (libsodium_stream_keeps_olen Example.full_build Example.toy
              (Example.with_buffers
                 (Example.keyed Example.full_build "salsa20" Example.key32 Example.iv16) 8 0)
              (entry "salsa20" EN_CIMT_LIBSODIUM_SALSA20 None "SALSA20" EN_CIFT_NONE)
              (Some [x61; x62; x63]) ENCRYPT [x61; x62; x63] tt eq_refl) as (H1 & _).
  destruct (libsodium_stream_keeps_olen Example.full_build Example.toy
              (Example.with_buffers
                 (Example.keyed Example.full_build "xxtea" Example.key32 []) 8 0)
              (entry "xxtea" EN_CIMT_XXTEA None "xxtea" EN_CIFT_NONE)
              (Some [x61; x62; x63]) ENCRYPT [x61; x62; x63] tt eq_refl) as (_ & H2 & _).
  destruct (libsodium_stream_keeps_olen Example.full_build Example.toy
              (Example.with_buffers
                 (Example.keyed Example.full_build "aes-128-cfb" Example.key32
                    Example.iv16) 8 0)
              (entry "aes-128-cfb" EN_CIMT_CIPHER None "AES-128-CFB128" EN_CIFT_NONE)
              (Some [x61; x62; x63]) ENCRYPT [x61; x62; x63] tt eq_refl) as (_ & _ & H3).
  destruct (H1 eq_refl) as (H1' & _).
  specialize (H2 eq_refl eq_refl ltac:(vm_compute; reflexivity)).
  destruct (H3 eq_refl eq_refl ltac:(vm_compute; reflexivity)) as (H3' & _).
  specialize (H3' eq_refl).
  split; [vm_compute; reflexivity|].
  split; [exact H1'|]. unfold encrypt.
  split; [rewrite H2; vm_compute; reflexivity|].
  rewrite H3'. vm_compute. reflexivity.
Defined.

(* ================================================================== *)
(** ** Reasoning along a call chain

    A relation between the state before and the state after is kept by a
    chain when every step keeps it; the codes a chain can answer are the
    codes its steps can answer. *)
(* ================================================================== *)

Lemma run_state {B} (m : M B error_code_t.type) (w : world B) :
  snd (run m w) = state_after (m w).
Proof. unfold run, state_after. destruct (m w); reflexivity. Qed.

Section Steps.

Variable B : backend.

Section Keeps.

Variable R : world B -> world B -> Prop.
Hypothesis R_refl : forall w, R w w.
Hypothesis R_trans : forall a b c, R a b -> R b c -> R a c.

Lemma keeps_pure A (a : A) : keeps R (pure B a).
Proof. intros w. apply R_refl. Qed.

Lemma keeps_return A r : keeps R (@return_ B A r).
Proof. intros w. apply R_refl. Qed.

Lemma keeps_this : keeps R (this B).
Proof. intros w. apply R_refl. Qed.

Lemma keeps_skip : keeps R (skip B).
Proof. intros w. apply R_refl. Qed.

Lemma keeps_bind A C (m : M B A) (k : A -> M B C) :
  keeps R m -> (forall a, keeps R (k a)) -> keeps R (bind B m k).
Proof.
  intros Hm Hk w. unfold bind. specialize (Hm w).
  destruct (m w) as [w1 a | w1 r]; cbn [state_after] in *; [|exact Hm].
  eapply R_trans; [exact Hm | apply Hk].
Qed.

Lemma keeps_call_fn m : keeps R m -> keeps R (call_fn B m).
Proof.
  intros Hm w. unfold call_fn. specialize (Hm w). destruct (m w); exact Hm.
Qed.

(** A step that reads the state it starts from. *)
Lemma keeps_read A (f : world B -> M B A) :
  (forall v, keeps R (f v)) -> keeps R (fun w => f w w).
Proof. intros H w. apply (H w w). Qed.

End Keeps.

Section Codes.

Variable S : error_code_t.type -> Prop.

Lemma leaves_pure A (a : A) : leaves_with S (pure B a).
Proof. intros w w' r H. discriminate H. Qed.

Lemma leaves_this : leaves_with S (this B).
Proof. intros w w' r H. discriminate H. Qed.

Lemma leaves_skip : leaves_with S (skip B).
Proof. intros w w' r H. discriminate H. Qed.

Lemma leaves_modify f : leaves_with S (modify B f).
Proof. intros w w' r H. discriminate H. Qed.

Lemma leaves_call c : leaves_with S (call B c).
Proof. intros w w' r H. discriminate H. Qed.

Lemma leaves_set_context d c : leaves_with S (set_context B d c).
Proof. intros w w' r H. destruct d; discriminate H. Qed.

Lemma leaves_write_output data : leaves_with S (write_output B data).
Proof. intros w w' r H. discriminate H. Qed.

Lemma leaves_write_output_at off data : leaves_with S (write_output_at B off data).
Proof. intros w w' r H. discriminate H. Qed.

Lemma leaves_write_olen v : leaves_with S (write_olen B v).
Proof. intros w w' r H. discriminate H. Qed.

Lemma leaves_write_tag data : leaves_with S (write_tag B data).
Proof. intros w w' r H. discriminate H. Qed.

Lemma leaves_return A r : S r -> leaves_with S (@return_ B A r).
Proof. intros Hr w w' r' H. injection H as _ <-. exact Hr. Qed.

Lemma leaves_setup_errorno A e r : S r -> leaves_with S (@setup_errorno B A e r).
Proof. intros Hr w w' r' H. injection H as _ <-. exact Hr. Qed.

Lemma leaves_bind A C (m : M B A) (k : A -> M B C) :
  leaves_with S m -> (forall a, leaves_with S (k a)) -> leaves_with S (bind B m k).
Proof.
  intros Hm Hk w w' r. unfold bind. specialize (Hm w).
  destruct (m w) as [w1 a | w1 r1].
  - apply Hk.
  - intros H. injection H as <- <-. eapply Hm. reflexivity.
Qed.

Lemma leaves_read A (f : world B -> M B A) :
  (forall v, leaves_with S (f v)) -> leaves_with S (fun w => f w w).
Proof. intros H w. apply (H w w). Qed.

Lemma yields_pure r : S r -> yields S (pure B r).
Proof. intros Hr w. exact Hr. Qed.

Lemma yields_return r : S r -> yields S (return_ B r).
Proof. intros Hr w. exact Hr. Qed.

Lemma yields_setup_errorno e r : S r -> yields S (setup_errorno B e r).
Proof. intros Hr w. exact Hr. Qed.

Lemma yields_bind A (m : M B A) (k : A -> M B error_code_t.type) :
  leaves_with S m -> (forall a, yields S (k a)) -> yields S (bind B m k).
Proof.
  intros Hm Hk w. unfold yields, run, bind in *. specialize (Hm w).
  destruct (m w) as [w1 a | w1 r1].
  - apply Hk.
  - cbn. eapply Hm. reflexivity.
Qed.

Lemma yields_read (f : world B -> M B error_code_t.type) :
  (forall v, yields S (f v)) -> yields S (fun w => f w w).
Proof. intros H w. apply (H w w). Qed.

End Codes.

(** *** The frame of a crypto call *)

Lemma crypto_frame_refl d (w : world B) : crypto_frame d w w.
Proof.
  unfold crypto_frame, same_descriptor, same_keys, same_iv, same_context, trace_grows.
  repeat split; auto. exists []. symmetry. apply app_nil_r.
Qed.

Lemma crypto_frame_trans d (a b c : world B) :
  crypto_frame d a b -> crypto_frame d b c -> crypto_frame d a c.
Proof.
  unfold crypto_frame, same_descriptor, same_keys, same_iv, same_context, trace_grows.
  intros ((H1 & H2) & (H3 & H4) & H5 & H6 & H7 & (l & H8))
         ((G1 & G2) & (G3 & G4) & G5 & G6 & G7 & (l' & G8)).
  repeat split; try congruence; auto.
  exists (l ++ l'). rewrite G8, H8. symmetry. apply app_assoc.
Qed.

(** A step that appends to the trace, stores through the caller's
    pointers or sets the error number is within the frame. *)
Lemma frame_step d A (m : M B A) :
  (forall w, exists w' a,
      m w = Next w' a /\ interface_ (self w') = interface_ (self w)
      /\ cipher_kt_ (self w') = cipher_kt_ (self w)
      /\ libsodium_context_key (self w') = libsodium_context_key (self w)
      /\ xxtea_context_key (self w') = xxtea_context_key (self w)
      /\ iv_ (self w') = iv_ (self w)
      /\ cipher_context_enc (self w') = cipher_context_enc (self w)
      /\ cipher_context_dec (self w') = cipher_context_dec (self w)
      /\ exists l, calls w' = calls w ++ l) ->
  keeps (crypto_frame d) m.
Proof.
  intros H w. destruct (H w) as (w' & a & -> & H1 & H2 & H3 & H4 & H5 & H6 & H7 & H8).
  cbn [state_after].
  unfold crypto_frame, same_descriptor, same_keys, same_iv, same_context, trace_grows.
  repeat split; auto; destruct d; cbn [opposite context_of]; congruence.
Qed.

Ltac plain_step :=
  apply frame_step; intros w; eexists; eexists; split; [reflexivity|];
  destruct w as [ci ? ? ? ?]; destruct ci; cbn;
  repeat split; try reflexivity;
  first [ exists []; symmetry; apply app_nil_r | eexists; reflexivity ].

Lemma frame_call d c : keeps (crypto_frame d) (call B c).
Proof. plain_step. Qed.

Lemma frame_write_output d data : keeps (crypto_frame d) (write_output B data).
Proof. plain_step. Qed.

Lemma frame_write_output_at d off data :
  keeps (crypto_frame d) (write_output_at B off data).
Proof. plain_step. Qed.

Lemma frame_write_olen d v : keeps (crypto_frame d) (write_olen B v).
Proof. plain_step. Qed.

Lemma frame_write_tag d data : keeps (crypto_frame d) (write_tag B data).
Proof. plain_step. Qed.

Lemma frame_set_last_errno d e : keeps (crypto_frame d) (modify B (set_last_errno e)).
Proof. plain_step. Qed.

Lemma frame_setup_errorno d A e r : keeps (crypto_frame d) (@setup_errorno B A e r).
Proof.
  unfold setup_errorno.
  apply keeps_bind; [apply crypto_frame_trans | apply frame_set_last_errno |].
  intros _. apply keeps_return. apply crypto_frame_refl.
Qed.

(** Storing a context back into the slot of direction [d]. *)
Lemma frame_set_context d c : keeps (crypto_frame d) (set_context B d c).
Proof.
  intros w. destruct w as [ci ? ? ? ?]. destruct ci.
  unfold crypto_frame, same_descriptor, same_keys, same_iv, same_context, trace_grows.
  destruct d; cbn; repeat split; auto; try discriminate;
    exists []; symmetry; apply app_nil_r.
Qed.

End Steps.

(** A step written as a function of the state it starts in: what it
    reads there ([*olen], the tag pointer) is fixed first. *)
Ltac read_state refold :=
  let w := fresh "w" in
  intros w; cbv beta; generalize (olen_value w), (tag w); intros ? ?; revert w; refold.

(** Walks a chain step by step, by the shape of the step at its head. *)
Ltac keeps_frame :=
  repeat (cbv zeta;
    lazymatch goal with
    | |- keeps _ (bind _ _ _) => apply keeps_bind; [apply crypto_frame_trans | | intros ?]
    | |- keeps _ (pure _ _) => apply keeps_pure; apply crypto_frame_refl
    | |- keeps _ (return_ _ _) => apply keeps_return; apply crypto_frame_refl
    | |- keeps _ (this _) => apply keeps_this; apply crypto_frame_refl
    | |- keeps _ (skip _) => apply keeps_skip; apply crypto_frame_refl
    | |- keeps _ (call _ _) => apply frame_call
    | |- keeps _ (set_context _ _ _) => apply frame_set_context
    | |- keeps _ (write_output _ _) => apply frame_write_output
    | |- keeps _ (write_output_at _ _ _) => apply frame_write_output_at
    | |- keeps _ (write_olen _ _) => apply frame_write_olen
    | |- keeps _ (write_tag _ _) => apply frame_write_tag
    | |- keeps _ (modify _ (set_last_errno _)) => apply frame_set_last_errno
    | |- keeps _ (setup_errorno _ _ _) => apply frame_setup_errorno
    | |- keeps _ (if ?c then _ else _) => destruct c
    | |- keeps _ (match ?x with _ => _ end) => destruct x
    | |- keeps _ (fun _ => _) => read_state ltac:(refine (_ : keeps _ _))
    end).

(** The same walk for the codes of the [return]s on the way; what is
    left is that each code met is one of the set. *)
Ltac leaves_codes :=
  repeat (cbv zeta;
    lazymatch goal with
    | |- leaves_with _ (bind _ _ _) => apply leaves_bind; [| intros ?]
    | |- leaves_with _ (pure _ _) => apply leaves_pure
    | |- leaves_with _ (this _) => apply leaves_this
    | |- leaves_with _ (skip _) => apply leaves_skip
    | |- leaves_with _ (modify _ _) => apply leaves_modify
    | |- leaves_with _ (call _ _) => apply leaves_call
    | |- leaves_with _ (set_context _ _ _) => apply leaves_set_context
    | |- leaves_with _ (write_output _ _) => apply leaves_write_output
    | |- leaves_with _ (write_output_at _ _ _) => apply leaves_write_output_at
    | |- leaves_with _ (write_olen _ _) => apply leaves_write_olen
    | |- leaves_with _ (write_tag _ _) => apply leaves_write_tag
    | |- leaves_with _ (return_ _ _) => apply leaves_return
    | |- leaves_with _ (setup_errorno _ _ _) => apply leaves_setup_errorno
    | |- leaves_with _ (if ?c then _ else _) => destruct c
    | |- leaves_with _ (match ?x with _ => _ end) => destruct x
    | |- leaves_with _ (fun _ => _) => read_state ltac:(refine (_ : leaves_with _ _))
    end).

Ltac read_state_code :=
  let w := fresh "w" in
  intros w; unfold run; cbv beta; generalize (olen_value w), (tag w); intros ? ?;
  lazymatch goal with
  | |- ?S (fst (match ?X w with Next _ _ => _ | Return _ _ => _ end)) =>
      change (S (fst (run X w)))
  end;
  revert w; refine (_ : yields _ _).

Ltac yields_codes :=
  repeat (cbv zeta;
    lazymatch goal with
    | |- yields _ (bind _ _ _) => apply yields_bind; [leaves_codes | intros ?]
    | |- yields _ (pure _ _) => apply yields_pure
    | |- yields _ (return_ _ _) => apply yields_return
    | |- yields _ (setup_errorno _ _ _) => apply yields_setup_errorno
    | |- yields _ (if ?c then _ else _) => destruct c
    | |- yields _ (match ?x with _ => _ end) => destruct x
    | |- yields _ (fun _ => _) => read_state_code
    end).

Section Chains.

Variable cfg : build_config.
Variable B : backend.

Lemma crypt_with_openssl_frame d i c0 inp :
  keeps (crypto_frame d) (crypt_with_openssl B d i c0 inp).
Proof. unfold crypt_with_openssl. keeps_frame. Qed.

Lemma crypt_with_mbedtls_frame d i c0 inp :
  keeps (crypto_frame d) (crypt_with_mbedtls B d i c0 inp).
Proof. unfold crypt_with_mbedtls. keeps_frame. Qed.

Lemma crypt_with_libsodium_stream_frame d m inp :
  keeps (crypto_frame d) (crypt_with_libsodium_stream B m inp).
Proof. unfold crypt_with_libsodium_stream. keeps_frame. Qed.

Lemma crypt_with_xxtea_frame d d' inp :
  keeps (crypto_frame d) (crypt_with_xxtea B d' inp).
Proof. unfold crypt_with_xxtea. keeps_frame. Qed.

Lemma encrypt_aead_with_openssl_frame i c0 inp ad tag_len :
  keeps (crypto_frame ENCRYPT) (encrypt_aead_with_openssl B i c0 inp ad tag_len).
Proof.
  unfold encrypt_aead_with_openssl, aead_bind_iv_openssl, aead_update_openssl.
  keeps_frame.
Qed.

Lemma decrypt_aead_with_openssl_frame i c0 inp ad tag_in tag_len :
  keeps (crypto_frame DECRYPT) (decrypt_aead_with_openssl B i c0 inp ad tag_in tag_len).
Proof.
  unfold decrypt_aead_with_openssl, aead_bind_iv_openssl, aead_update_openssl.
  keeps_frame.
Qed.

Lemma encrypt_aead_with_mbedtls_frame c0 inp ad tag_len :
  keeps (crypto_frame ENCRYPT) (encrypt_aead_with_mbedtls B c0 inp ad tag_len).
Proof. unfold encrypt_aead_with_mbedtls. keeps_frame. Qed.

Lemma decrypt_aead_with_mbedtls_frame c0 inp ad tag_in tag_len :
  keeps (crypto_frame DECRYPT) (decrypt_aead_with_mbedtls B c0 inp ad tag_in tag_len).
Proof. unfold decrypt_aead_with_mbedtls. keeps_frame. Qed.

Lemma encrypt_aead_with_libsodium_frame d m abytes inp ad tag_len :
  keeps (crypto_frame d) (encrypt_aead_with_libsodium B m abytes inp ad tag_len).
Proof. unfold encrypt_aead_with_libsodium. keeps_frame. Qed.

Lemma decrypt_aead_with_libsodium_frame d m abytes inp ad tag_in tag_len :
  keeps (crypto_frame d) (decrypt_aead_with_libsodium B m abytes inp ad tag_in tag_len).
Proof. unfold decrypt_aead_with_libsodium. keeps_frame. Qed.

End Chains.

(** The frame lemma of the chain at hand. *)
Ltac chain_frame :=
  lazymatch goal with
  | |- crypto_frame _ _ (state_after (crypt_with_xxtea _ _ _ _)) =>
      apply crypt_with_xxtea_frame
  | |- crypto_frame _ _ (state_after (crypt_with_openssl _ _ _ _ _ _)) =>
      apply crypt_with_openssl_frame
  | |- crypto_frame _ _ (state_after (crypt_with_mbedtls _ _ _ _ _ _)) =>
      apply crypt_with_mbedtls_frame
  | |- crypto_frame _ _ (state_after (crypt_with_libsodium_stream _ _ _ _)) =>
      apply crypt_with_libsodium_stream_frame
  | |- crypto_frame _ _ (state_after (encrypt_aead_with_openssl _ _ _ _ _ _ _)) =>
      apply encrypt_aead_with_openssl_frame
  | |- crypto_frame _ _ (state_after (decrypt_aead_with_openssl _ _ _ _ _ _ _ _)) =>
      apply decrypt_aead_with_openssl_frame
  | |- crypto_frame _ _ (state_after (encrypt_aead_with_mbedtls _ _ _ _ _ _)) =>
      apply encrypt_aead_with_mbedtls_frame
  | |- crypto_frame _ _ (state_after (decrypt_aead_with_mbedtls _ _ _ _ _ _ _)) =>
      apply decrypt_aead_with_mbedtls_frame
  | |- crypto_frame _ _ (state_after (encrypt_aead_with_libsodium _ _ _ _ _ _ _)) =>
      apply encrypt_aead_with_libsodium_frame
  | |- crypto_frame _ _ (state_after (decrypt_aead_with_libsodium _ _ _ _ _ _ _ _)) =>
      apply decrypt_aead_with_libsodium_frame
  end.

Section ChainCodes.

Variable cfg : build_config.
Variable B : backend.

Lemma crypt_with_openssl_codes d i c0 inp :
  yields past_guards (crypt_with_openssl B d i c0 inp).
Proof. unfold crypt_with_openssl. yields_codes; reflexivity. Qed.

Lemma crypt_with_mbedtls_codes d i c0 inp :
  yields past_guards (crypt_with_mbedtls B d i c0 inp).
Proof. unfold crypt_with_mbedtls. yields_codes; reflexivity. Qed.

Lemma crypt_with_libsodium_stream_codes m inp :
  yields past_guards (crypt_with_libsodium_stream B m inp).
Proof. unfold crypt_with_libsodium_stream. yields_codes; reflexivity. Qed.

Lemma crypt_with_xxtea_codes d inp :
  yields past_guards (crypt_with_xxtea B d inp).
Proof. unfold crypt_with_xxtea. yields_codes; reflexivity. Qed.

Lemma encrypt_aead_with_openssl_codes i c0 inp ad tag_len :
  yields past_guards (encrypt_aead_with_openssl B i c0 inp ad tag_len).
Proof.
  unfold encrypt_aead_with_openssl, aead_bind_iv_openssl, aead_update_openssl.
  yields_codes; reflexivity.
Qed.

Lemma decrypt_aead_with_openssl_codes i c0 inp ad tag_in tag_len :
  yields past_guards (decrypt_aead_with_openssl B i c0 inp ad tag_in tag_len).
Proof.
  unfold decrypt_aead_with_openssl, aead_bind_iv_openssl, aead_update_openssl.
  yields_codes; reflexivity.
Qed.

Lemma encrypt_aead_with_mbedtls_codes c0 inp ad tag_len :
  yields past_guards (encrypt_aead_with_mbedtls B c0 inp ad tag_len).
Proof. unfold encrypt_aead_with_mbedtls. yields_codes; reflexivity. Qed.

Lemma decrypt_aead_with_mbedtls_codes c0 inp ad tag_in tag_len :
  yields past_guards (decrypt_aead_with_mbedtls B c0 inp ad tag_in tag_len).
Proof. unfold decrypt_aead_with_mbedtls. yields_codes; reflexivity. Qed.

End ChainCodes.

(* ================================================================== *)
(** ** The ways through a crypto call

    Each of [encrypt]/[decrypt], [encrypt_aead] and [decrypt_aead] ends
    at one of its guards or runs one back-end chain on the state with
    the padded IV: a property of every way through holds of the call. *)
(* ================================================================== *)

Section Ways.

Variable cfg : build_config.
Variable B : backend.

Lemma crypt_ways dr input (w : world B) (P : error_code_t.type * world B -> Prop) :
  (initialized (self w) = false -> P (NOT_INITED, on_self (set_last_errno 0) w)) ->
  (initialized (self w) = true -> is_aead (self w) = true ->
   P (MUST_CALL_AEAD_API, w)) ->
  (initialized (self w) = true -> is_aead (self w) = false ->
   bad_crypt_params cfg B input w = true ->
   P (INVALID_PARAM, on_self (set_last_errno (-1)) w)) ->
  (forall i inp,
      interface_ (self w) = Some i -> input = Some inp ->
      initialized (self w) = true -> is_aead (self w) = false ->
      bad_crypt_params cfg B input w = false ->
      P (NOT_INITED, on_self (set_last_errno (-1)) (padded cfg w))
      /\ (method i = EN_CIMT_XXTEA -> P (run (crypt_with_xxtea B dr inp) (padded cfg w)))
      /\ (method i = EN_CIMT_CIPHER -> context_of B dr (self w) = None ->
          P (CIPHER_DISABLED, on_self (set_last_errno 0) (padded cfg w)))
      /\ (forall c, method i = EN_CIMT_CIPHER -> context_of B dr (self w) = Some c ->
          CRYPTO_GENERIC cfg = USE_OPENSSL ->
          P (run (crypt_with_openssl B dr i c inp) (padded cfg w)))
      /\ (forall c, method i = EN_CIMT_CIPHER -> context_of B dr (self w) = Some c ->
          CRYPTO_GENERIC cfg = USE_MBEDTLS ->
          P (run (crypt_with_mbedtls B dr i c inp) (padded cfg w)))
      /\ (forall m, has_stream_case m = true -> CRYPTO_USE_LIBSODIUM cfg = true ->
          method i = m
          \/ (method i = EN_CIMT_CIPHER /\ CRYPTO_GENERIC cfg = USE_NONE
              /\ m = EN_CIMT_LIBSODIUM_CHACHA20
              /\ is_null (context_of B dr (self w)) = false) ->
          P (run (crypt_with_libsodium_stream B m inp) (padded cfg w)))) ->
  P (run (crypt cfg B dr input) w).
Proof.
  intros Hni Haead Hbad Hgo.
  unfold crypt, run, bind, this. cbv beta.
  destruct (initialized (self w)) eqn:Ei; cbn [negb]; [|apply Hni; reflexivity].
  destruct (is_aead (self w)) eqn:Ea; [apply Haead; reflexivity|].
  destruct (bad_crypt_params cfg B input w) eqn:Eb; [apply Hbad; reflexivity|].
  rewrite pad_iv_spec. fold (padded cfg w).
  destruct (interface_ (self w)) as [i|] eqn:Ed;
    [|unfold initialized in Ei; rewrite Ed in Ei; discriminate].
  destruct input as [inp|];
    [|unfold bad_crypt_params in Eb; cbn in Eb; discriminate].
  destruct (Hgo i inp eq_refl eq_refl eq_refl eq_refl eq_refl)
    as (Hdef & Hx & Hdis & Hossl & Hmbed & Hs).
  unfold crypt_default.
  destruct (method i) eqn:Em; try exact Hdef.
  - apply Hx. reflexivity.
  - destruct (context_of B dr (self w)) as [c|] eqn:Ec; [|apply Hdis; reflexivity].
    destruct (CRYPTO_GENERIC cfg) eqn:Eg.
    + apply (Hossl c); reflexivity.
    + apply (Hmbed c); reflexivity.
    + destruct (CRYPTO_USE_LIBSODIUM cfg) eqn:Es; [|exact Hdef].
      apply Hs; [reflexivity | reflexivity |]. right. auto.
  - destruct (CRYPTO_USE_LIBSODIUM cfg) eqn:Es; [|exact Hdef].
    apply Hs; [reflexivity | reflexivity | left; reflexivity].
  - destruct (CRYPTO_USE_LIBSODIUM cfg) eqn:Es; [|exact Hdef].
    apply Hs; [reflexivity | reflexivity | left; reflexivity].
  - destruct (CRYPTO_USE_LIBSODIUM cfg) eqn:Es; [|exact Hdef].
    apply Hs; [reflexivity | reflexivity | left; reflexivity].
  - destruct (CRYPTO_USE_LIBSODIUM cfg) eqn:Es; [|exact Hdef].
    apply Hs; [reflexivity | reflexivity | left; reflexivity].
Qed.

Lemma encrypt_aead_ways input ad tag_len (w : world B)
    (P : error_code_t.type * world B -> Prop) :
  (initialized (self w) = false -> P (NOT_INITED, on_self (set_last_errno 0) w)) ->
  (initialized (self w) = true -> is_aead (self w) = false ->
   P (MUST_NOT_CALL_AEAD_API, w)) ->
  (initialized (self w) = true -> is_aead (self w) = true ->
   bad_crypt_params cfg B input w = true ->
   P (INVALID_PARAM, on_self (set_last_errno (-1)) w)) ->
  (forall i inp,
      interface_ (self w) = Some i -> input = Some inp ->
      initialized (self w) = true -> is_aead (self w) = true ->
      bad_crypt_params cfg B input w = false ->
      P (NOT_INITED, on_self (set_last_errno (-1)) (padded cfg w))
      /\ (method i = EN_CIMT_CIPHER -> cipher_context_enc (self w) = None ->
          P (CIPHER_DISABLED, on_self (set_last_errno 0) (padded cfg w)))
      /\ (forall c, method i = EN_CIMT_CIPHER -> cipher_context_enc (self w) = Some c ->
          CRYPTO_GENERIC cfg = USE_OPENSSL ->
          P (run (encrypt_aead_with_openssl B i c inp ad tag_len) (padded cfg w)))
      /\ (forall c, method i = EN_CIMT_CIPHER -> cipher_context_enc (self w) = Some c ->
          CRYPTO_GENERIC cfg = USE_MBEDTLS ->
          P (run (encrypt_aead_with_mbedtls B c inp ad tag_len) (padded cfg w)))
      /\ (forall m, is_libsodium_aead m = true -> CRYPTO_USE_LIBSODIUM cfg = true ->
          method i = m
          \/ (method i = EN_CIMT_CIPHER /\ CRYPTO_GENERIC cfg = USE_NONE
              /\ m = EN_CIMT_LIBSODIUM_CHACHA20_POLY1305
              /\ is_null (cipher_context_enc (self w)) = false) ->
          P (run (encrypt_aead_with_libsodium B m 16 inp ad tag_len) (padded cfg w)))) ->
  P (run (encrypt_aead cfg B input ad tag_len) w).
Proof.
  intros Hni Haead Hbad Hgo.
  unfold encrypt_aead, run, bind, this. cbv beta.
  destruct (initialized (self w)) eqn:Ei; cbn [negb]; [|apply Hni; reflexivity].
  destruct (is_aead (self w)) eqn:Ea; cbn [negb]; [|apply Haead; reflexivity].
  destruct (bad_crypt_params cfg B input w) eqn:Eb; [apply Hbad; reflexivity|].
  rewrite pad_iv_spec. fold (padded cfg w).
  destruct (interface_ (self w)) as [i|] eqn:Ed;
    [|unfold initialized in Ei; rewrite Ed in Ei; discriminate].
  destruct input as [inp|];
    [|unfold bad_crypt_params in Eb; cbn in Eb; discriminate].
  destruct (Hgo i inp eq_refl eq_refl eq_refl eq_refl eq_refl)
    as (Hdef & Hdis & Hossl & Hmbed & Hs).
  unfold crypt_default. cbv zeta.
  change crypto_aead_chacha20poly1305_ABYTES with 16.
  change crypto_aead_chacha20poly1305_IETF_ABYTES with 16.
  change crypto_aead_xchacha20poly1305_ietf_ABYTES with 16.
  destruct (method i) eqn:Em; try exact Hdef.
  - destruct (cipher_context_enc (self w)) as [c|] eqn:Ec; [|apply Hdis; reflexivity].
    destruct (CRYPTO_GENERIC cfg) eqn:Eg.
    + apply (Hossl c); reflexivity.
    + apply (Hmbed c); reflexivity.
    + destruct (CRYPTO_USE_LIBSODIUM cfg) eqn:Es; [|exact Hdef].
      apply Hs; [reflexivity | reflexivity |]. right. auto.
  - destruct (CRYPTO_USE_LIBSODIUM cfg) eqn:Es; [|exact Hdef].
    apply Hs; [reflexivity | reflexivity | left; reflexivity].
  - destruct (CRYPTO_USE_LIBSODIUM cfg) eqn:Es; [|exact Hdef].
    apply Hs; [reflexivity | reflexivity | left; reflexivity].
  - destruct (CRYPTO_USE_LIBSODIUM cfg) eqn:Es; [|exact Hdef].
    destruct (HAVE_crypto_aead_xchacha20poly1305_ietf cfg); [|exact Hdef].
    apply Hs; [reflexivity | reflexivity | left; reflexivity].
Qed.

Lemma decrypt_aead_ways input ad tag_in tag_len (w : world B)
    (P : error_code_t.type * world B -> Prop) :
  (initialized (self w) = false -> P (NOT_INITED, on_self (set_last_errno 0) w)) ->
  (initialized (self w) = true -> is_aead (self w) = false ->
   P (MUST_NOT_CALL_AEAD_API, w)) ->
  (initialized (self w) = true -> is_aead (self w) = true ->
   bad_crypt_params cfg B input w = true ->
   P (INVALID_PARAM, on_self (set_last_errno (-1)) w)) ->
  (forall i inp,
      interface_ (self w) = Some i -> input = Some inp ->
      initialized (self w) = true -> is_aead (self w) = true ->
      bad_crypt_params cfg B input w = false ->
      P (NOT_INITED, on_self (set_last_errno (-1)) (padded cfg w))
      /\ (method i = EN_CIMT_XXTEA ->
          P (run (crypt_with_xxtea B DECRYPT inp) (padded cfg w)))
      /\ (method i = EN_CIMT_CIPHER -> cipher_context_dec (self w) = None ->
          P (CIPHER_DISABLED, on_self (set_last_errno 0) (padded cfg w)))
      /\ (forall c, method i = EN_CIMT_CIPHER -> cipher_context_dec (self w) = Some c ->
          CRYPTO_GENERIC cfg = USE_OPENSSL ->
          P (run (decrypt_aead_with_openssl B i c inp ad tag_in tag_len) (padded cfg w)))
      /\ (forall c, method i = EN_CIMT_CIPHER -> cipher_context_dec (self w) = Some c ->
          CRYPTO_GENERIC cfg = USE_MBEDTLS ->
          P (run (decrypt_aead_with_mbedtls B c inp ad tag_in tag_len) (padded cfg w)))
      /\ (forall m, is_libsodium_aead m = true -> CRYPTO_USE_LIBSODIUM cfg = true ->
          method i = m
          \/ (method i = EN_CIMT_CIPHER /\ CRYPTO_GENERIC cfg = USE_NONE
              /\ m = EN_CIMT_LIBSODIUM_CHACHA20_POLY1305
              /\ is_null (cipher_context_dec (self w)) = false) ->
          P (run (decrypt_aead_with_libsodium B m 16 inp ad tag_in tag_len)
               (padded cfg w)))) ->
  P (run (decrypt_aead cfg B input ad tag_in tag_len) w).
Proof.
  intros Hni Haead Hbad Hgo.
  unfold decrypt_aead, run, bind, this. cbv beta.
  destruct (initialized (self w)) eqn:Ei; cbn [negb]; [|apply Hni; reflexivity].
  destruct (is_aead (self w)) eqn:Ea; cbn [negb]; [|apply Haead; reflexivity].
  destruct (bad_crypt_params cfg B input w) eqn:Eb; [apply Hbad; reflexivity|].
  rewrite pad_iv_spec. fold (padded cfg w).
  destruct (interface_ (self w)) as [i|] eqn:Ed;
    [|unfold initialized in Ei; rewrite Ed in Ei; discriminate].
  destruct input as [inp|];
    [|unfold bad_crypt_params in Eb; cbn in Eb; discriminate].
  destruct (Hgo i inp eq_refl eq_refl eq_refl eq_refl eq_refl)
    as (Hdef & Hx & Hdis & Hossl & Hmbed & Hs).
  unfold crypt_default. cbv zeta.
  change crypto_aead_chacha20poly1305_ABYTES with 16.
  change crypto_aead_chacha20poly1305_IETF_ABYTES with 16.
  change crypto_aead_xchacha20poly1305_ietf_ABYTES with 16.
  destruct (method i) eqn:Em; try exact Hdef.
  - apply Hx. reflexivity.
  - destruct (cipher_context_dec (self w)) as [c|] eqn:Ec; [|apply Hdis; reflexivity].
    destruct (CRYPTO_GENERIC cfg) eqn:Eg.
    + apply (Hossl c); reflexivity.
    + apply (Hmbed c); reflexivity.
    + destruct (CRYPTO_USE_LIBSODIUM cfg) eqn:Es; [|exact Hdef].
      apply Hs; [reflexivity | reflexivity |]. right. auto.
  - destruct (CRYPTO_USE_LIBSODIUM cfg) eqn:Es; [|exact Hdef].
    apply Hs; [reflexivity | reflexivity | left; reflexivity].
  - destruct (CRYPTO_USE_LIBSODIUM cfg) eqn:Es; [|exact Hdef].
    apply Hs; [reflexivity | reflexivity | left; reflexivity].
  - destruct (CRYPTO_USE_LIBSODIUM cfg) eqn:Es; [|exact Hdef].
    destruct (HAVE_crypto_aead_xchacha20poly1305_ietf cfg); [|exact Hdef].
    apply Hs; [reflexivity | reflexivity | left; reflexivity].
Qed.

End Ways.

Section Effects.

Variable cfg : build_config.
Variable B : backend.

Lemma trace_grows_refl (w : world B) : trace_grows w w.
Proof. exists []. symmetry. apply app_nil_r. Qed.

(** Setting the error number is within every frame. *)
Lemma effect_of_errno d e (w : world B) :
  crypto_effect cfg d w (on_self (set_last_errno e) w).
Proof.
  destruct w as [ci ? ? ? ?]. destruct ci.
  unfold crypto_effect, same_descriptor, same_keys, same_context, same_iv, live_contexts.
  destruct d; cbn; repeat split; auto using trace_grows_refl.
  all: exists []; symmetry; apply app_nil_r.
Qed.

Lemma effect_refl d (w : world B) : crypto_effect cfg d w w.
Proof.
  unfold crypto_effect, same_descriptor, same_keys, same_context, same_iv.
  repeat split; auto using trace_grows_refl.
Qed.

Lemma live_contexts_split d (a b : cipher B) :
  context_of B (opposite d) b = context_of B (opposite d) a ->
  is_null (context_of B d b) = is_null (context_of B d a) ->
  live_contexts b = live_contexts a.
Proof.
  unfold live_contexts. destruct d; cbn [opposite context_of]; intros -> ->; reflexivity.
Qed.

(** From the frame of the chain to the effect of the call. *)
Lemma effect_of_frame d (w w' : world B) :
  crypto_frame d (padded cfg w) w' ->
  is_null (context_of B d (self w)) = false
  \/ crypto_frame (opposite d) (padded cfg w) w' ->
  crypto_effect cfg d w w'.
Proof.
  intros ((H1 & H2) & (H3 & H4) & H5 & H6 & H7 & (l & H8)) Hc.
  assert (Hp : interface_ (self (padded cfg w)) = interface_ (self w)
               /\ cipher_kt_ (self (padded cfg w)) = cipher_kt_ (self w)
               /\ libsodium_context_key (self (padded cfg w)) = libsodium_context_key (self w)
               /\ xxtea_context_key (self (padded cfg w)) = xxtea_context_key (self w)
               /\ (forall d', context_of B d' (self (padded cfg w)) = context_of B d' (self w))
               /\ iv_ (self (padded cfg w)) = padded_iv cfg B (self w)
               /\ calls (padded cfg w) = calls w).
  { destruct w as [ci ? ? ? ?]. destruct ci. cbn. repeat split. }
  destruct Hp as (P1 & P2 & P3 & P4 & P5 & P6 & P7).
  unfold same_context in H6. unfold same_iv in H5.
  assert (Ho : context_of B (opposite d) (self w') = context_of B (opposite d) (self w))
    by (rewrite H6; apply P5).
  unfold crypto_effect, same_descriptor, same_keys, same_context, same_iv, trace_grows.
  split; [split; congruence|].
  split; [split; congruence|].
  split; [exact Ho|].
  split; [|split; [exists l; congruence | right; congruence]].
  apply (live_contexts_split d); [exact Ho|].
  destruct Hc as [Hc | Hc].
  - rewrite H7 by (rewrite P5; exact Hc). symmetry. exact Hc.
  - destruct Hc as (_ & _ & _ & G6 & _). unfold same_context in G6.
    replace (opposite (opposite d)) with d in G6 by (destruct d; reflexivity).
    rewrite G6, P5. reflexivity.
Qed.

Lemma effect_of_padded_errno d e (w : world B) :
  crypto_effect cfg d w (on_self (set_last_errno e) (padded cfg w)).
Proof.
  apply effect_of_frame.
  - apply (frame_set_last_errno B d e (padded cfg w)).
  - right. apply (frame_set_last_errno B (opposite d) e (padded cfg w)).
Qed.

Ltac by_frame lem :=
  rewrite run_state; apply effect_of_frame; [apply lem | ].

Lemma crypt_effect dr input (w : world B) :
  crypto_effect cfg dr w (snd (run (crypt cfg B dr input) w)).
Proof.
  apply (crypt_ways cfg B dr input w (fun rw => crypto_effect cfg dr w (snd rw)));
    cbn [snd]; intros; try apply effect_of_errno; try apply effect_refl.
  refine (conj _ (conj _ (conj _ (conj _ (conj _ _))))); intros;
    try apply effect_of_padded_errno.
  - by_frame crypt_with_xxtea_frame. right. apply crypt_with_xxtea_frame.
  - by_frame crypt_with_openssl_frame. left.
    match goal with H : context_of _ _ _ = Some _ |- _ => rewrite H end. reflexivity.
  - by_frame crypt_with_mbedtls_frame. left.
    match goal with H : context_of _ _ _ = Some _ |- _ => rewrite H end. reflexivity.
  - by_frame crypt_with_libsodium_stream_frame. right.
    apply crypt_with_libsodium_stream_frame.
Qed.

Lemma encrypt_aead_effect input ad tag_len (w : world B) :
  crypto_effect cfg ENCRYPT w (snd (run (encrypt_aead cfg B input ad tag_len) w)).
Proof.
  apply (encrypt_aead_ways cfg B input ad tag_len w
           (fun rw => crypto_effect cfg ENCRYPT w (snd rw)));
    cbn [snd]; intros; try apply effect_of_errno; try apply effect_refl.
  refine (conj _ (conj _ (conj _ (conj _ _)))); intros;
    try apply effect_of_padded_errno.
  - by_frame encrypt_aead_with_openssl_frame. left. cbn [context_of].
    match goal with H : cipher_context_enc _ = Some _ |- _ => rewrite H end. reflexivity.
  - by_frame encrypt_aead_with_mbedtls_frame. left. cbn [context_of].
    match goal with H : cipher_context_enc _ = Some _ |- _ => rewrite H end. reflexivity.
  - by_frame encrypt_aead_with_libsodium_frame. right.
    apply encrypt_aead_with_libsodium_frame.
Qed.

Lemma decrypt_aead_effect input ad tag_in tag_len (w : world B) :
  crypto_effect cfg DECRYPT w (snd (run (decrypt_aead cfg B input ad tag_in tag_len) w)).
Proof.
  apply (decrypt_aead_ways cfg B input ad tag_in tag_len w
           (fun rw => crypto_effect cfg DECRYPT w (snd rw)));
    cbn [snd]; intros; try apply effect_of_errno; try apply effect_refl.
  refine (conj _ (conj _ (conj _ (conj _ (conj _ _))))); intros;
    try apply effect_of_padded_errno.
  - by_frame crypt_with_xxtea_frame. right. apply crypt_with_xxtea_frame.
  - by_frame decrypt_aead_with_openssl_frame. left. cbn [context_of].
    match goal with H : cipher_context_dec _ = Some _ |- _ => rewrite H end. reflexivity.
  - by_frame decrypt_aead_with_mbedtls_frame. left. cbn [context_of].
    match goal with H : cipher_context_dec _ = Some _ |- _ => rewrite H end. reflexivity.
  - by_frame decrypt_aead_with_libsodium_frame. right.
    apply decrypt_aead_with_libsodium_frame.
Qed.

End Effects.

Section Guards.

Variable cfg : build_config.
Variable B : backend.

Lemma encrypt_aead_with_libsodium_codes m inp ad tag_len :
  (16 >? tag_len) = false ->
  yields past_guards (encrypt_aead_with_libsodium B m 16 inp ad tag_len).
Proof.
  intros H. unfold encrypt_aead_with_libsodium. rewrite H. yields_codes; reflexivity.
Qed.

Lemma decrypt_aead_with_libsodium_codes m inp ad tag_in tag_len :
  (16 >? tag_len) = false ->
  yields past_guards (decrypt_aead_with_libsodium B m 16 inp ad tag_in tag_len).
Proof.
  intros H. unfold decrypt_aead_with_libsodium. rewrite H. yields_codes; reflexivity.
Qed.

(** The state with another error number, or with the padded IV, has the
    buffers and the trace of the state it comes from. *)
Lemma quiet_errno e (w : world B) :
  same_buffers w (on_self (set_last_errno e) w)
  /\ calls (on_self (set_last_errno e) w) = calls w.
Proof. unfold same_buffers. cbn. auto. Qed.

Lemma quiet_padded_errno e (w : world B) :
  same_buffers w (on_self (set_last_errno e) (padded cfg w))
  /\ calls (on_self (set_last_errno e) (padded cfg w)) = calls w.
Proof. unfold same_buffers. cbn. auto. Qed.

Lemma quiet_refl (w : world B) : same_buffers w w /\ calls w = calls w.
Proof. unfold same_buffers. auto. Qed.

(** A chain that answers no guard code is not where a guard code comes
    from. *)
Lemma not_from_chain (m : M B error_code_t.type) (w w1 : world B) :
  yields past_guards m ->
  is_guard_code (fst (run m w1)) = true ->
  same_buffers w (snd (run m w1)) /\ calls (snd (run m w1)) = calls w.
Proof. intros Hy Hg. rewrite (Hy w1) in Hg. discriminate Hg. Qed.

Ltac quiet_guards :=
  cbn [fst snd]; intros;
  first [ apply quiet_errno | apply quiet_padded_errno | apply quiet_refl ].

Lemma crypt_guarded dr input (w : world B) :
  is_guard_code (fst (run (crypt cfg B dr input) w)) = true ->
  same_buffers w (snd (run (crypt cfg B dr input) w))
  /\ calls (snd (run (crypt cfg B dr input) w)) = calls w.
Proof.
  apply (crypt_ways cfg B dr input w
           (fun rw => is_guard_code (fst rw) = true ->
                      same_buffers w (snd rw) /\ calls (snd rw) = calls w));
    try quiet_guards.
  intros i inp _ _ _ _ _.
  refine (conj _ (conj _ (conj _ (conj _ (conj _ _))))); try quiet_guards; intros.
  - apply not_from_chain; [apply crypt_with_xxtea_codes | assumption].
  - apply not_from_chain; [apply crypt_with_openssl_codes | assumption].
  - apply not_from_chain; [apply crypt_with_mbedtls_codes | assumption].
  - apply not_from_chain; [apply crypt_with_libsodium_stream_codes | assumption].
Qed.

Lemma encrypt_aead_guarded input ad tag_len (w : world B) :
  is_guard_code (fst (run (encrypt_aead cfg B input ad tag_len) w)) = true ->
  same_buffers w (snd (run (encrypt_aead cfg B input ad tag_len) w))
  /\ calls (snd (run (encrypt_aead cfg B input ad tag_len) w)) = calls w.
Proof.
  apply (encrypt_aead_ways cfg B input ad tag_len w
           (fun rw => is_guard_code (fst rw) = true ->
                      same_buffers w (snd rw) /\ calls (snd rw) = calls w));
    try quiet_guards.
  intros i inp _ _ _ _ _.
  refine (conj _ (conj _ (conj _ (conj _ _)))); try quiet_guards; intros.
  - apply not_from_chain; [apply encrypt_aead_with_openssl_codes | assumption].
  - apply not_from_chain; [apply encrypt_aead_with_mbedtls_codes | assumption].
  - destruct (16 >? tag_len) eqn:Et.
    + unfold encrypt_aead_with_libsodium, run, return_. rewrite Et.
      cbn [fst snd]. unfold same_buffers. cbn. auto.
    + apply not_from_chain; [apply encrypt_aead_with_libsodium_codes; exact Et | assumption].
Qed.

Lemma decrypt_aead_guarded input ad tag_in tag_len (w : world B) :
  is_guard_code (fst (run (decrypt_aead cfg B input ad tag_in tag_len) w)) = true ->
  same_buffers w (snd (run (decrypt_aead cfg B input ad tag_in tag_len) w))
  /\ calls (snd (run (decrypt_aead cfg B input ad tag_in tag_len) w)) = calls w.
Proof.
  apply (decrypt_aead_ways cfg B input ad tag_in tag_len w
           (fun rw => is_guard_code (fst rw) = true ->
                      same_buffers w (snd rw) /\ calls (snd rw) = calls w));
    try quiet_guards.
  intros i inp _ _ _ _ _.
  refine (conj _ (conj _ (conj _ (conj _ (conj _ _))))); try quiet_guards; intros.
  - apply not_from_chain; [apply crypt_with_xxtea_codes | assumption].
  - apply not_from_chain; [apply decrypt_aead_with_openssl_codes | assumption].
  - apply not_from_chain; [apply decrypt_aead_with_mbedtls_codes | assumption].
  - destruct (16 >? tag_len) eqn:Et.
    + unfold decrypt_aead_with_libsodium, run, return_. rewrite Et.
      cbn [fst snd]. unfold same_buffers. cbn. auto.
    + apply not_from_chain; [apply decrypt_aead_with_libsodium_codes; exact Et | assumption].
Qed.

(** *** The parameter test *)

Lemma get_block_size_range (ci : cipher B) : 0 <= get_block_size cfg B ci.
Proof.
  assert (Hu : forall z, 0 <= to_u32 z)
    by (intros z; unfold to_u32; apply Z.mod_pos_bound; lia).
  unfold get_block_size, generic_getter.
  destruct (interface_ ci) as [i|]; [|lia].
  destruct (method i); try lia;
    repeat match goal with
           | |- context [match ?x with _ => _ end] => destruct x
           end; try lia; try apply Hu.
Qed.

(** An announced capacity below [ilen + get_block_size()] fails the
    test, and so does any null pointer. *)
Lemma poor_params_are_bad input (w : world B) :
  input = None \/ output w = None \/ olen w = None
  \/ (exists n, olen w = Some n
                /\ n < ilen_of input + get_block_size cfg B (self w) < 2 ^ 64) ->
  bad_crypt_params cfg B input w = true.
Proof.
  unfold bad_crypt_params, olen_value.
  intros [-> | [-> | [-> | (n & -> & Hn)]]]; cbn [is_null orb];
    rewrite ?orb_true_r; try reflexivity.
  pose proof (get_block_size_range (self w)) as Hb.
  assert (Hi : 0 <= ilen_of input) by (destruct input; cbn; unfold size; lia).
  unfold to_size_t. rewrite Z.mod_small by lia.
  destruct (Z.ltb_spec n (ilen_of input + get_block_size cfg B (self w))); [|lia].
  rewrite ?orb_true_r. reflexivity.
Qed.

Lemma crypt_bad_params dr input (w : world B) :
  initialized (self w) = true -> is_aead (self w) = false ->
  bad_crypt_params cfg B input w = true ->
  run (crypt cfg B dr input) w = (INVALID_PARAM, on_self (set_last_errno (-1)) w).
Proof.
  intros Hi Ha Hb. unfold crypt, run, bind, this. cbv beta.
  rewrite Hi. cbn [negb]. rewrite Ha. cbv beta. rewrite Hb. reflexivity.
Qed.

Lemma encrypt_aead_bad_params input ad tag_len (w : world B) :
  initialized (self w) = true -> is_aead (self w) = true ->
  bad_crypt_params cfg B input w = true ->
  run (encrypt_aead cfg B input ad tag_len) w
  = (INVALID_PARAM, on_self (set_last_errno (-1)) w).
Proof.
  intros Hi Ha Hb. unfold encrypt_aead, run, bind, this. cbv beta.
  rewrite Hi. cbn [negb]. rewrite Ha. cbn [negb]. cbv beta. rewrite Hb. reflexivity.
Qed.

Lemma decrypt_aead_bad_params input ad tag_in tag_len (w : world B) :
  initialized (self w) = true -> is_aead (self w) = true ->
  bad_crypt_params cfg B input w = true ->
  run (decrypt_aead cfg B input ad tag_in tag_len) w
  = (INVALID_PARAM, on_self (set_last_errno (-1)) w).
Proof.
  intros Hi Ha Hb. unfold decrypt_aead, run, bind, this. cbv beta.
  rewrite Hi. cbn [negb]. rewrite Ha. cbn [negb]. cbv beta. rewrite Hb. reflexivity.
Qed.

End Guards.

(* ================================================================== *)
(** ** Facts about [init] and [close] *)
(* ================================================================== *)

Ltac open_world w :=
  let ci := fresh "ci" in
  destruct w as [ci ? ? ? ?]; destruct ci as [? ? ? ce cd ? ? ?].

Ltac grows :=
  unfold trace_grows; cbn [calls];
  first [ exists []; symmetry; apply app_nil_r
        | rewrite <- ?app_assoc; eexists; reflexivity ].

(** Runs a chain in an equation [E : rw = run ...], one decision at a
    time: the next decision is the innermost scrutinee the evaluation is
    stuck at. *)
Ltac innermost t :=
  lazymatch t with
  | context [match ?x with _ => _ end] => innermost x
  | _ => t
  end.

Ltac run_step E :=
  lazymatch type of E with
  | _ = ?t =>
      lazymatch t with
      | context [match ?x with _ => _ end] =>
          let y := innermost x in destruct y eqn:?; cbn -[Z.eqb] in E
      end
  end.

Ltac init_leaf :=
  unfold contexts_as_asked, contexts_given_up, same_keys, same_iv, same_buffers;
  cbn;
  repeat match goal with H : mode_has _ _ = _ |- _ => rewrite H end;
  repeat split; try reflexivity; try grows;
  try match goal with
      | H : _ = OK |- _ => discriminate H
      | H : OK <> OK |- _ => destruct (H eq_refl)
      end;
  auto.

Section Opening.

Variable cfg : build_config.
Variable B : backend.

Lemma init_with_openssl_result kt mode (w : world B) :
  let rw := run (init_with_openssl B kt mode) w in
  interface_ (self (snd rw)) = interface_ (self w)
  /\ cipher_kt_ (self (snd rw)) = cipher_kt_ (self w)
  /\ same_keys w (snd rw) /\ same_iv w (snd rw) /\ same_buffers w (snd rw)
  /\ trace_grows w (snd rw)
  /\ (fst rw = OK -> contexts_as_asked mode (self (snd rw)))
  /\ (fst rw <> OK -> contexts_given_up (self w) (self (snd rw))).
Proof.
  open_world w. intros rw. remember rw as rw' eqn:E. unfold rw in E. clear rw.
  unfold init_with_openssl, run, bind, call_fn, this, modify, call, setup_errorno,
    return_, pure, skip, on_self in E.
  cbn -[Z.eqb] in E.
  repeat run_step E.
  all: subst rw'; init_leaf.
Qed.

Lemma init_with_mbedtls_result kt mode (w : world B) :
  let rw := run (init_with_mbedtls B kt mode) w in
  interface_ (self (snd rw)) = interface_ (self w)
  /\ cipher_kt_ (self (snd rw)) = cipher_kt_ (self w)
  /\ same_keys w (snd rw) /\ same_iv w (snd rw) /\ same_buffers w (snd rw)
  /\ trace_grows w (snd rw)
  /\ (fst rw = OK -> contexts_as_asked mode (self (snd rw)))
  /\ (fst rw <> OK -> contexts_given_up (self w) (self (snd rw))).
Proof.
  open_world w. intros rw. remember rw as rw' eqn:E. unfold rw in E. clear rw.
  unfold init_with_mbedtls, run, bind, call_fn, this, modify, call, setup_errorno,
    return_, pure, skip, on_self in E.
  cbn -[Z.eqb] in E.
  repeat run_step E.
  all: subst rw'; init_leaf.
Qed.

(** The value of [get_cipher_by_name]: the call leaves the session and
    the buffers alone. *)
Lemma get_cipher_by_name_result nm (w : world B) :
  exists kt l,
    get_cipher_by_name cfg B nm w
    = Next {| self := self w; output := output w; olen := olen w; tag := tag w;
              calls := calls w ++ l |} kt
    /\ (forall w0, value_of (get_cipher_by_name cfg B nm w0) = Some kt)
    /\ (CRYPTO_GENERIC cfg = USE_NONE -> kt = None).
Proof.
  unfold get_cipher_by_name.
  destruct (get_cipher_interface_by_name cfg nm) as [d|].
  - destruct (CRYPTO_GENERIC cfg);
      [destruct (openssl_name d); [|destruct (name d)]| |];
      eexists; eexists; (split; [|split]);
      try (unfold bind, call, pure; cbn; rewrite <- ?app_assoc; reflexivity);
      try (intros; reflexivity); try discriminate.
    all: try (unfold pure; rewrite app_nil_r; destruct w; reflexivity).
  - exists None, []. unfold pure. rewrite app_nil_r. destruct w. repeat split.
Qed.

Lemma init_with_cipher_result d mode (w : world B) :
  method d = EN_CIMT_CIPHER ->
  let rw := run (init_with_cipher cfg B (Some d) mode) w in
  interface_ (self (snd rw)) = interface_ (self w)
  /\ same_keys w (snd rw) /\ same_iv w (snd rw) /\ same_buffers w (snd rw)
  /\ trace_grows w (snd rw)
  /\ value_of (get_cipher_by_name cfg B (name d) w) = Some (cipher_kt_ (self (snd rw)))
  /\ (fst rw = OK ->
      CRYPTO_GENERIC cfg <> USE_NONE /\ cipher_kt_ (self (snd rw)) <> None
      /\ contexts_as_asked mode (self (snd rw)))
  /\ (fst rw <> OK -> contexts_given_up (self w) (self (snd rw))).
Proof.
  intros Hm. cbv zeta.
  destruct (get_cipher_by_name_result (name d) w) as (kt & l & Hk & Hv & Hnone).
  rewrite Hv.
  set (w1 := {| self := set_cipher_kt B kt (self w); output := output w; olen := olen w;
                tag := tag w; calls := calls w ++ l |}).
  assert (Heq : run (init_with_cipher cfg B (Some d) mode) w
                = match kt with
                  | Some k =>
                      match CRYPTO_GENERIC cfg with
                      | USE_OPENSSL => run (init_with_openssl B k mode) w1
                      | USE_MBEDTLS => run (init_with_mbedtls B k mode) w1
                      | USE_NONE => (CIPHER_NOT_SUPPORT, on_self (set_last_errno (-1)) w1)
                      end
                  | None => (CIPHER_NOT_SUPPORT, on_self (set_last_errno (-1)) w1)
                  end).
  { unfold init_with_cipher, run, bind. rewrite Hm.
    cbn [method_eqb method_value Z.eqb Pos.eqb negb]. cbv beta. rewrite Hk.
    unfold modify. cbn [on_self self].
    fold w1. destruct kt; [destruct (CRYPTO_GENERIC cfg)|]; reflexivity. }
  rewrite Heq. clear Heq.
  assert (Hw1 : interface_ (self w1) = interface_ (self w)
                /\ same_keys w w1 /\ same_iv w w1 /\ same_buffers w w1
                /\ calls w1 = calls w ++ l /\ cipher_kt_ (self w1) = kt
                /\ cipher_context_enc (self w1) = cipher_context_enc (self w)
                /\ cipher_context_dec (self w1) = cipher_context_dec (self w)).
  { unfold w1, same_keys, same_iv, same_buffers. destruct w as [ci ? ? ? ?]. destruct ci.
    cbn. repeat split. }
  destruct Hw1 as (W1 & (W2 & W2') & W3 & (W4 & W4' & W4'') & W5 & W6 & W7 & W8).
  assert (Hfail : let w2 := on_self (set_last_errno (-1)) w1 in
                  interface_ (self w2) = interface_ (self w)
                  /\ same_keys w w2 /\ same_iv w w2 /\ same_buffers w w2
                  /\ trace_grows w w2
                  /\ Some kt = Some (cipher_kt_ (self w2))
                  /\ contexts_given_up (self w) (self w2)).
  { unfold w1, same_keys, same_iv, same_buffers, contexts_given_up.
    destruct w as [ci ? ? ? ?]. destruct ci. cbn.
    repeat split; auto. exists l. reflexivity. }
  cbv zeta in Hfail. destruct Hfail as (F1 & F2 & F3 & F4 & F5 & F6 & F7).
  destruct kt as [k|];
    [destruct (CRYPTO_GENERIC cfg) eqn:Eg|];
    try (cbn [fst snd]; repeat split; auto; discriminate).
  - pose proof (init_with_openssl_result k mode w1) as H. cbv zeta in H.
    destruct (run (init_with_openssl B k mode) w1) as [r w2]. cbn [fst snd] in *.
    destruct H as (H1 & H2 & (H3 & H3') & H4 & (H5 & H5' & H5'') & (l2 & H6) & H7 & H8).
    unfold same_keys, same_iv, same_buffers, contexts_given_up in *.
    rewrite <- W7, <- W8.
    split; [congruence|]. split; [split; congruence|]. split; [congruence|].
    split; [repeat split; congruence|].
    split; [exists (l ++ l2); rewrite H6, W5; symmetry; apply app_assoc|].
    split; [congruence|].
    split; [|intros Hr; exact (H8 Hr)].
    intros Hr. split; [discriminate|]. split; [rewrite H2, W6; discriminate|].
    apply H7. exact Hr.
  - pose proof (init_with_mbedtls_result k mode w1) as H. cbv zeta in H.
    destruct (run (init_with_mbedtls B k mode) w1) as [r w2]. cbn [fst snd] in *.
    destruct H as (H1 & H2 & (H3 & H3') & H4 & (H5 & H5' & H5'') & (l2 & H6) & H7 & H8).
    unfold same_keys, same_iv, same_buffers, contexts_given_up in *.
    rewrite <- W7, <- W8.
    split; [congruence|]. split; [split; congruence|]. split; [congruence|].
    split; [repeat split; congruence|].
    split; [exists (l ++ l2); rewrite H6, W5; symmetry; apply app_assoc|].
    split; [congruence|].
    split; [|intros Hr; exact (H8 Hr)].
    intros Hr. split; [discriminate|]. split; [rewrite H2, W6; discriminate|].
    apply H7. exact Hr.
Qed.

Lemma call_fn_run (m : M B error_code_t.type) (w : world B) :
  call_fn B m w = Next (snd (run m w)) (fst (run m w)).
Proof. unfold call_fn, run. destruct (m w); reflexivity. Qed.

Lemma eqb_OK r : error_code_t.eqb r OK = true <-> r = OK.
Proof. destruct r; cbn; split; intros H; try reflexivity; discriminate H. Qed.

(** [init] on an object that is initialized. *)
Lemma init_already nm mode (w : world B) :
  initialized (self w) = true ->
  run (init cfg B nm mode) w = (ALREADY_INITED, on_self (set_last_errno (-1)) w).
Proof. intros H. unfold init, run, bind, this. rewrite H. reflexivity. Qed.

(** [init] on an object that is not: what it keeps, which descriptor it
    installs, and what it hands over with it. *)
Lemma init_result nm mode (w : world B) :
  initialized (self w) = false ->
  let rw := run (init cfg B nm mode) w in
  same_iv w (snd rw) /\ same_buffers w (snd rw) /\ trace_grows w (snd rw)
  /\ (fst rw = OK ->
      exists d,
        get_cipher_interface_by_name cfg nm = Some d
        /\ interface_ (self (snd rw)) = Some d
        /\ (method d = EN_CIMT_CIPHER ->
            CRYPTO_GENERIC cfg <> USE_NONE
            /\ value_of (get_cipher_by_name cfg B (name d) w)
               = Some (cipher_kt_ (self (snd rw)))
            /\ cipher_kt_ (self (snd rw)) <> None
            /\ contexts_as_asked mode (self (snd rw))
            /\ same_keys w (snd rw))
        /\ (method d <> EN_CIMT_CIPHER ->
            cipher_context_enc (self (snd rw)) = cipher_context_enc (self w)
            /\ cipher_context_dec (self (snd rw)) = cipher_context_dec (self w)
            /\ calls (snd rw) = calls w)
        /\ (method d = EN_CIMT_XXTEA ->
            xxtea_context_key (self (snd rw)) = xxtea_key_zero)
        /\ (is_libsodium_method (method d) = true ->
            libsodium_context_key (self (snd rw))
            = repeat x00 (Z.to_nat (sizeof_libsodium_key cfg))))
  /\ (fst rw <> OK ->
      interface_ (self (snd rw)) = interface_ (self w)
      /\ same_keys w (snd rw)
      /\ contexts_given_up (self w) (self (snd rw))).
Proof.
  intros Hu. cbv zeta.
  assert (Hq : forall e r, r <> OK ->
            run (init cfg B nm mode) w = (r, on_self (set_last_errno e) w) ->
            same_iv w (snd (run (init cfg B nm mode) w))
            /\ same_buffers w (snd (run (init cfg B nm mode) w))
            /\ trace_grows w (snd (run (init cfg B nm mode) w))
            /\ (fst (run (init cfg B nm mode) w) = OK ->
                exists d,
                  get_cipher_interface_by_name cfg nm = Some d
                  /\ interface_ (self (snd (run (init cfg B nm mode) w))) = Some d
                  /\ (method d = EN_CIMT_CIPHER ->
                      CRYPTO_GENERIC cfg <> USE_NONE
                      /\ value_of (get_cipher_by_name cfg B (name d) w)
                         = Some (cipher_kt_ (self (snd (run (init cfg B nm mode) w))))
                      /\ cipher_kt_ (self (snd (run (init cfg B nm mode) w))) <> None
                      /\ contexts_as_asked mode (self (snd (run (init cfg B nm mode) w)))
                      /\ same_keys w (snd (run (init cfg B nm mode) w)))
                  /\ (method d <> EN_CIMT_CIPHER ->
                      cipher_context_enc (self (snd (run (init cfg B nm mode) w)))
                      = cipher_context_enc (self w)
                      /\ cipher_context_dec (self (snd (run (init cfg B nm mode) w)))
                         = cipher_context_dec (self w)
                      /\ calls (snd (run (init cfg B nm mode) w)) = calls w)
                  /\ (method d = EN_CIMT_XXTEA ->
                      xxtea_context_key (self (snd (run (init cfg B nm mode) w)))
                      = xxtea_key_zero)
                  /\ (is_libsodium_method (method d) = true ->
                      libsodium_context_key (self (snd (run (init cfg B nm mode) w)))
                      = repeat x00 (Z.to_nat (sizeof_libsodium_key cfg))))
            /\ (fst (run (init cfg B nm mode) w) <> OK ->
                interface_ (self (snd (run (init cfg B nm mode) w))) = interface_ (self w)
                /\ same_keys w (snd (run (init cfg B nm mode) w))
                /\ contexts_given_up (self w) (self (snd (run (init cfg B nm mode) w))))).
  { intros e r Hr Heq. rewrite Heq. cbn [fst snd].
    unfold same_iv, same_buffers, same_keys, contexts_given_up.
    destruct w as [ci ? ? ? ?]. destruct ci. cbn.
    repeat split; auto; try (exists []; symmetry; apply app_nil_r).
    intros H. destruct (Hr H). }
  destruct nm as [n|].
  2:{ apply (Hq (-1) INVALID_PARAM); [discriminate|].
      unfold init, run, bind, this. rewrite Hu. reflexivity. }
  destruct (get_cipher_interface_by_name cfg (Some n)) as [d|] eqn:El.
  2:{ apply (Hq (-1) CIPHER_NOT_SUPPORT); [discriminate|].
      unfold init, run, bind, this. rewrite Hu, El. reflexivity. }
  clear Hq.
  destruct (method d) eqn:Em.
  all: try solve
             [ unfold init, run, bind, this; rewrite Hu, El, Em;
               unfold same_iv, same_buffers, same_keys, contexts_given_up;
               destruct w as [ci ? ? ? ?]; destruct ci; cbn;
               repeat split; auto; try congruence;
               try (exists []; symmetry; apply app_nil_r);
               try (intros _; exists d; rewrite Em;
                    cbn [is_libsodium_method is_libsodium_stream is_libsodium_aead orb];
                    repeat split; intros; try reflexivity; congruence) ].
  (* the generic back-end *)
  pose proof (init_with_cipher_result d mode w Em) as H. cbv zeta in H.
  assert (Heq : run (init cfg B (Some n) mode) w
                = (fst (run (init_with_cipher cfg B (Some d) mode) w),
                   if error_code_t.eqb (fst (run (init_with_cipher cfg B (Some d) mode) w)) OK
                   then on_self (set_interface (Some d))
                          (snd (run (init_with_cipher cfg B (Some d) mode) w))
                   else snd (run (init_with_cipher cfg B (Some d) mode) w))).
  { unfold init, run at 1, bind, this. rewrite Hu, El, Em. rewrite call_fn_run.
    destruct (error_code_t.eqb (fst (run (init_with_cipher cfg B (Some d) mode) w)) OK);
      reflexivity. }
  rewrite Heq. clear Heq.
  destruct (run (init_with_cipher cfg B (Some d) mode) w) as [r w1]. cbn [fst snd] in *.
  destruct H as (H1 & (H2 & H2') & H3 & (H4 & H4' & H4'') & (l & H5) & H6 & H7 & H8).
  unfold same_iv, same_buffers, same_keys, trace_grows in *.
  destruct (error_code_t.eqb r OK) eqn:Er.
  - apply eqb_OK in Er. subst r. destruct (H7 eq_refl) as (G1 & G2 & G3 & G4).
    unfold contexts_as_asked.
    cbn [on_self self output olen tag calls set_interface interface_ cipher_kt_
         cipher_context_enc cipher_context_dec libsodium_context_key
         xxtea_context_key iv_].
    split; [assumption|]. split; [auto|]. split; [exists l; assumption|].
    split; [|intros H; congruence].
    intros _. exists d. rewrite Em.
    split; [reflexivity|]. split; [reflexivity|].
    split; [intros _; repeat split; assumption|].
    split; [intros H; congruence|]. split; [discriminate|]. discriminate.
  - assert (Hr : r <> OK) by (intros ->; discriminate Er).
    split; [assumption|]. split; [auto|]. split; [exists l; assumption|].
    split; [intros H; congruence|].
    intros _. split; [assumption|]. split; [auto|]. apply H8. exact Hr.
Qed.

End Opening.

(* ================================================================== *)
(** ** More facts about the registry *)
(* ================================================================== *)

Lemma strcasecmp_refl s : UTIL_STRFUNC_STRCASE_CMP s s = 0.
Proof. apply strcasecmp_zero. reflexivity. Qed.

Lemma named_entries_in tbl s d :
  In (s, d) (named_entries tbl) -> In d tbl /\ name d = Some s.
Proof.
  induction tbl as [|e tbl IH]; simpl; [contradiction|].
  destruct (name e) as [n|] eqn:En; [|contradiction].
  intros [H | H].
  - injection H as <- <-. auto.
  - destruct (IH H). auto.
Qed.

(** The loop finds an entry as soon as one it visits matches. *)
Lemma scan_finds nm tbl s d :
  In (s, d) (named_entries tbl) -> UTIL_STRFUNC_STRCASE_CMP nm s = 0 ->
  exists d', scan_supported_ciphers nm tbl = Some d'.
Proof.
  induction tbl as [|e tbl IH]; simpl; [contradiction|].
  destruct (name e) as [n|] eqn:En; [|contradiction].
  intros Hin Hs.
  destruct (UTIL_STRFUNC_STRCASE_CMP nm n =? 0) eqn:E; [eauto|].
  destruct Hin as [H | H]; [|eauto].
  injection H as <- <-. rewrite Hs in E. discriminate E.
Qed.

(** What it finds is an entry it visited. *)
Lemma scan_found nm tbl d :
  scan_supported_ciphers nm tbl = Some d ->
  exists s, In (s, d) (named_entries tbl) /\ UTIL_STRFUNC_STRCASE_CMP nm s = 0.
Proof.
  induction tbl as [|e tbl IH]; simpl; [discriminate|].
  destruct (name e) as [n|] eqn:En; [|discriminate].
  destruct (UTIL_STRFUNC_STRCASE_CMP nm n =? 0) eqn:E.
  - intros H. injection H as <-. exists n. apply Z.eqb_eq in E.
    split; [left; reflexivity | exact E].
  - intros H. destruct (IH H) as (s & Hs & Hc). exists s.
    split; [right; exact Hs | exact Hc].
Qed.

(** The table is a list of named entries, none with the method of the
    terminator, followed by the terminator. *)
Lemma table_shape cfg :
  exists l,
    supported_ciphers cfg
    = l ++ [ {| name := None; method := EN_CIMT_INVALID; openssl_name := None;
                mbedtls_name := None; flags := 0 |} ]
    /\ Forall (fun e => (exists s, name e = Some s) /\ method e <> EN_CIMT_INVALID) l.
Proof.
  exists (removelast (supported_ciphers cfg)).
  unfold supported_ciphers. split_flags cfg; cbn [when app removelast];
    (split; [reflexivity|]);
    repeat (constructor; [split; [eexists; reflexivity | discriminate]|]);
    constructor.
Qed.

Lemma named_entries_prefix l rest d :
  Forall (fun e => (exists s, name e = Some s) /\ method e <> EN_CIMT_INVALID) l ->
  In d l ->
  exists s, name d = Some s /\ In (s, d) (named_entries (l ++ rest))
            /\ method d <> EN_CIMT_INVALID.
Proof.
  induction 1 as [|e l ((s & Hs) & Hm) Hl IH]; [contradiction|].
  cbn [app named_entries]. rewrite Hs. intros [<- | Hin].
  - exists s. split; [exact Hs|]. split; [left; reflexivity | exact Hm].
  - destruct (IH Hin) as (s' & H1 & H2 & H3). exists s'.
    split; [exact H1|]. split; [right; exact H2 | exact H3].
Qed.

(** The loops visit every entry of the table but the terminator, and no
    entry they visit has the method of the terminator. *)
Lemma named_entries_table cfg d :
  In d (supported_ciphers cfg) ->
  match name d with
  | Some s => In (s, d) (named_entries (supported_ciphers cfg))
              /\ method d <> EN_CIMT_INVALID
  | None => method d = EN_CIMT_INVALID
  end.
Proof.
  destruct (table_shape cfg) as (l & -> & Hl). intros Hin.
  apply in_app_or in Hin. destruct Hin as [Hin | [<- | []]]; [|reflexivity].
  match goal with
  | |- context [named_entries (l ++ ?r)] =>
      destruct (named_entries_prefix l r d Hl Hin) as (s & -> & H1 & H2)
  end.
  auto.
Qed.

Lemma lookup_registered cfg nm d :
  get_cipher_interface_by_name cfg nm = Some d ->
  In d (supported_ciphers cfg) /\ name d <> None /\ method d <> EN_CIMT_INVALID.
Proof.
  destruct nm as [n|]; [|discriminate]. cbn [get_cipher_interface_by_name].
  intros H. destruct (scan_found _ _ _ H) as (s & Hs & _).
  destruct (named_entries_in _ _ _ Hs) as (Hin & Hn).
  pose proof (named_entries_table cfg d Hin) as Ht. rewrite Hn in Ht.
  split; [exact Hin|]. split; [congruence | tauto].
Qed.

Lemma option_string_eqb_eq a b : option_string_eqb a b = true -> a = b.
Proof.
  destruct a, b; cbn; intros H; try discriminate H; [|reflexivity].
  apply String.eqb_eq in H. now subst.
Qed.

Lemma method_eqb_eq a b : method_eqb a b = true -> a = b.
Proof. destruct a, b; cbn; intros H; try discriminate H; reflexivity. Qed.

Lemma same_entry_eq a b : same_entry a b = true -> a = b.
Proof.
  unfold same_entry. intros H.
  repeat (apply andb_prop in H; destruct H as [H ?]).
  destruct a, b. cbn in *.
  repeat match goal with
         | H : option_string_eqb _ _ = true |- _ => apply option_string_eqb_eq in H
         | H : method_eqb _ _ = true |- _ => apply method_eqb_eq in H
         | H : (_ =? _) = true |- _ => apply Z.eqb_eq in H
         end.
  congruence.
Qed.

(** A generic entry is the first entry of its name: looked up by its own
    name, it is what the lookup gives. *)
Lemma generic_entries_found cfg :
  forallb (fun p => negb (method_eqb (method (snd p)) EN_CIMT_CIPHER)
                    || found_by_own_name cfg (snd p))
          (named_entries (supported_ciphers cfg)) = true.
Proof.
  unfold found_by_own_name, get_cipher_interface_by_name, supported_ciphers.
  split_flags cfg; vm_compute; reflexivity.
Qed.

Lemma generic_entry_lookup cfg d :
  In d (supported_ciphers cfg) -> method d = EN_CIMT_CIPHER ->
  get_cipher_interface_by_name cfg (name d) = Some d.
Proof.
  intros Hin Hm.
  pose proof (named_entries_table cfg d Hin) as Ht.
  destruct (name d) as [s|] eqn:Hn; [|congruence].
  destruct Ht as (Ht & _).
  pose proof (generic_entries_found cfg) as Hf.
  rewrite forallb_forall in Hf. specialize (Hf _ Ht). cbn [snd] in Hf.
  rewrite Hm in Hf. cbn [method_eqb method_value Z.eqb Pos.eqb negb orb] in Hf.
  unfold found_by_own_name in Hf. rewrite Hn in Hf.
  destruct (get_cipher_interface_by_name cfg (Some s)) as [d'|]; [|discriminate Hf].
  apply same_entry_eq in Hf. congruence.
Qed.

(** *** Names that occur twice

    [chacha20] and [chacha20-poly1305-ietf] name a generic entry and,
    further down, a Sodium entry. *)

Lemma chacha20_poly1305_ietf_prefers_generic cfg nm :
  CRYPTO_USE_CHACHA20_POLY1305_WITH_CIPHER cfg = true ->
  UTIL_STRFUNC_STRCASE_CMP nm "chacha20-poly1305-ietf" = 0 ->
  get_cipher_interface_by_name cfg (Some nm)
  = Some (entry "chacha20-poly1305-ietf" EN_CIMT_CIPHER (Some "chacha20-poly1305"%string)
            "CHACHA20-POLY1305" AEAD_VARIABLE_IV).
Proof.
  intros Hc Hnm.
  assert (Hne : forall n, map tolower (cstr n)
                          <> map tolower (cstr "chacha20-poly1305-ietf") ->
                          (UTIL_STRFUNC_STRCASE_CMP nm n =? 0) = false).
  { intros n Hn. apply Z.eqb_neq. intros H. apply Hn.
    apply strcasecmp_zero in H, Hnm. congruence. }
  apply Z.eqb_eq in Hnm.
  unfold get_cipher_interface_by_name, supported_ciphers. rewrite Hc.
  destruct (CRYPTO_USE_CHACHA20_WITH_CIPHER cfg), (CRYPTO_USE_LIBSODIUM cfg),
    (HAVE_crypto_stream_xchacha20 cfg), (HAVE_crypto_stream_xsalsa20 cfg);
    cbn [app when scan_supported_ciphers entry name];
    repeat (rewrite Hne by (vm_compute; discriminate));
    rewrite Hnm; reflexivity.
Qed.

Lemma sodium_twins cfg d :
  In d (supported_ciphers cfg) ->
  (method d = EN_CIMT_LIBSODIUM_CHACHA20 -> name d = Some "chacha20"%string)
  /\ (method d = EN_CIMT_LIBSODIUM_CHACHA20_POLY1305_IETF ->
      name d = Some "chacha20-poly1305-ietf"%string).
Proof.
  unfold supported_ciphers. split_flags cfg; simpl; intros H;
    repeat (destruct H as [<- | H];
            [split; intros Hx; try discriminate Hx; reflexivity|]);
    contradiction.
Qed.

Lemma lookup_matches cfg nm d :
  get_cipher_interface_by_name cfg (Some nm) = Some d ->
  exists s, name d = Some s /\ UTIL_STRFUNC_STRCASE_CMP nm s = 0.
Proof.
  cbn [get_cipher_interface_by_name]. intros H.
  destruct (scan_found _ _ _ H) as (s & Hs & Hc).
  destruct (named_entries_in _ _ _ Hs) as (_ & Hn). eauto.
Qed.

Lemma sodium_chacha20_shadowed cfg nm d :
  CRYPTO_USE_CHACHA20_WITH_CIPHER cfg = true ->
  get_cipher_interface_by_name cfg nm = Some d ->
  method d <> EN_CIMT_LIBSODIUM_CHACHA20.
Proof.
  intros Hc Hl Hm. destruct nm as [n|]; [|discriminate Hl].
  destruct (lookup_registered cfg _ d Hl) as (Hin & _ & _).
  destruct (lookup_matches cfg n d Hl) as (s & Hs & Hcmp).
  destruct (sodium_twins cfg d Hin) as (Ht & _). rewrite (Ht Hm) in Hs.
  injection Hs as <-.
  assert (Hsod : CRYPTO_USE_LIBSODIUM cfg = true).
  { apply (registry_libsodium cfg d Hin). rewrite Hm. reflexivity. }
  destruct (chacha20_prefers_generic cfg n Hc Hsod Hcmp) as (Hg & _).
  rewrite Hg in Hl. injection Hl as <-. discriminate Hm.
Qed.

Lemma sodium_chacha20_poly1305_ietf_shadowed cfg nm d :
  CRYPTO_USE_CHACHA20_POLY1305_WITH_CIPHER cfg = true ->
  get_cipher_interface_by_name cfg nm = Some d ->
  method d <> EN_CIMT_LIBSODIUM_CHACHA20_POLY1305_IETF.
Proof.
  intros Hc Hl Hm. destruct nm as [n|]; [|discriminate Hl].
  destruct (lookup_registered cfg _ d Hl) as (Hin & _ & _).
  destruct (lookup_matches cfg n d Hl) as (s & Hs & Hcmp).
  destruct (sodium_twins cfg d Hin) as (_ & Ht). rewrite (Ht Hm) in Hs.
  injection Hs as <-.
  rewrite (chacha20_poly1305_ietf_prefers_generic cfg n Hc Hcmp) in Hl.
  injection Hl as <-. discriminate Hm.
Qed.

(* ================================================================== *)
(** ** Facts about [get_all_cipher_names] *)
(* ================================================================== *)

Section ListingFacts.

Variable cfg : build_config.
Variable B : backend.

Lemma traced_nil (w : world B) : traced w [] = w.
Proof. unfold traced. rewrite app_nil_r. destruct w. reflexivity. Qed.

Lemma traced_traced (w : world B) l l' : traced (traced w l) l' = traced w (l ++ l').
Proof. unfold traced. cbn. rewrite app_assoc. reflexivity. Qed.

(** Asking the back-end for the cipher of a registered name. *)
Lemma get_cipher_by_name_known nm d (w : world B) :
  get_cipher_interface_by_name cfg nm = Some d ->
  exists kt l,
    get_cipher_by_name cfg B nm w = Next (traced w l) kt
    /\ is_null kt = negb (backend_has cfg B d).
Proof.
  intros Hl. unfold get_cipher_by_name, backend_has. rewrite Hl.
  destruct (CRYPTO_GENERIC cfg).
  - destruct (openssl_name d) as [o|]; [|destruct (name d) as [n|]];
      eexists; exists [CALL_generic FN_EVP_get_cipherbyname];
      (split; [reflexivity|]); rewrite ?negb_involutive; reflexivity.
  - eexists; exists [CALL_generic FN_mbedtls_cipher_info_from_string];
      (split; [reflexivity|]); rewrite ?negb_involutive; reflexivity.
  - exists None, []. rewrite traced_nil. split; reflexivity.
Qed.

Lemma push_cipher_names_spec tbl : forall ret (w : world B),
  (forall s d, In (s, d) (named_entries tbl) ->
               method d <> EN_CIMT_INVALID
               /\ (method d = EN_CIMT_CIPHER ->
                   get_cipher_interface_by_name cfg (Some s) = Some d)) ->
  exists l,
    push_cipher_names cfg B tbl ret w
    = Next (traced w l)
        (ret ++ map fst (filter (fun p => is_listed cfg B (snd p)) (named_entries tbl))).
Proof.
  induction tbl as [|e tbl IH]; intros ret w Ht.
  - exists []. cbn. rewrite traced_nil, app_nil_r. reflexivity.
  - cbn [push_cipher_names named_entries].
    destruct (name e) as [n|] eqn:En.
    2:{ exists []. cbn. rewrite traced_nil, app_nil_r. reflexivity. }
    assert (Hrest : forall s d, In (s, d) (named_entries tbl) ->
                      method d <> EN_CIMT_INVALID
                      /\ (method d = EN_CIMT_CIPHER ->
                          get_cipher_interface_by_name cfg (Some s) = Some d)).
    { intros s d H. apply Ht. cbn [named_entries]. rewrite En. right. exact H. }
    assert (He : method e <> EN_CIMT_INVALID
                 /\ (method e = EN_CIMT_CIPHER ->
                     get_cipher_interface_by_name cfg (Some n) = Some e)).
    { apply Ht. cbn [named_entries]. rewrite En. left. reflexivity. }
    destruct He as (Hinv & Hgen).
    cbn [filter snd]. unfold is_listed at 1.
    destruct (method e) eqn:Em; try (destruct (Hinv eq_refl));
      cbn [method_value Z.ltb Z.gtb Z.compare Pos.compare Pos.compare_cont
           method_eqb Z.eqb Pos.eqb is_libsodium_method is_libsodium_stream
           is_libsodium_aead orb andb].
    all: try (destruct (IH (ret ++ [n]) w Hrest) as (l & ->); exists l;
              cbn [map fst]; rewrite <- app_assoc; reflexivity).
    all: try (destruct (IH ret w Hrest) as (l & ->); exists l; reflexivity).
    (* a generic entry *)
    destruct (get_cipher_by_name_known (Some n) e w (Hgen eq_refl)) as (kt & l1 & Hk & Hnull).
    unfold bind. rewrite Hk.
    destruct (backend_has cfg B e); cbn [negb] in Hnull; rewrite Hnull.
    + destruct (IH (ret ++ [n]) (traced w l1) Hrest) as (l & ->). exists (l1 ++ l).
      rewrite traced_traced. cbn [map fst]. rewrite <- app_assoc. reflexivity.
    + destruct (IH ret (traced w l1) Hrest) as (l & ->). exists (l1 ++ l).
      rewrite traced_traced. reflexivity.
Qed.

End ListingFacts.

(* ================================================================== *)
(** ** Facts about [close], [set_key] and [set_iv] *)
(* ================================================================== *)

(** [run_step] with the getters and the copies left folded. *)
Ltac key_step E :=
  lazymatch type of E with
  | _ = ?t =>
      lazymatch t with
      | context [match ?x with _ => _ end] =>
          let y := innermost x in
          destruct y eqn:?;
          cbn -[Z.eqb Z.gtb Z.geb Z.ltb Z.leb Z.div Z.mul Z.land get_key_bits get_iv_size
                memcpy to_int repeat size] in E
      end
  end.

Section Closing.

Variable cfg : build_config.
Variable B : backend.

Ltac session_leaf :=
  unfold same_descriptor, same_keys, same_iv, same_buffers, live_contexts;
  cbn;
  repeat split; try reflexivity; try grows;
  try match goal with
      | H : _ = OK |- _ => discriminate H
      | H : ?x <> ?x |- _ => destruct (H eq_refl)
      | H : ?x = ?y |- _ => discriminate H
      end;
  auto.

(** [close] on an initialized object: the descriptor goes, the keys and
    the IV stay, and under a generic descriptor every context held is
    released by one call. *)
Lemma close_result d (w : world B) :
  interface_ (self w) = Some d -> method d <> EN_CIMT_INVALID ->
  let rw := run (close cfg B) w in
  interface_ (self (snd rw)) = None
  /\ same_keys w (snd rw) /\ same_iv w (snd rw) /\ same_buffers w (snd rw)
  /\ last_errorno_ (self (snd rw)) = 0
  /\ (method d = EN_CIMT_CIPHER -> CRYPTO_GENERIC cfg <> USE_NONE ->
      fst rw = OK /\ live_contexts (self (snd rw)) = 0%nat
      /\ exists l, calls (snd rw) = calls w ++ l
                   /\ length (filter is_free_call l) = live_contexts (self w))
  /\ (method d <> EN_CIMT_CIPHER ->
      cipher_context_enc (self (snd rw)) = cipher_context_enc (self w)
      /\ cipher_context_dec (self (snd rw)) = cipher_context_dec (self w)
      /\ calls (snd rw) = calls w)
  /\ (method d = EN_CIMT_XXTEA \/ is_libsodium_method (method d) = true -> fst rw = OK).
Proof.
  intros Hd Hm. open_world w. cbn in Hd. subst.
  intros rw. remember rw as rw' eqn:E. unfold rw in E. clear rw.
  unfold close, close_with_cipher, run, bind, call_fn, this, modify, call, setup_errorno,
    return_, pure, skip, on_self, initialized in E.
  cbn in E.
  destruct (method d) eqn:Em; try (destruct (Hm eq_refl)); cbn in E;
    try (subst rw'; session_leaf; intros [H | H]; discriminate H).
  rewrite ?Em in E. cbn in E.
  destruct (CRYPTO_GENERIC cfg) eqn:Eg; destruct ce, cd; cbn in E; subst rw';
    unfold same_keys, same_iv, same_buffers, live_contexts; cbn;
    repeat split; try reflexivity; try congruence;
    try (exists []; split; [symmetry; apply app_nil_r | reflexivity]);
    try (eexists; split; [rewrite <- ?app_assoc; reflexivity | reflexivity]).
Qed.

(** [set_key] never touches the descriptor, the IV or the caller's
    buffers, and it neither creates nor releases a context. *)
Lemma set_key_effect key key_bitlen (w : world B) :
  let rw := run (set_key cfg B key key_bitlen) w in
  same_descriptor w (snd rw) /\ same_iv w (snd rw) /\ same_buffers w (snd rw)
  /\ trace_grows w (snd rw)
  /\ is_null (cipher_context_enc (self (snd rw))) = is_null (cipher_context_enc (self w))
  /\ is_null (cipher_context_dec (self (snd rw))) = is_null (cipher_context_dec (self w)).
Proof.
  open_world w.
  intros rw. remember rw as rw' eqn:E. unfold rw in E. clear rw.
  unfold set_key, set_key_with_cipher, run, bind, call_fn, this, modify, call,
    setup_errorno, return_, pure, skip, on_self in E.
  cbn -[Z.eqb Z.gtb Z.geb Z.ltb Z.leb Z.div Z.mul Z.land get_key_bits get_iv_size
        memcpy to_int repeat size] in E.
  repeat key_step E.
  all: subst rw'; unfold same_descriptor, same_iv, same_buffers; cbn;
    repeat split; try reflexivity; grows.
Qed.

(** [set_iv] touches the IV and the error number only. *)
Lemma set_iv_effect iv (w : world B) :
  let rw := run (set_iv cfg B iv) w in
  same_descriptor w (snd rw) /\ same_keys w (snd rw) /\ same_buffers w (snd rw)
  /\ calls (snd rw) = calls w
  /\ cipher_context_enc (self (snd rw)) = cipher_context_enc (self w)
  /\ cipher_context_dec (self (snd rw)) = cipher_context_dec (self w)
  /\ (fst rw <> OK -> iv_ (self (snd rw)) = iv_ (self w)).
Proof.
  open_world w.
  intros rw. remember rw as rw' eqn:E. unfold rw in E. clear rw.
  unfold set_iv, run, bind, call_fn, this, modify, call,
    setup_errorno, return_, pure, skip, on_self, initialized in E.
  cbn -[Z.eqb Z.gtb Z.geb Z.ltb Z.leb Z.div Z.mul Z.land get_key_bits get_iv_size
        memcpy to_int repeat size] in E.
  repeat key_step E.
  all: subst rw'; unfold same_descriptor, same_keys, same_buffers; cbn;
    repeat split; try reflexivity; congruence.
Qed.

End Closing.

(* ================================================================== *)
(** ** The session across calls *)
(* ================================================================== *)

Section Across.

Variable cfg : build_config.
Variable B : backend.

(** *** An object that is not initialized *)

Lemma not_initialized_crypt dr input (w : world B) :
  initialized (self w) = false ->
  run (crypt cfg B dr input) w = (NOT_INITED, on_self (set_last_errno 0) w).
Proof. intros H. unfold crypt, run, bind, this. rewrite H. reflexivity. Qed.

Lemma not_initialized_encrypt_aead input ad tag_len (w : world B) :
  initialized (self w) = false ->
  run (encrypt_aead cfg B input ad tag_len) w = (NOT_INITED, on_self (set_last_errno 0) w).
Proof. intros H. unfold encrypt_aead, run, bind, this. rewrite H. reflexivity. Qed.

Lemma not_initialized_decrypt_aead input ad tag_in tag_len (w : world B) :
  initialized (self w) = false ->
  run (decrypt_aead cfg B input ad tag_in tag_len) w
  = (NOT_INITED, on_self (set_last_errno 0) w).
Proof. intros H. unfold decrypt_aead, run, bind, this. rewrite H. reflexivity. Qed.

Lemma not_initialized_set_iv iv (w : world B) :
  initialized (self w) = false ->
  run (set_iv cfg B iv) w = (NOT_INITED, on_self (set_last_errno 0) w).
Proof. intros H. unfold set_iv, run, bind, this. rewrite H. reflexivity. Qed.

Lemma not_initialized_close (w : world B) :
  initialized (self w) = false ->
  run (close cfg B) w = (NOT_INITED, on_self (set_last_errno 0) w).
Proof. intros H. unfold close, run, bind, this. rewrite H. reflexivity. Qed.

Lemma not_initialized_set_key key key_bitlen (w : world B) :
  initialized (self w) = false ->
  exists e, run (set_key cfg B key key_bitlen) w
            = (NOT_INITED, on_self (set_last_errno e) w).
Proof.
  unfold initialized, set_key, run, bind, this.
  destruct (interface_ (self w)) as [i|]; [|exists 0; reflexivity].
  destruct (method i); cbn; intros H; try discriminate H.
  exists (-1). reflexivity.
Qed.

Lemma not_initialized_sizes (ci : cipher B) :
  initialized ci = false ->
  get_iv_size cfg B ci = 0 /\ get_key_bits cfg B ci = 0 /\ get_block_size cfg B ci = 0.
Proof.
  unfold initialized, get_iv_size, get_key_bits, get_block_size.
  destruct (interface_ ci) as [i|]; [|auto].
  destruct (method i); cbn; intros H; try discriminate H. auto.
Qed.

(** *** The IV a crypto call leaves *)

Lemma frame_iv d (w w' : world B) :
  crypto_frame d (padded cfg w) w' -> iv_ (self w') = padded_iv cfg B (self w).
Proof. intros (_ & _ & H & _). rewrite H. reflexivity. Qed.

Lemma crypt_pads dr input (w : world B) :
  initialized (self w) = true -> is_aead (self w) = false ->
  bad_crypt_params cfg B input w = false ->
  iv_ (self (snd (run (crypt cfg B dr input) w))) = padded_iv cfg B (self w).
Proof.
  intros Hi Ha Hb.
  apply (crypt_ways cfg B dr input w
           (fun rw => iv_ (self (snd rw)) = padded_iv cfg B (self w)));
    try congruence.
  intros i inp _ _ _ _ _.
  refine (conj _ (conj _ (conj _ (conj _ (conj _ _))))); intros;
    first [ rewrite run_state; apply (frame_iv dr); chain_frame | reflexivity ].
Qed.

Lemma encrypt_aead_pads input ad tag_len (w : world B) :
  initialized (self w) = true -> is_aead (self w) = true ->
  bad_crypt_params cfg B input w = false ->
  iv_ (self (snd (run (encrypt_aead cfg B input ad tag_len) w)))
  = padded_iv cfg B (self w).
Proof.
  intros Hi Ha Hb.
  apply (encrypt_aead_ways cfg B input ad tag_len w
           (fun rw => iv_ (self (snd rw)) = padded_iv cfg B (self w)));
    try congruence.
  intros i inp _ _ _ _ _.
  refine (conj _ (conj _ (conj _ (conj _ _)))); intros;
    first [ rewrite run_state; apply (frame_iv ENCRYPT); chain_frame | reflexivity ].
Qed.

Lemma decrypt_aead_pads input ad tag_in tag_len (w : world B) :
  initialized (self w) = true -> is_aead (self w) = true ->
  bad_crypt_params cfg B input w = false ->
  iv_ (self (snd (run (decrypt_aead cfg B input ad tag_in tag_len) w)))
  = padded_iv cfg B (self w).
Proof.
  intros Hi Ha Hb.
  apply (decrypt_aead_ways cfg B input ad tag_in tag_len w
           (fun rw => iv_ (self (snd rw)) = padded_iv cfg B (self w)));
    try congruence.
  intros i inp _ _ _ _ _.
  refine (conj _ (conj _ (conj _ (conj _ (conj _ _))))); intros;
    first [ rewrite run_state; apply (frame_iv DECRYPT); chain_frame | reflexivity ].
Qed.

(** The padded IV: the IV as it is, followed by zero bytes up to the
    size the method wants. *)
Lemma padded_iv_shape (ci : cipher B) :
  exists k, padded_iv cfg B ci = iv_ ci ++ repeat x00 k
            /\ (k <> 0%nat -> size (iv_ ci ++ repeat x00 k) = get_iv_size cfg B ci).
Proof.
  unfold padded_iv.
  destruct (interface_ ci) as [i|];
    [|exists 0%nat; rewrite app_nil_r; split; [reflexivity | congruence]].
  match goal with |- context [if ?c then _ else _] => destruct c eqn:Hc end;
    [|exists 0%nat; rewrite app_nil_r; split; [reflexivity | congruence]].
  apply andb_prop in Hc. destruct Hc as [Hc _].
  apply andb_prop in Hc. destruct Hc as [_ Hlt]. apply Z.ltb_lt in Hlt.
  unfold size in Hlt.
  exists (Z.to_nat (get_iv_size cfg B ci) - length (iv_ ci))%nat.
  unfold resize0. rewrite firstn_all2 by lia.
  split; [reflexivity|]. intros _. unfold size.
  rewrite length_app, repeat_length. lia.
Qed.

(** *** A direction without a context *)

Lemma crypt_disabled dr d inp (w : world B) :
  interface_ (self w) = Some d -> method d = EN_CIMT_CIPHER ->
  is_aead (self w) = false ->
  bad_crypt_params cfg B (Some inp) w = false ->
  context_of B dr (self w) = None ->
  run (crypt cfg B dr (Some inp)) w
  = (CIPHER_DISABLED, on_self (set_last_errno 0) (padded cfg w)).
Proof.
  intros Hd Hm Ha Hb Hc.
  unfold crypt, run, bind, this, initialized. cbv beta. rewrite Hd, Hm.
  cbn [method_eqb method_value Z.eqb Pos.eqb negb]. rewrite Ha. cbv beta.
  rewrite Hb, pad_iv_spec, Hc. reflexivity.
Qed.

Lemma encrypt_aead_disabled d inp ad tag_len (w : world B) :
  interface_ (self w) = Some d -> method d = EN_CIMT_CIPHER ->
  is_aead (self w) = true ->
  bad_crypt_params cfg B (Some inp) w = false ->
  cipher_context_enc (self w) = None ->
  run (encrypt_aead cfg B (Some inp) ad tag_len) w
  = (CIPHER_DISABLED, on_self (set_last_errno 0) (padded cfg w)).
Proof.
  intros Hd Hm Ha Hb Hc.
  unfold encrypt_aead, run, bind, this, initialized. cbv beta. rewrite Hd, Hm.
  cbn [method_eqb method_value Z.eqb Pos.eqb negb]. rewrite Ha.
  cbn [negb]. cbv beta.
  rewrite Hb, pad_iv_spec, Hc. reflexivity.
Qed.

Lemma decrypt_aead_disabled d inp ad tag_in tag_len (w : world B) :
  interface_ (self w) = Some d -> method d = EN_CIMT_CIPHER ->
  is_aead (self w) = true ->
  bad_crypt_params cfg B (Some inp) w = false ->
  cipher_context_dec (self w) = None ->
  run (decrypt_aead cfg B (Some inp) ad tag_in tag_len) w
  = (CIPHER_DISABLED, on_self (set_last_errno 0) (padded cfg w)).
Proof.
  intros Hd Hm Ha Hb Hc.
  unfold decrypt_aead, run, bind, this, initialized. cbv beta. rewrite Hd, Hm.
  cbn [method_eqb method_value Z.eqb Pos.eqb negb]. rewrite Ha.
  cbn [negb]. cbv beta.
  rewrite Hb, pad_iv_spec, Hc. reflexivity.
Qed.

(** *** A tag buffer shorter than the Sodium tag *)

Lemma encrypt_aead_short_tag d inp ad tag_len (w : world B) :
  interface_ (self w) = Some d -> is_libsodium_aead (method d) = true ->
  is_aead (self w) = true -> CRYPTO_USE_LIBSODIUM cfg = true ->
  (method d = EN_CIMT_LIBSODIUM_XCHACHA20_POLY1305_IETF ->
   HAVE_crypto_aead_xchacha20poly1305_ietf cfg = true) ->
  bad_crypt_params cfg B (Some inp) w = false ->
  tag_len < 16 ->
  run (encrypt_aead cfg B (Some inp) ad tag_len) w
  = (LIBSODIUM_OPERATION_TAG_LEN, padded cfg w).
Proof.
  intros Hd Hm Ha Hs Hx Hb Ht.
  assert (Hg : (16 >? tag_len) = true) by (apply Z.gtb_lt; lia).
  unfold encrypt_aead, run, bind, this, initialized. cbv beta. rewrite Hd.
  destruct (method d) eqn:Em; try discriminate Hm;
    cbn [method_eqb method_value Z.eqb Pos.eqb negb]; rewrite Ha; cbn [negb]; cbv beta;
    rewrite Hb, pad_iv_spec, Hs; rewrite ?(Hx eq_refl); cbn [andb];
    unfold encrypt_aead_with_libsodium;
    change crypto_aead_chacha20poly1305_ABYTES with 16;
    change crypto_aead_chacha20poly1305_IETF_ABYTES with 16;
    change crypto_aead_xchacha20poly1305_ietf_ABYTES with 16;
    rewrite Hg; reflexivity.
Qed.

Lemma decrypt_aead_short_tag d inp ad tag_in tag_len (w : world B) :
  interface_ (self w) = Some d -> is_libsodium_aead (method d) = true ->
  is_aead (self w) = true -> CRYPTO_USE_LIBSODIUM cfg = true ->
  (method d = EN_CIMT_LIBSODIUM_XCHACHA20_POLY1305_IETF ->
   HAVE_crypto_aead_xchacha20poly1305_ietf cfg = true) ->
  bad_crypt_params cfg B (Some inp) w = false ->
  tag_len < 16 ->
  run (decrypt_aead cfg B (Some inp) ad tag_in tag_len) w
  = (LIBSODIUM_OPERATION_TAG_LEN, padded cfg w).
Proof.
  intros Hd Hm Ha Hs Hx Hb Ht.
  assert (Hg : (16 >? tag_len) = true) by (apply Z.gtb_lt; lia).
  unfold decrypt_aead, run, bind, this, initialized. cbv beta. rewrite Hd.
  destruct (method d) eqn:Em; try discriminate Hm;
    cbn [method_eqb method_value Z.eqb Pos.eqb negb]; rewrite Ha; cbn [negb]; cbv beta;
    rewrite Hb, pad_iv_spec, Hs; rewrite ?(Hx eq_refl); cbn [andb];
    unfold decrypt_aead_with_libsodium;
    change crypto_aead_chacha20poly1305_ABYTES with 16;
    change crypto_aead_chacha20poly1305_IETF_ABYTES with 16;
    change crypto_aead_xchacha20poly1305_ietf_ABYTES with 16;
    rewrite Hg; reflexivity.
Qed.

End Across.

Section Order.

Variable cfg : build_config.
Variable B : backend.

Lemma in_order_kept (ci ci' : cipher B) :
  interface_ ci' = interface_ ci -> live_contexts ci' = live_contexts ci ->
  in_order cfg ci -> in_order cfg ci'.
Proof. unfold in_order. intros -> ->. auto. Qed.

Lemma live_contexts_null (a b : cipher B) :
  is_null (cipher_context_enc b) = is_null (cipher_context_enc a) ->
  is_null (cipher_context_dec b) = is_null (cipher_context_dec a) ->
  live_contexts b = live_contexts a.
Proof. unfold live_contexts. intros -> ->. reflexivity. Qed.

Lemma live_contexts_zero (ci : cipher B) :
  live_contexts ci = 0%nat <->
  cipher_context_enc ci = None /\ cipher_context_dec ci = None.
Proof.
  unfold live_contexts.
  destruct (cipher_context_enc ci), (cipher_context_dec ci); cbn;
    split; try intros (H1 & H2); try discriminate; auto.
Qed.

Lemma in_order_errno e (ci : cipher B) :
  in_order cfg ci -> in_order cfg (set_last_errno e ci).
Proof. apply in_order_kept; destruct ci; reflexivity. Qed.

(** An object in order is initialized exactly when it has a descriptor. *)
Lemma in_order_initialized (ci : cipher B) :
  in_order cfg ci ->
  initialized ci = false -> interface_ ci = None /\ live_contexts ci = 0%nat.
Proof.
  unfold in_order, initialized.
  destruct (interface_ ci) as [d|]; [|auto].
  intros (Hin & Hn & _) Hi. exfalso.
  pose proof (named_entries_table cfg d Hin) as Ht.
  destruct (name d); [|congruence]. destruct Ht as (_ & Ht).
  destruct (method d); try discriminate Hi. congruence.
Qed.

Lemma init_in_order nm mode (w : world B) :
  in_order cfg (self w) -> in_order cfg (self (snd (run (init cfg B nm mode) w))).
Proof.
  intros Ho. destruct (initialized (self w)) eqn:Hi.
  - rewrite init_already by exact Hi. cbn [snd on_self self].
    apply in_order_errno. exact Ho.
  - destruct (in_order_initialized _ Ho Hi) as (Hnone & Hlive).
    apply live_contexts_zero in Hlive. destruct Hlive as (He & Hd).
    pose proof (init_result cfg B nm mode w Hi) as H. cbv zeta in H.
    destruct (run (init cfg B nm mode) w) as [r w']. cbn [fst snd] in *.
    destruct H as (_ & _ & _ & Hok & Hfail).
    destruct (error_code_t.eqb r OK) eqn:Er.
    + apply eqb_OK in Er. destruct (Hok Er) as (d & Hl & Hi' & Hgen & Hin & _).
      destruct (lookup_registered cfg nm d Hl) as (R1 & R2 & R3).
      unfold in_order. rewrite Hi'.
      split; [exact R1|]. split; [exact R2|].
      split; [intros Hm; apply (Hgen Hm)|].
      intros Hm. destruct (Hin Hm) as (C1 & C2 & _).
      apply live_contexts_zero. split; congruence.
    + assert (Hr : r <> OK) by (intros ->; discriminate Er).
      destruct (Hfail Hr) as (F1 & _ & (F2 & F3)).
      unfold in_order. rewrite F1, Hnone.
      apply live_contexts_zero. rewrite He in F2. rewrite Hd in F3.
      split; [destruct F2 | destruct F3]; assumption.
Qed.

(** [init] that opens a generic cipher puts the object in order by
    itself: it sets or clears both contexts. *)
Lemma init_generic_in_order nm mode (w : world B) d :
  initialized (self w) = false ->
  get_cipher_interface_by_name cfg nm = Some d ->
  method d = EN_CIMT_CIPHER ->
  fst (run (init cfg B nm mode) w) = OK ->
  in_order cfg (self (snd (run (init cfg B nm mode) w))).
Proof.
  intros Hi Hl Hm Hok.
  pose proof (init_result cfg B nm mode w Hi) as H. cbv zeta in H.
  destruct H as (_ & _ & _ & H & _).
  destruct (H Hok) as (d' & Hl' & Hi' & Hgen & _).
  assert (d' = d) by congruence. subst d'.
  destruct (lookup_registered cfg nm d Hl) as (R1 & R2 & _).
  unfold in_order. rewrite Hi'.
  split; [exact R1|]. split; [exact R2|].
  split; [intros _; apply (Hgen Hm)|]. intros Hn. destruct (Hn Hm).
Qed.

Lemma close_in_order (w : world B) :
  in_order cfg (self w) -> in_order cfg (self (snd (run (close cfg B) w))).
Proof.
  intros Ho. destruct (initialized (self w)) eqn:Hi.
  - unfold initialized in Hi. pose proof Ho as Ho'. unfold in_order in Ho'.
    destruct (interface_ (self w)) as [d|] eqn:Hd; [|discriminate Hi].
    destruct Ho' as (_ & _ & Hgen & Helse).
    assert (Hm : method d <> EN_CIMT_INVALID)
      by (intros Hm; rewrite Hm in Hi; discriminate Hi).
    pose proof (close_result cfg B d w Hd Hm) as H. cbv zeta in H.
    destruct H as (H1 & _ & _ & _ & _ & H2 & H3 & _).
    unfold in_order. rewrite H1.
    assert (Hc : method d = EN_CIMT_CIPHER \/ method d <> EN_CIMT_CIPHER)
      by (destruct (method d); auto; right; discriminate).
    destruct Hc as [Hc | Hc].
    + apply (H2 Hc (Hgen Hc)).
    + destruct (H3 Hc) as (C1 & C2 & _).
      pose proof (Helse Hc) as Hl. apply live_contexts_zero in Hl.
      apply live_contexts_zero. destruct Hl. split; congruence.
  - rewrite not_initialized_close by exact Hi. cbn [snd on_self self].
    apply in_order_errno. exact Ho.
Qed.

Lemma set_key_in_order key key_bitlen (w : world B) :
  in_order cfg (self w) ->
  in_order cfg (self (snd (run (set_key cfg B key key_bitlen) w))).
Proof.
  pose proof (set_key_effect cfg B key key_bitlen w) as H. cbv zeta in H.
  destruct H as ((H1 & _) & _ & _ & _ & H2 & H3).
  apply in_order_kept; [exact H1 | apply live_contexts_null; assumption].
Qed.

Lemma set_iv_in_order iv (w : world B) :
  in_order cfg (self w) -> in_order cfg (self (snd (run (set_iv cfg B iv) w))).
Proof.
  pose proof (set_iv_effect cfg B iv w) as H. cbv zeta in H.
  destruct H as ((H1 & _) & _ & _ & _ & H2 & H3 & _).
  apply in_order_kept; [exact H1 | apply live_contexts_null; congruence].
Qed.

Lemma effect_in_order d (w w' : world B) :
  crypto_effect cfg d w w' -> in_order cfg (self w) -> in_order cfg (self w').
Proof. intros ((H1 & _) & _ & _ & H2 & _). apply in_order_kept; assumption. Qed.

(** The first entry of the table in every build. *)
Lemma lookup_xxtea nm :
  UTIL_STRFUNC_STRCASE_CMP nm "xxtea" = 0 ->
  get_cipher_interface_by_name cfg (Some nm)
  = Some (entry "xxtea" EN_CIMT_XXTEA None "xxtea" EN_CIFT_NONE).
Proof.
  intros H. apply Z.eqb_eq in H.
  unfold get_cipher_interface_by_name, supported_ciphers.
  cbn [app scan_supported_ciphers entry name]. rewrite H. reflexivity.
Qed.

End Order.

(* ================================================================== *)
(** ** Further properties of the code *)
(* ================================================================== *)

Lemma le_decode_range l : 0 <= le_decode l < 256 ^ Z.of_nat (length l).
Proof.
  induction l as [|b l IH]; [cbn; lia|].
  cbn [le_decode length]. rewrite Nat2Z.inj_succ, Z.pow_succ_r by lia.
  pose proof (byte_val_range b). lia.
Qed.

(** X1. [libsodium_get_block] and [libsodium_get_counter] (lines 19-27):
    on an IV of at least eight bytes the counter is the little-endian
    value of the first eight bytes, it is made of the two 32-bit blocks
    at offsets 0 and 4, and it is a 64-bit value. *)
Theorem counter_is_little_endian (iv : list byte) :
  (8 <= length iv)%nat ->
  libsodium_get_counter iv = le_decode (firstn 8 iv)
  /\ libsodium_get_counter iv
     = libsodium_get_block iv + 2 ^ 32 * libsodium_get_block (skipn 4 iv)
  /\ libsodium_get_block iv = le_decode (firstn 4 iv)
  /\ 0 <= libsodium_get_counter iv < 2 ^ 64.
Proof.
  intros H.
  pose proof (libsodium_get_counter_little_endian iv H) as Hle.
  split; [exact Hle|]. split; [rewrite libsodium_get_counter_value; lia|].
  split.
  - do 4 (destruct iv as [|? iv]; [simpl in H; lia|]).
    rewrite libsodium_get_block_value. unfold deref. cbn [nth firstn le_decode]. lia.
  - rewrite Hle. pose proof (le_decode_range (firstn 8 iv)) as Hr.
    rewrite length_firstn, Nat.min_l in Hr by exact H.
    change (256 ^ Z.of_nat 8) with (2 ^ 64) in Hr. exact Hr.
Qed.

(** X1 on the sixteen-byte IV of the examples, whose counter is 1. *)
Lemma counter_is_little_endian_witness :
  libsodium_get_counter Example.iv16 = le_decode (firstn 8 Example.iv16)
  /\ libsodium_get_counter Example.iv16
     = libsodium_get_block Example.iv16
       + 2 ^ 32 * libsodium_get_block (skipn 4 Example.iv16)
  /\ libsodium_get_block Example.iv16 = le_decode (firstn 4 Example.iv16)
  /\ 0 <= libsodium_get_counter Example.iv16 < 2 ^ 64.
Proof.
  exact (counter_is_little_endian Example.iv16 ltac:(simpl; lia)).
Defined.

Lemma le_decode_app a b :
  le_decode (a ++ b) = le_decode a + 256 ^ Z.of_nat (length a) * le_decode b.
Proof.
  induction a as [|x a IH]; [cbn [app le_decode length]; lia|].
  cbn [app le_decode length]. rewrite IH, Nat2Z.inj_succ, Z.pow_succ_r by lia. ring.
Qed.

(** The counter as each primitive receives it: all eight bytes for a
    64-bit parameter, the first four for the 32-bit one. *)
Lemma counter_arg_bytes m iv :
  (8 <= length iv)%nat ->
  libsodium_counter_arg m (le_decode (firstn 8 iv))
  = le_decode (firstn (match m with
                       | EN_CIMT_LIBSODIUM_CHACHA20_IETF => 4
                       | _ => 8
                       end) iv).
Proof.
  intros H. destruct m; try reflexivity.
  unfold libsodium_counter_arg, to_u32.
  assert (E : firstn 8 iv = firstn 4 iv ++ firstn 4 (skipn 4 iv)).
  { do 8 (destruct iv as [|? iv]; [simpl in H; lia|]). reflexivity. }
  rewrite E, le_decode_app.
  pose proof (le_decode_range (firstn 4 iv)) as Hr.
  rewrite length_firstn, Nat.min_l in * by lia.
  change (256 ^ Z.of_nat 4) with (2 ^ 32) in *.
  rewrite (Z.mul_comm (2 ^ 32)), Z.mod_add by lia. apply Z.mod_small. exact Hr.
Qed.

(** X2. [cipher::encrypt] and [cipher::decrypt], the Sodium stream cases
    (lines 837-871 and 953-987): on a session of a registered stream
    method that has a case label, a call that passes the parameter test
    makes exactly one back-end call, the [xor_ic] primitive of that
    method, with the input as it is, the key buffer and the bytes of the
    zero-padded IV after the eighth as nonce. The counter is the
    little-endian value of the first eight IV bytes for chacha20,
    salsa20 and xsalsa20; for chacha20-ietf, whose primitive takes a
    [uint32_t], it is the little-endian value of the first four bytes
    only, and IV bytes 4 to 7 reach nothing. *)
Theorem stream_call_carries_the_iv (cfg : build_config) (B : backend) (w : world B)
    (d : cipher_interface_info_t) (dr : direction) (inp : list byte) :
  In d (supported_ciphers cfg) ->
  interface_ (self w) = Some d ->
  has_stream_case (method d) = true ->
  bad_crypt_params cfg B (Some inp) w = false ->
  let iv := padded_iv cfg B (self w) in
  let counter := match method d with
                 | EN_CIMT_LIBSODIUM_CHACHA20_IETF => le_decode (firstn 4 iv)
                 | _ => le_decode (firstn 8 iv)
                 end in
  calls (snd (run (crypt cfg B dr (Some inp)) w))
  = calls w ++ [CALL_stream_xor_ic (method d) inp (skipn 8 iv) counter
                  (libsodium_context_key (self w))]
  /\ (8 <= length iv)%nat
  /\ 0 <= counter < (match method d with
                     | EN_CIMT_LIBSODIUM_CHACHA20_IETF => 2 ^ 32
                     | _ => 2 ^ 64
                     end).
Proof.
  intros Hin Hd Hm Hp iv counter.
  destruct (has_stream_case_stream _ Hm) as (Hl & Hs).
  destruct (registry_libsodium cfg d Hin Hl) as (Hsod & Hf & _).
  pose proof (stream_iv_long cfg B d (self w) Hd Hm (Hf Hs) Hsod) as Hlong.
  fold iv in Hlong.
  assert (Hc : libsodium_counter_arg (method d) (le_decode (firstn 8 iv)) = counter).
  { rewrite (counter_arg_bytes (method d) iv Hlong). unfold counter.
    destruct (method d); reflexivity. }
  split; [|split; [exact Hlong|]].
  - rewrite <- Hc. apply (stream_call_arguments cfg B d w dr inp Hd Hm (Hf Hs) Hsod Hp).
  - pose proof (le_decode_range (firstn 4 iv)) as R4.
    pose proof (le_decode_range (firstn 8 iv)) as R8.
    rewrite length_firstn, Nat.min_l in R4, R8 by lia.
    change (256 ^ Z.of_nat 4) with (2 ^ 32) in R4.
    change (256 ^ Z.of_nat 8) with (2 ^ 64) in R8.
    unfold counter. destruct (method d); assumption.
Qed.

(** X2 on chacha20-ietf with a twenty-byte IV whose bytes 4 to 7 are not
    zero: the counter that reaches the primitive is the value of bytes 0
    to 3. *)
Lemma stream_call_carries_the_iv_witness :
  let w := Example.with_buffers
             (Example.keyed Example.full_build "chacha20-ietf" Example.key32
                (Example.iv8 ++ Example.iv12)) 8 0 in
  let iv := padded_iv Example.full_build Example.toy (self w) in
  let counter := le_decode (firstn 4 iv) in
  calls (snd (run (crypt Example.full_build Example.toy ENCRYPT (Some [x61; x62; x63])) w))
  = calls w ++ [CALL_stream_xor_ic EN_CIMT_LIBSODIUM_CHACHA20_IETF [x61; x62; x63]
                  (skipn 8 iv) counter (libsodium_context_key (self w))]
  /\ (8 <= length iv)%nat
  /\ 0 <= counter < 2 ^ 32.
Proof.
  exact (stream_call_carries_the_iv Example.full_build Example.toy
           (Example.with_buffers
              (Example.keyed Example.full_build "chacha20-ietf" Example.key32
                 (Example.iv8 ++ Example.iv12)) 8 0)
           (entry "chacha20-ietf" EN_CIMT_LIBSODIUM_CHACHA20_IETF None "CHACHA20-IETF"
              EN_CIFT_NONE)
           ENCRYPT [x61; x62; x63]
           ltac:(simpl; find_entry) ltac:(vm_compute; reflexivity) eq_refl
           ltac:(vm_compute; reflexivity)).
Defined.

(** X3. [cipher::encrypt] and [cipher::decrypt] on a session whose method
    is [EN_CIMT_LIBSODIUM_XCHACHA20] (lines 761-875 and 877-992), in
    every build and with every back-end: the call answers one of the
    guard codes, never [OK], makes no back-end call and stores nothing
    through the caller's pointers. *)
Theorem xchacha20_stream_reaches_no_primitive (cfg : build_config) (B : backend)
    (w : world B) (d : cipher_interface_info_t) (dr : direction)
    (input : option (list byte)) :
  interface_ (self w) = Some d ->
  method d = EN_CIMT_LIBSODIUM_XCHACHA20 ->
  is_guard_code (fst (run (crypt cfg B dr input) w)) = true
  /\ fst (run (crypt cfg B dr input) w) <> OK
  /\ same_buffers w (snd (run (crypt cfg B dr input) w))
  /\ calls (snd (run (crypt cfg B dr input) w)) = calls w.
Proof.
  intros Hd Hm.
  assert (Hg : is_guard_code (fst (run (crypt cfg B dr input) w)) = true).
  { apply (crypt_ways cfg B dr input w (fun rw => is_guard_code (fst rw) = true));
      try reflexivity.
    intros i inp Hi _ _ _ _. rewrite Hd in Hi. injection Hi as <-.
    refine (conj _ (conj _ (conj _ (conj _ (conj _ _))))); try reflexivity;
      intros; try congruence.
    match goal with
    | H : method d = ?m \/ _ |- _ =>
        destruct H as [H | (H & _)]; [subst m; rewrite Hm in *; discriminate | congruence]
    end. }
  split; [exact Hg|]. split.
  - intros H. rewrite H in Hg. discriminate Hg.
  - apply crypt_guarded. exact Hg.
Qed.

(** X3 on the xchacha20 session of the examples. *)
Lemma xchacha20_stream_reaches_no_primitive_witness :
  let w := Example.with_buffers
             (Example.keyed Example.full_build "xchacha20" Example.key32 Example.iv32) 8 0 in
  let call := crypt Example.full_build Example.toy ENCRYPT (Some [x61; x62; x63]) in
  is_guard_code (fst (run call w)) = true
  /\ fst (run call w) <> OK
  /\ same_buffers w (snd (run call w))
  /\ calls (snd (run call w)) = calls w.
Proof.
  exact (xchacha20_stream_reaches_no_primitive Example.full_build Example.toy
           (Example.with_buffers
              (Example.keyed Example.full_build "xchacha20" Example.key32 Example.iv32) 8 0)
           (entry "xchacha20" EN_CIMT_LIBSODIUM_XCHACHA20 None "XCHACHA20" EN_CIFT_NONE)
           ENCRYPT (Some [x61; x62; x63])
           ltac:(vm_compute; reflexivity) eq_refl).
Defined.

(** X4. [details::get_cipher_interface_by_name] (lines 204-216): what the
    lookup gives is an entry of the table whose name matches and that is
    not the terminator; it gives an entry whenever an entry of the table
    has a matching name; and a null name gives nothing. *)
Theorem lookup_answers_registered_names (cfg : build_config) (nm : string) :
  (forall d, get_cipher_interface_by_name cfg (Some nm) = Some d ->
             In d (supported_ciphers cfg) /\ method d <> EN_CIMT_INVALID
             /\ name_matches nm d)
  /\ ((exists d, In d (supported_ciphers cfg) /\ name_matches nm d) ->
      exists d', get_cipher_interface_by_name cfg (Some nm) = Some d')
  /\ get_cipher_interface_by_name cfg None = None.
Proof.
  split; [|split; [|reflexivity]].
  - intros d Hl. destruct (lookup_registered cfg _ d Hl) as (Hin & _ & Hm).
    destruct (lookup_matches cfg nm d Hl) as (s & Hs & Hc).
    split; [exact Hin|]. split; [exact Hm|]. exists s. auto.
  - intros (d & Hin & (s & Hs & Hc)).
    pose proof (named_entries_table cfg d Hin) as Ht. rewrite Hs in Ht.
    destruct Ht as (Ht & _).
    apply (scan_finds nm _ s d Ht Hc).
Qed.

(** X5. The table and the lookup (lines 132-216), under [init] (lines
    222-265): where a name occurs twice the lookup gives the generic
    entry, so in a build that registers the generic [chacha20] no lookup
    gives the entry of method [EN_CIMT_LIBSODIUM_CHACHA20], in a build
    that registers the generic [chacha20-poly1305-ietf] none gives the
    entry of method [EN_CIMT_LIBSODIUM_CHACHA20_POLY1305_IETF], and
    [init] installs neither. *)
Theorem twin_names_open_the_generic_entry (cfg : build_config) (B : backend)
    (nm : option string) (mode : Z) (w : world B) (d : cipher_interface_info_t) :
  get_cipher_interface_by_name cfg nm = Some d ->
  ((CRYPTO_USE_CHACHA20_WITH_CIPHER cfg = true ->
    method d <> EN_CIMT_LIBSODIUM_CHACHA20)
   /\ (CRYPTO_USE_CHACHA20_POLY1305_WITH_CIPHER cfg = true ->
       method d <> EN_CIMT_LIBSODIUM_CHACHA20_POLY1305_IETF))
  /\ (initialized (self w) = false ->
      fst (run (init cfg B nm mode) w) = OK ->
      interface_ (self (snd (run (init cfg B nm mode) w))) = Some d).
Proof.
  intros Hl. split; [split|].
  - intros Hc. apply (sodium_chacha20_shadowed cfg nm d Hc Hl).
  - intros Hc. apply (sodium_chacha20_poly1305_ietf_shadowed cfg nm d Hc Hl).
  - intros Hi Hok.
    pose proof (init_result cfg B nm mode w Hi) as H. cbv zeta in H.
    destruct H as (_ & _ & _ & H & _).
    destruct (H Hok) as (d' & Hl' & Hd' & _). congruence.
Qed.

(** X5 on [init("ChaCha20")] in the build that has both entries. *)
Lemma twin_names_open_the_generic_entry_witness :
  let d := entry "chacha20" EN_CIMT_CIPHER None "CHACHA20" EN_CIFT_NONE in
  let w := world_of Example.fresh in
  ((CRYPTO_USE_CHACHA20_WITH_CIPHER Example.full_build = true ->
    method d <> EN_CIMT_LIBSODIUM_CHACHA20)
   /\ (CRYPTO_USE_CHACHA20_POLY1305_WITH_CIPHER Example.full_build = true ->
       method d <> EN_CIMT_LIBSODIUM_CHACHA20_POLY1305_IETF))
  /\ (initialized (self w) = false ->
      fst (run (init Example.full_build Example.toy (Some "ChaCha20"%string) 3) w) = OK ->
      interface_ (self (snd (run (init Example.full_build Example.toy
                                    (Some "ChaCha20"%string) 3) w)))
      = Some d).
Proof.
  exact (twin_names_open_the_generic_entry Example.full_build Example.toy
           (Some "ChaCha20"%string) 3 (world_of Example.fresh)
           (entry "chacha20" EN_CIMT_CIPHER None "CHACHA20" EN_CIFT_NONE)
           ltac:(vm_compute; reflexivity)).
Defined.

(** X6. [cipher::get_all_cipher_names] (lines 1340-1363) over
    [cipher::get_cipher_by_name] (lines 1292-1308), in a build with a
    generic back-end: the first call fills the vector with the names of
    the table entries in table order, keeping xxtea, every Sodium entry
    and the generic entries whose cipher the back-end knows under the
    entry's own back-end name; [xxtea] comes first; every name listed is
    one the lookup answers; and a second call returns the same vector
    without asking the back-end again. *)
Theorem all_cipher_names_listing (cfg : build_config) (B : backend) (w : world B) :
  CRYPTO_GENERIC cfg <> USE_NONE ->
  exists l asked,
    get_all_cipher_names cfg B [] w = Next (traced w asked) l
    /\ l = map fst (filter (fun p => is_listed cfg B (snd p))
                      (named_entries (supported_ciphers cfg)))
    /\ hd_error l = Some "xxtea"%string
    /\ (forall n, In n l -> exists d, get_cipher_interface_by_name cfg (Some n) = Some d)
    /\ get_all_cipher_names cfg B l (traced w asked) = Next (traced w asked) l.
Proof.
  intros _.
  destruct (push_cipher_names_spec cfg B (supported_ciphers cfg) [] w) as (asked & Hp).
  { intros s d Hin. destruct (named_entries_in _ _ _ Hin) as (Ht & Hn).
    pose proof (named_entries_table cfg d Ht) as Hd. rewrite Hn in Hd.
    split; [tauto|]. intros Hm. rewrite <- Hn. apply generic_entry_lookup; assumption. }
  cbn [app] in Hp.
  exists (map fst (filter (fun p => is_listed cfg B (snd p))
                    (named_entries (supported_ciphers cfg)))), asked.
  assert (Hhd : exists tl,
             map fst (filter (fun p => is_listed cfg B (snd p))
                        (named_entries (supported_ciphers cfg)))
             = "xxtea"%string :: tl).
  { assert (Ht : exists rest,
               supported_ciphers cfg
               = entry "xxtea" EN_CIMT_XXTEA None "xxtea" EN_CIFT_NONE :: rest)
      by (eexists; reflexivity).
    destruct Ht as (rest & ->). eexists. reflexivity. }
  destruct Hhd as (tl & Hhd).
  split; [exact Hp|]. split; [reflexivity|]. split; [rewrite Hhd; reflexivity|]. split.
  - intros n Hn. apply in_map_iff in Hn. destruct Hn as ((s & d) & Hs & Hf).
    cbn [fst] in Hs. subst s. apply filter_In in Hf. destruct Hf as (Hf & _).
    cbn [get_cipher_interface_by_name].
    apply (scan_finds n _ n d Hf (strcasecmp_refl n)).
  - rewrite Hhd. reflexivity.
Qed.

(** X6 in the build of the examples. *)
Lemma all_cipher_names_listing_witness :
  exists l asked,
    get_all_cipher_names Example.full_build Example.toy []
      (world_of Example.fresh)
    = Next (traced (world_of Example.fresh) asked) l
    /\ l = map fst (filter (fun p => is_listed Example.full_build Example.toy (snd p))
                      (named_entries (supported_ciphers Example.full_build)))
    /\ hd_error l = Some "xxtea"%string
    /\ (forall n, In n l ->
                  exists d, get_cipher_interface_by_name Example.full_build (Some n) = Some d)
    /\ get_all_cipher_names Example.full_build Example.toy l
         (traced (world_of Example.fresh) asked)
       = Next (traced (world_of Example.fresh) asked) l.
Proof.
  exact (all_cipher_names_listing Example.full_build Example.toy
           (world_of Example.fresh) ltac:(discriminate)).
Defined.

(** X7. [cipher::init] (lines 222-265): whatever the name and the mode,
    [init] leaves the IV and the caller's buffers as they are and only
    adds to the trace; on an object that is initialized it answers
    [ALREADY_INITED] and changes the error number alone. *)
Theorem init_keeps_iv_and_buffers (cfg : build_config) (B : backend)
    (nm : option string) (mode : Z) (w : world B) :
  same_iv w (snd (run (init cfg B nm mode) w))
  /\ same_buffers w (snd (run (init cfg B nm mode) w))
  /\ trace_grows w (snd (run (init cfg B nm mode) w))
  /\ (initialized (self w) = true ->
      run (init cfg B nm mode) w = (ALREADY_INITED, on_self (set_last_errno (-1)) w)).
Proof.
  destruct (initialized (self w)) eqn:Hi.
  - rewrite init_already by exact Hi.
    unfold same_iv, same_buffers, trace_grows. cbn [snd on_self self output olen tag calls].
    split; [destruct (self w); reflexivity|]. split; [auto|].
    split; [exists []; symmetry; apply app_nil_r | reflexivity].
  - pose proof (init_result cfg B nm mode w Hi) as H. cbv zeta in H.
    destruct H as (H1 & H2 & H3 & _).
    split; [exact H1|]. split; [exact H2|]. split; [exact H3 | discriminate].
Qed.

(** X8. [cipher::init] on an object that is not initialized: it answers
    [OK] exactly when it leaves the object initialized; the descriptor
    it installs is the entry the lookup gives for the name; and when it
    fails the descriptor and the key buffers are as before. *)
Theorem init_installs_the_lookup (cfg : build_config) (B : backend)
    (nm : option string) (mode : Z) (w : world B) :
  initialized (self w) = false ->
  let rw := run (init cfg B nm mode) w in
  (fst rw = OK <-> initialized (self (snd rw)) = true)
  /\ (fst rw = OK ->
      interface_ (self (snd rw)) = get_cipher_interface_by_name cfg nm)
  /\ (fst rw <> OK ->
      interface_ (self (snd rw)) = interface_ (self w) /\ same_keys w (snd rw)).
Proof.
  intros Hi. cbv zeta.
  pose proof (init_result cfg B nm mode w Hi) as H. cbv zeta in H.
  destruct H as (_ & _ & _ & Hok & Hfail).
  assert (Hyes : fst (run (init cfg B nm mode) w) = OK ->
                 initialized (self (snd (run (init cfg B nm mode) w))) = true).
  { intros Hr. destruct (Hok Hr) as (d & Hl & Hd & _).
    destruct (lookup_registered cfg nm d Hl) as (_ & _ & Hm).
    unfold initialized. rewrite Hd. destruct (method d); try reflexivity. congruence. }
  assert (Hno : fst (run (init cfg B nm mode) w) <> OK ->
                initialized (self (snd (run (init cfg B nm mode) w))) = false).
  { intros Hr. destruct (Hfail Hr) as (Hd & _).
    unfold initialized in *. rewrite Hd. exact Hi. }
  split; [split; [exact Hyes|]|split].
  - intros Hinit.
    destruct (error_code_t.eqb (fst (run (init cfg B nm mode) w)) OK) eqn:Er;
      [apply eqb_OK; exact Er|].
    assert (Hr : fst (run (init cfg B nm mode) w) <> OK)
      by (intros Hr; rewrite Hr in Er; discriminate Er).
    rewrite (Hno Hr) in Hinit. discriminate Hinit.
  - intros Hr. destruct (Hok Hr) as (d & Hl & Hd & _). congruence.
  - intros Hr. destruct (Hfail Hr) as (Hd & Hk & _). auto.
Qed.

(** X8 on [init("aes-128-cfb")] of a new object. *)
Lemma init_installs_the_lookup_witness :
  let rw := run (init Example.full_build Example.toy (Some "aes-128-cfb"%string) 3)
              (world_of Example.fresh) in
  (fst rw = OK <-> initialized (self (snd rw)) = true)
  /\ (fst rw = OK ->
      interface_ (self (snd rw))
      = get_cipher_interface_by_name Example.full_build (Some "aes-128-cfb"%string))
  /\ (fst rw <> OK ->
      interface_ (self (snd rw)) = interface_ (self (world_of Example.fresh))
      /\ same_keys (world_of Example.fresh) (snd rw)).
Proof.
  exact (init_installs_the_lookup Example.full_build Example.toy
           (Some "aes-128-cfb"%string) 3 (world_of Example.fresh) eq_refl).
Defined.

Lemma init_in_process cfg B nm mode (w : world B) d :
  initialized (self w) = false ->
  get_cipher_interface_by_name cfg nm = Some d ->
  method d <> EN_CIMT_CIPHER ->
  fst (run (init cfg B nm mode) w) = OK.
Proof.
  intros Hi Hl Hm.
  destruct (lookup_registered cfg nm d Hl) as (Hin & _ & Hinv).
  pose proof (registry_methods cfg d Hin) as Hr.
  unfold init, run, bind, this. rewrite Hi.
  destruct nm as [n|]; [|discriminate Hl]. rewrite Hl.
  destruct (method d); try reflexivity; try congruence;
    destruct Hr as [Hr | [Hr | [Hr | Hr]]]; discriminate Hr.
Qed.

(** X9. [cipher::init] for xxtea and the Sodium methods (lines 238-258):
    on an object that is not initialized, a name the lookup resolves to
    an entry that is not generic always opens: [init] answers [OK],
    calls no back-end, leaves the generic contexts alone and zeroes the
    key buffer of the method; and a name that matches [xxtea] resolves
    to the xxtea entry in every build. *)
Theorem in_process_methods_always_open (cfg : build_config) (B : backend)
    (nm : option string) (mode : Z) (w : world B) (d : cipher_interface_info_t) :
  initialized (self w) = false ->
  get_cipher_interface_by_name cfg nm = Some d ->
  method d <> EN_CIMT_CIPHER ->
  let rw := run (init cfg B nm mode) w in
  fst rw = OK
  /\ interface_ (self (snd rw)) = Some d
  /\ calls (snd rw) = calls w
  /\ cipher_context_enc (self (snd rw)) = cipher_context_enc (self w)
  /\ cipher_context_dec (self (snd rw)) = cipher_context_dec (self w)
  /\ (method d = EN_CIMT_XXTEA -> xxtea_context_key (self (snd rw)) = [0; 0; 0; 0])
  /\ (is_libsodium_method (method d) = true ->
      libsodium_context_key (self (snd rw))
      = repeat x00 (Z.to_nat (sizeof_libsodium_key cfg)))
  /\ (forall n, UTIL_STRFUNC_STRCASE_CMP n "xxtea" = 0 ->
                get_cipher_interface_by_name cfg (Some n)
                = Some (entry "xxtea" EN_CIMT_XXTEA None "xxtea" EN_CIFT_NONE)).
Proof.
  intros Hi Hl Hm. cbv zeta.
  pose proof (init_in_process cfg B nm mode w d Hi Hl Hm) as Hok.
  pose proof (init_result cfg B nm mode w Hi) as H. cbv zeta in H.
  destruct H as (_ & _ & _ & H & _).
  destruct (H Hok) as (d' & Hl' & Hd' & _ & Hnc & Hx & Hs).
  assert (d' = d) by congruence. subst d'.
  destruct (Hnc Hm) as (C1 & C2 & C3).
  repeat split; try assumption.
  intros n Hn. apply lookup_xxtea. exact Hn.
Qed.

(** X9 on [init("XXTEA")] of a new object, in the build without any
    library. *)
Lemma in_process_methods_always_open_witness :
  let cfg := {| CRYPTO_GENERIC := USE_NONE;
                CRYPTO_USE_CHACHA20_WITH_CIPHER := false;
                CRYPTO_USE_CHACHA20_POLY1305_WITH_CIPHER := false;
                CRYPTO_USE_LIBSODIUM := false;
                HAVE_crypto_stream_xchacha20 := false;
                HAVE_crypto_stream_xsalsa20 := false;
                HAVE_crypto_aead_xchacha20poly1305_ietf := false;
                sizeof_libsodium_key := 32 |} in
  let d := entry "xxtea" EN_CIMT_XXTEA None "xxtea" EN_CIFT_NONE in
  let w := world_of Example.fresh in
  let rw := run (init cfg Example.toy (Some "XXTEA"%string) 1) w in
  fst rw = OK
  /\ interface_ (self (snd rw)) = Some d
  /\ calls (snd rw) = calls w
  /\ cipher_context_enc (self (snd rw)) = cipher_context_enc (self w)
  /\ cipher_context_dec (self (snd rw)) = cipher_context_dec (self w)
  /\ (method d = EN_CIMT_XXTEA -> xxtea_context_key (self (snd rw)) = [0; 0; 0; 0])
  /\ (is_libsodium_method (method d) = true ->
      libsodium_context_key (self (snd rw))
      = repeat x00 (Z.to_nat (sizeof_libsodium_key cfg)))
  /\ (forall n, UTIL_STRFUNC_STRCASE_CMP n "xxtea" = 0 ->
                get_cipher_interface_by_name cfg (Some n)
                = Some (entry "xxtea" EN_CIMT_XXTEA None "xxtea" EN_CIFT_NONE)).
Proof.
  exact (in_process_methods_always_open
           {| CRYPTO_GENERIC := USE_NONE;
              CRYPTO_USE_CHACHA20_WITH_CIPHER := false;
              CRYPTO_USE_CHACHA20_POLY1305_WITH_CIPHER := false;
              CRYPTO_USE_LIBSODIUM := false;
              HAVE_crypto_stream_xchacha20 := false;
              HAVE_crypto_stream_xsalsa20 := false;
              HAVE_crypto_aead_xchacha20poly1305_ietf := false;
              sizeof_libsodium_key := 32 |}
           Example.toy (Some "XXTEA"%string) 1 (world_of Example.fresh)
           (entry "xxtea" EN_CIMT_XXTEA None "xxtea" EN_CIFT_NONE)
           eq_refl ltac:(vm_compute; reflexivity) ltac:(discriminate)).
Defined.

(** X10. [cipher::init_with_cipher] under [cipher::init] (lines 267-388):
    for a name the lookup resolves to a generic entry, on an object that
    is not initialized: when [init] answers [OK] the build has a generic
    back-end, the back-end knows the cipher under the entry's name for
    it, and the object holds an encryption context exactly when the
    mode has [EN_CMODE_ENCRYPT] and a decryption context exactly when
    it has [EN_CMODE_DECRYPT]; when [init] fails, each context is null
    or as it was before the call. *)
Theorem generic_init_hands_over_contexts (cfg : build_config) (B : backend)
    (nm : option string) (mode : Z) (w : world B) (d : cipher_interface_info_t) :
  initialized (self w) = false ->
  get_cipher_interface_by_name cfg nm = Some d ->
  method d = EN_CIMT_CIPHER ->
  let rw := run (init cfg B nm mode) w in
  (fst rw = OK ->
   CRYPTO_GENERIC cfg <> USE_NONE /\ backend_has cfg B d = true
   /\ contexts_as_asked mode (self (snd rw)))
  /\ (fst rw <> OK -> contexts_given_up (self w) (self (snd rw))).
Proof.
  intros Hi Hl Hm. cbv zeta.
  pose proof (init_result cfg B nm mode w Hi) as H. cbv zeta in H.
  destruct H as (_ & _ & _ & Hok & Hfail).
  split.
  - intros Hr. destruct (Hok Hr) as (d' & Hl' & _ & Hgen & _).
    assert (d' = d) by congruence. subst d'.
    destruct (Hgen Hm) as (G1 & G2 & G3 & G4 & _).
    split; [exact G1|]. split; [|exact G4].
    destruct (lookup_registered cfg nm d Hl) as (Hin & _ & _).
    destruct (get_cipher_by_name_known cfg B (name d) d w
                (generic_entry_lookup cfg d Hin Hm)) as (kt & l & Hk & Hnull).
    rewrite Hk in G2. cbn [value_of] in G2. injection G2 as G2. subst kt.
    destruct (cipher_kt_ (self (snd (run (init cfg B nm mode) w))));
      [|congruence].
    cbn [is_null] in Hnull. destruct (backend_has cfg B d); [reflexivity | discriminate].
  - intros Hr. apply (Hfail Hr).
Qed.

(** X10 on [init("aes-128-cfb", EN_CMODE_ENCRYPT)] of a new object. *)
Lemma generic_init_hands_over_contexts_witness :
  let d := entry "aes-128-cfb" EN_CIMT_CIPHER None "AES-128-CFB128" EN_CIFT_NONE in
  let w := world_of Example.fresh in
  let rw := run (init Example.full_build Example.toy (Some "aes-128-cfb"%string) 1) w in
  (fst rw = OK ->
   CRYPTO_GENERIC Example.full_build <> USE_NONE
   /\ backend_has Example.full_build Example.toy d = true
   /\ contexts_as_asked 1 (self (snd rw)))
  /\ (fst rw <> OK -> contexts_given_up (self w) (self (snd rw))).
Proof.
  exact (generic_init_hands_over_contexts Example.full_build Example.toy
           (Some "aes-128-cfb"%string) 1 (world_of Example.fresh)
           (entry "aes-128-cfb" EN_CIMT_CIPHER None "AES-128-CFB128" EN_CIFT_NONE)
           eq_refl ltac:(vm_compute; reflexivity) eq_refl).
Defined.

(** X11. [cipher::init] followed by a crypto call (lines 284-313 with
    lines 789-791, 905-907, 1016-1018 and 1170-1172): after [init] has
    opened a generic cipher with a mode that lacks the bit of a
    direction, every call of that direction that passes the AEAD guard
    and the parameter test answers [CIPHER_DISABLED], with error number
    0, the IV zero-padded, no back-end call and nothing stored through
    the caller's pointers. *)
Theorem direction_not_asked_for_is_disabled (cfg : build_config) (B : backend)
    (nm : option string) (mode : Z) (w w2 : world B) (d : cipher_interface_info_t)
    (dr : direction) (inp : list byte) (ad tag_in : option (list byte)) (tag_len : Z) :
  initialized (self w) = false ->
  get_cipher_interface_by_name cfg nm = Some d ->
  method d = EN_CIMT_CIPHER ->
  fst (run (init cfg B nm mode) w) = OK ->
  mode_has mode (mode_bit dr) = false ->
  self w2 = self (snd (run (init cfg B nm mode) w)) ->
  bad_crypt_params cfg B (Some inp) w2 = false ->
  let disabled := (CIPHER_DISABLED, on_self (set_last_errno 0) (padded cfg w2)) in
  (is_aead (self w2) = false -> run (crypt cfg B dr (Some inp)) w2 = disabled)
  /\ (is_aead (self w2) = true ->
      match dr with
      | ENCRYPT => run (encrypt_aead cfg B (Some inp) ad tag_len) w2
      | DECRYPT => run (decrypt_aead cfg B (Some inp) ad tag_in tag_len) w2
      end = disabled).
Proof.
  intros Hi Hl Hm Hok Hmode Hself Hb. cbv zeta.
  pose proof (init_result cfg B nm mode w Hi) as H. cbv zeta in H.
  destruct H as (_ & _ & _ & H & _).
  destruct (H Hok) as (d' & Hl' & Hd' & Hgen & _).
  assert (d' = d) by congruence. subst d'.
  destruct (Hgen Hm) as (_ & _ & _ & (He & Hdc) & _).
  rewrite <- Hself in Hd', He, Hdc.
  assert (Hnone : context_of B dr (self w2) = None).
  { destruct dr; cbn [context_of mode_bit] in *; rewrite Hmode in *;
      [destruct (cipher_context_enc (self w2)) | destruct (cipher_context_dec (self w2))];
      try reflexivity; discriminate. }
  split.
  - intros Ha. apply (crypt_disabled cfg B dr d inp w2 Hd' Hm Ha Hb Hnone).
  - intros Ha. destruct dr; cbn [context_of] in Hnone.
    + apply (encrypt_aead_disabled cfg B d inp ad tag_len w2 Hd' Hm Ha Hb Hnone).
    + apply (decrypt_aead_disabled cfg B d inp ad tag_in tag_len w2 Hd' Hm Ha Hb Hnone).
Qed.

(** X11 on aes-128-cfb opened for encryption only, then asked to decrypt. *)
Lemma direction_not_asked_for_is_disabled_witness :
  let w := world_of Example.fresh in
  let opened := self (snd (run (init Example.full_build Example.toy
                                  (Some "aes-128-cfb"%string) 1) w)) in
  let w2 := Example.with_buffers opened 8 0 in
  let disabled := (CIPHER_DISABLED,
                   on_self (set_last_errno 0) (padded Example.full_build w2)) in
  (is_aead (self w2) = false ->
   run (crypt Example.full_build Example.toy DECRYPT (Some [x61; x62; x63])) w2 = disabled)
  /\ (is_aead (self w2) = true ->
      run (decrypt_aead Example.full_build Example.toy (Some [x61; x62; x63]) None None 0) w2
      = disabled).
Proof.
  exact (direction_not_asked_for_is_disabled Example.full_build Example.toy
           (Some "aes-128-cfb"%string) 1 (world_of Example.fresh)
           (Example.with_buffers
              (self (snd (run (init Example.full_build Example.toy
                                 (Some "aes-128-cfb"%string) 1)
                            (world_of Example.fresh)))) 8 0)
           (entry "aes-128-cfb" EN_CIMT_CIPHER None "AES-128-CFB128" EN_CIFT_NONE)
           DECRYPT [x61; x62; x63] None None 0
           eq_refl ltac:(vm_compute; reflexivity) eq_refl ltac:(vm_compute; reflexivity)
           eq_refl eq_refl ltac:(vm_compute; reflexivity)).
Defined.

(** X12. The first guard of every member function (lines 390-393, 639-646,
    711-714, 761-764, 877-880, 994-997, 1141-1144) and the getters
    (lines 472-637): on an object that is not initialized, [close],
    [set_key], [set_iv], [encrypt], [decrypt], [encrypt_aead] and
    [decrypt_aead] answer [NOT_INITED] and change the error number
    alone, and the three size getters answer 0. *)
Theorem uninitialized_object_refuses (cfg : build_config) (B : backend) (w : world B)
    (dr : direction) (input ad tag_in : option (list byte)) (tag_len : Z)
    (key iv : list byte) (key_bitlen : Z) :
  initialized (self w) = false ->
  let refused := (NOT_INITED, on_self (set_last_errno 0) w) in
  run (close cfg B) w = refused
  /\ run (set_iv cfg B iv) w = refused
  /\ run (crypt cfg B dr input) w = refused
  /\ run (encrypt_aead cfg B input ad tag_len) w = refused
  /\ run (decrypt_aead cfg B input ad tag_in tag_len) w = refused
  /\ (exists e, run (set_key cfg B key key_bitlen) w
                = (NOT_INITED, on_self (set_last_errno e) w))
  /\ get_iv_size cfg B (self w) = 0
  /\ get_key_bits cfg B (self w) = 0
  /\ get_block_size cfg B (self w) = 0.
Proof.
  intros Hi. cbv zeta.
  split; [apply not_initialized_close; exact Hi|].
  split; [apply not_initialized_set_iv; exact Hi|].
  split; [apply not_initialized_crypt; exact Hi|].
  split; [apply not_initialized_encrypt_aead; exact Hi|].
  split; [apply not_initialized_decrypt_aead; exact Hi|].
  split; [apply not_initialized_set_key; exact Hi|].
  apply not_initialized_sizes. exact Hi.
Qed.

(** X12 on a new object. *)
Lemma uninitialized_object_refuses_witness :
  let w := Example.with_buffers Example.fresh 8 16 in
  let refused := (NOT_INITED, on_self (set_last_errno 0) w) in
  run (close Example.full_build Example.toy) w = refused
  /\ run (set_iv Example.full_build Example.toy Example.iv16) w = refused
  /\ run (crypt Example.full_build Example.toy ENCRYPT (Some [x61])) w = refused
  /\ run (encrypt_aead Example.full_build Example.toy (Some [x61]) None 16) w = refused
  /\ run (decrypt_aead Example.full_build Example.toy (Some [x61]) None None 16) w = refused
  /\ (exists e, run (set_key Example.full_build Example.toy Example.key32 256) w
                = (NOT_INITED, on_self (set_last_errno e) w))
  /\ get_iv_size Example.full_build Example.toy (self w) = 0
  /\ get_key_bits Example.full_build Example.toy (self w) = 0
  /\ get_block_size Example.full_build Example.toy (self w) = 0.
Proof.
  exact (uninitialized_object_refuses Example.full_build Example.toy
           (Example.with_buffers Example.fresh 8 16)
           ENCRYPT (Some [x61]) None None 16 Example.key32 Example.iv16 256 eq_refl).
Defined.

(** X13. [cipher::close] and [cipher::close_with_cipher] (lines 390-462):
    on an initialized object that is in order, [close] answers [OK],
    leaves the object without descriptor and without generic context,
    keeps the key buffers and the IV, and releases each context the
    object held by one call; the next crypto call answers
    [NOT_INITED]. *)
Theorem close_releases_every_context (cfg : build_config) (B : backend) (w : world B) :
  in_order cfg (self w) ->
  initialized (self w) = true ->
  let rw := run (close cfg B) w in
  fst rw = OK
  /\ interface_ (self (snd rw)) = None
  /\ live_contexts (self (snd rw)) = 0%nat
  /\ same_keys w (snd rw) /\ same_iv w (snd rw)
  /\ (exists l, calls (snd rw) = calls w ++ l
                /\ length (filter is_free_call l) = live_contexts (self w))
  /\ (forall w2 dr input,
        self w2 = self (snd rw) -> fst (run (crypt cfg B dr input) w2) = NOT_INITED).
Proof.
  intros Ho Hi. cbv zeta.
  pose proof Ho as Ho'. unfold in_order in Ho'. unfold initialized in Hi.
  destruct (interface_ (self w)) as [d|] eqn:Hd; [|discriminate Hi].
  destruct Ho' as (Hin & _ & Hgen & Helse).
  assert (Hm : method d <> EN_CIMT_INVALID)
    by (intros Hm; rewrite Hm in Hi; discriminate Hi).
  pose proof (close_result cfg B d w Hd Hm) as H. cbv zeta in H.
  destruct H as (H1 & H2 & H3 & _ & _ & H4 & H5 & H6).
  assert (Hlast : forall w2 dr input,
             self w2 = self (snd (run (close cfg B) w)) ->
             fst (run (crypt cfg B dr input) w2) = NOT_INITED).
  { intros w2 dr input Hself. rewrite not_initialized_crypt; [reflexivity|].
    unfold initialized. rewrite Hself, H1. reflexivity. }
  pose proof (registry_methods cfg d Hin) as Hr.
  destruct Hr as [Hr | [Hr | [Hr | Hr]]]; [congruence | | |].
  - assert (Hc : method d <> EN_CIMT_CIPHER) by (rewrite Hr; discriminate).
    destruct (H5 Hc) as (C1 & C2 & C3).
    pose proof (Helse Hc) as Hl. pose proof Hl as Hl'.
    apply live_contexts_zero in Hl'. destruct Hl' as (L1 & L2).
    split; [apply H6; left; exact Hr|]. split; [exact H1|].
    split; [apply live_contexts_zero; split; congruence|].
    split; [exact H2|]. split; [exact H3|].
    split; [|exact Hlast].
    exists []. rewrite app_nil_r, Hl. auto.
  - destruct (H4 Hr (Hgen Hr)) as (G1 & G2 & G3).
    repeat (split; [assumption|]). exact Hlast.
  - assert (Hc : method d <> EN_CIMT_CIPHER)
      by (intros Hc; rewrite Hc in Hr; discriminate Hr).
    destruct (H5 Hc) as (C1 & C2 & C3).
    pose proof (Helse Hc) as Hl. pose proof Hl as Hl'.
    apply live_contexts_zero in Hl'. destruct Hl' as (L1 & L2).
    split; [apply H6; right; exact Hr|]. split; [exact H1|].
    split; [apply live_contexts_zero; split; congruence|].
    split; [exact H2|]. split; [exact H3|].
    split; [|exact Hlast].
    exists []. rewrite app_nil_r, Hl. auto.
Qed.

(** The sessions of the examples are in order: their storage held no
    context. *)
Lemma opened_in_order cfg nm : in_order cfg (Example.opened cfg nm).
Proof. apply init_in_order. reflexivity. Qed.

(** X13 on aes-128-cfb opened for both directions. *)
Lemma close_releases_every_context_witness :
  let w := world_of (Example.opened Example.full_build "aes-128-cfb") in
  let rw := run (close Example.full_build Example.toy) w in
  fst rw = OK
  /\ interface_ (self (snd rw)) = None
  /\ live_contexts (self (snd rw)) = 0%nat
  /\ same_keys w (snd rw) /\ same_iv w (snd rw)
  /\ (exists l, calls (snd rw) = calls w ++ l
                /\ length (filter is_free_call l) = live_contexts (self w))
  /\ (forall w2 dr input,
        self w2 = self (snd rw) ->
        fst (run (crypt Example.full_build Example.toy dr input) w2) = NOT_INITED).
Proof.
  exact (close_releases_every_context Example.full_build Example.toy
           (world_of (Example.opened Example.full_build "aes-128-cfb"))
           (opened_in_order Example.full_build "aes-128-cfb")
           ltac:(vm_compute; reflexivity)).
Defined.

(** X14. The parameter test of the four crypto calls (lines 770-772,
    886-888, 1004-1006 and 1151-1153): on an initialized object, a call
    of the right family whose input, output or length pointer is null,
    or whose announced capacity is below the input length plus
    [get_block_size()], answers [INVALID_PARAM] with error number -1 and
    changes nothing else: no padding of the IV, no back-end call, no
    store through the caller's pointers. *)
Theorem poor_parameters_are_rejected (cfg : build_config) (B : backend) (w : world B)
    (dr : direction) (input ad tag_in : option (list byte)) (tag_len : Z) :
  initialized (self w) = true ->
  input = None \/ output w = None \/ olen w = None
  \/ (exists n, olen w = Some n
                /\ n < ilen_of input + get_block_size cfg B (self w) < 2 ^ 64) ->
  let rejected := (INVALID_PARAM, on_self (set_last_errno (-1)) w) in
  (is_aead (self w) = false -> run (crypt cfg B dr input) w = rejected)
  /\ (is_aead (self w) = true ->
      run (encrypt_aead cfg B input ad tag_len) w = rejected
      /\ run (decrypt_aead cfg B input ad tag_in tag_len) w = rejected).
Proof.
  intros Hi Hp. cbv zeta.
  pose proof (poor_params_are_bad cfg B input w Hp) as Hb.
  split.
  - intros Ha. apply crypt_bad_params; assumption.
  - intros Ha. split.
    + apply encrypt_aead_bad_params; assumption.
    + apply decrypt_aead_bad_params; assumption.
Qed.

(** X14 on aes-128-cfb: three bytes of input, block size 1, and an
    output buffer announced as three bytes. *)
Lemma poor_parameters_are_rejected_witness :
  let w := Example.with_buffers (Example.opened Example.full_build "aes-128-cfb") 3 0 in
  let input := Some [x61; x62; x63] in
  let rejected := (INVALID_PARAM, on_self (set_last_errno (-1)) w) in
  (is_aead (self w) = false ->
   run (crypt Example.full_build Example.toy ENCRYPT input) w = rejected)
  /\ (is_aead (self w) = true ->
      run (encrypt_aead Example.full_build Example.toy input None 16) w = rejected
      /\ run (decrypt_aead Example.full_build Example.toy input None None 16) w = rejected).
Proof.
  exact (poor_parameters_are_rejected Example.full_build Example.toy
           (Example.with_buffers (Example.opened Example.full_build "aes-128-cfb") 3 0)
           ENCRYPT (Some [x61; x62; x63]) None None 16
           ltac:(vm_compute; reflexivity)
           ltac:(right; right; right; exists 3; split;
                 [reflexivity | vm_compute; split; reflexivity])).
Defined.

(** X15. The tag-length test of the Sodium AEAD cases (lines 1095-1097,
    1107-1109, 1121-1123, 1249-1251, 1260-1262 and 1274-1276): on a
    session of a registered Sodium AEAD method, a call that passes the
    parameter test with a tag length below 16 answers
    [LIBSODIUM_OPERATION_TAG_LEN]; the IV has been zero-padded by then,
    and nothing else has changed: no primitive is called, nothing is
    stored, the error number is as before. *)
Theorem sodium_aead_short_tag (cfg : build_config) (B : backend) (w : world B)
    (d : cipher_interface_info_t) (inp : list byte) (ad tag_in : option (list byte))
    (tag_len : Z) :
  In d (supported_ciphers cfg) ->
  interface_ (self w) = Some d ->
  is_libsodium_aead (method d) = true ->
  bad_crypt_params cfg B (Some inp) w = false ->
  tag_len < 16 ->
  run (encrypt_aead cfg B (Some inp) ad tag_len) w
  = (LIBSODIUM_OPERATION_TAG_LEN, padded cfg w)
  /\ run (decrypt_aead cfg B (Some inp) ad tag_in tag_len) w
     = (LIBSODIUM_OPERATION_TAG_LEN, padded cfg w).
Proof.
  intros Hin Hd Hm Hb Ht.
  assert (Hl : is_libsodium_method (method d) = true)
    by (unfold is_libsodium_method; rewrite Hm; apply orb_true_r).
  destruct (registry_libsodium cfg d Hin Hl) as (Hs & _ & Hf & Hx).
  assert (Ha : is_aead (self w) = true)
    by (unfold is_aead; rewrite Hd, (Hf Hm); reflexivity).
  split.
  - apply (encrypt_aead_short_tag cfg B d inp ad tag_len w Hd Hm Ha Hs Hx Hb Ht).
  - apply (decrypt_aead_short_tag cfg B d inp ad tag_in tag_len w Hd Hm Ha Hs Hx Hb Ht).
Qed.

(** X15 on chacha20-poly1305 with an eight-byte tag buffer. *)
Lemma sodium_aead_short_tag_witness :
  let w := Example.with_buffers
             (Example.keyed Example.full_build "chacha20-poly1305" Example.key32 Example.iv8)
             8 8 in
  run (encrypt_aead Example.full_build Example.toy (Some [x61; x62; x63]) None 8) w
  = (LIBSODIUM_OPERATION_TAG_LEN, padded Example.full_build w)
  /\ run (decrypt_aead Example.full_build Example.toy (Some [x61; x62; x63]) None
            (Some (repeat x00 8)) 8) w
     = (LIBSODIUM_OPERATION_TAG_LEN, padded Example.full_build w).
Proof.
  exact (sodium_aead_short_tag Example.full_build Example.toy
           (Example.with_buffers
              (Example.keyed Example.full_build "chacha20-poly1305" Example.key32 Example.iv8)
              8 8)
           (entry "chacha20-poly1305" EN_CIMT_LIBSODIUM_CHACHA20_POLY1305 None
              "CHACHA20-POLY1305" EN_CIFT_AEAD)
           [x61; x62; x63] None (Some (repeat x00 8)) 8
           ltac:(simpl; find_entry) ltac:(vm_compute; reflexivity) eq_refl
           ltac:(vm_compute; reflexivity) ltac:(lia)).
Defined.

(** X16. The four crypto calls (lines 761-1290), whatever their arguments
    and however they end: they keep the descriptor, the resolved cipher
    and both key buffers; they neither create nor release a context and
    leave the context of the other direction as it is; they only add to
    the trace; and the IV is afterwards as before or zero-padded. *)
Theorem crypto_calls_keep_the_session (cfg : build_config) (B : backend) (w : world B)
    (dr : direction) (input ad tag_in : option (list byte)) (tag_len : Z) :
  crypto_effect cfg dr w (snd (run (crypt cfg B dr input) w))
  /\ crypto_effect cfg ENCRYPT w (snd (run (encrypt_aead cfg B input ad tag_len) w))
  /\ crypto_effect cfg DECRYPT w
       (snd (run (decrypt_aead cfg B input ad tag_in tag_len) w)).
Proof.
  split; [apply crypt_effect|]. split; [apply encrypt_aead_effect|].
  apply decrypt_aead_effect.
Qed.

(** X17. The four crypto calls (lines 761-1290): a call that answers
    [NOT_INITED], [INVALID_PARAM], [CIPHER_DISABLED],
    [MUST_CALL_AEAD_API], [MUST_NOT_CALL_AEAD_API] or
    [LIBSODIUM_OPERATION_TAG_LEN] has called no back-end and has stored
    nothing through [output], [olen] or [tag]. *)
Theorem guard_codes_leave_no_trace (cfg : build_config) (B : backend) (w : world B)
    (dr : direction) (input ad tag_in : option (list byte)) (tag_len : Z) :
  (is_guard_code (fst (run (crypt cfg B dr input) w)) = true ->
   same_buffers w (snd (run (crypt cfg B dr input) w))
   /\ calls (snd (run (crypt cfg B dr input) w)) = calls w)
  /\ (is_guard_code (fst (run (encrypt_aead cfg B input ad tag_len) w)) = true ->
      same_buffers w (snd (run (encrypt_aead cfg B input ad tag_len) w))
      /\ calls (snd (run (encrypt_aead cfg B input ad tag_len) w)) = calls w)
  /\ (is_guard_code (fst (run (decrypt_aead cfg B input ad tag_in tag_len) w)) = true ->
      same_buffers w (snd (run (decrypt_aead cfg B input ad tag_in tag_len) w))
      /\ calls (snd (run (decrypt_aead cfg B input ad tag_in tag_len) w)) = calls w).
Proof.
  split; [apply crypt_guarded|]. split; [apply encrypt_aead_guarded|].
  apply decrypt_aead_guarded.
Qed.

(** X18. All member functions that change the object (lines 222-462 and
    639-1290): an object that is in order stays in order under [init],
    [close], [set_key], [set_iv], [clear_iv] and the four crypto calls,
    whatever they answer. The constructor leaves the context members as
    the storage held them, so a new object need not be in order; but
    [init] that opens a generic cipher on an object that is not
    initialized leaves it in order whatever the object held. *)
Theorem session_stays_in_order (cfg : build_config) (B : backend) (w : world B)
    (nm : option string) (mode : Z) (key iv : list byte) (key_bitlen : Z)
    (dr : direction) (input ad tag_in : option (list byte)) (tag_len : Z) :
  in_order cfg (self w) ->
  in_order cfg (self (snd (run (init cfg B nm mode) w)))
  /\ in_order cfg (self (snd (run (close cfg B) w)))
  /\ in_order cfg (self (snd (run (set_key cfg B key key_bitlen) w)))
  /\ in_order cfg (self (snd (run (set_iv cfg B iv) w)))
  /\ in_order cfg (self (state_after (clear_iv B w)))
  /\ in_order cfg (self (snd (run (crypt cfg B dr input) w)))
  /\ in_order cfg (self (snd (run (encrypt_aead cfg B input ad tag_len) w)))
  /\ in_order cfg (self (snd (run (decrypt_aead cfg B input ad tag_in tag_len) w)))
  /\ (forall (w0 : world B) (d : cipher_interface_info_t),
        initialized (self w0) = false ->
        get_cipher_interface_by_name cfg nm = Some d ->
        method d = EN_CIMT_CIPHER ->
        fst (run (init cfg B nm mode) w0) = OK ->
        in_order cfg (self (snd (run (init cfg B nm mode) w0)))).
Proof.
  intros Ho.
  split; [apply init_in_order; exact Ho|].
  split; [apply close_in_order; exact Ho|].
  split; [apply set_key_in_order; exact Ho|].
  split; [apply set_iv_in_order; exact Ho|].
  split; [revert Ho; apply in_order_kept; destruct w as [ci ? ? ? ?]; destruct ci;
          reflexivity|].
  split; [apply (effect_in_order cfg B dr w); [apply crypt_effect | exact Ho]|].
  split; [apply (effect_in_order cfg B ENCRYPT w); [apply encrypt_aead_effect | exact Ho]|].
  split; [apply (effect_in_order cfg B DECRYPT w); [apply decrypt_aead_effect | exact Ho]|].
  intros w0 d Hi Hl Hm Hok. apply (init_generic_in_order cfg B nm mode w0 d); assumption.
Qed.

(** X18 on the aes-128-cfb session of the examples. *)
Lemma session_stays_in_order_witness :
  let cfg := Example.full_build in
  let w := Example.with_buffers (Example.opened Example.full_build "aes-128-cfb") 8 16 in
  in_order cfg (self (snd (run (init cfg Example.toy (Some "rc4"%string) 3) w)))
  /\ in_order cfg (self (snd (run (close cfg Example.toy) w)))
  /\ in_order cfg (self (snd (run (set_key cfg Example.toy Example.key32 256) w)))
  /\ in_order cfg (self (snd (run (set_iv cfg Example.toy Example.iv16) w)))
  /\ in_order cfg (self (state_after (clear_iv Example.toy w)))
  /\ in_order cfg (self (snd (run (crypt cfg Example.toy ENCRYPT (Some [x61])) w)))
  /\ in_order cfg (self (snd (run (encrypt_aead cfg Example.toy (Some [x61]) None 16) w)))
  /\ in_order cfg
       (self (snd (run (decrypt_aead cfg Example.toy (Some [x61]) None None 16) w)))
  /\ (forall (w0 : world Example.toy) (d : cipher_interface_info_t),
        initialized (self w0) = false ->
        get_cipher_interface_by_name cfg (Some "rc4"%string) = Some d ->
        method d = EN_CIMT_CIPHER ->
        fst (run (init cfg Example.toy (Some "rc4"%string) 3) w0) = OK ->
        in_order cfg (self (snd (run (init cfg Example.toy (Some "rc4"%string) 3) w0)))).
Proof.
  exact (session_stays_in_order Example.full_build Example.toy
           (Example.with_buffers (Example.opened Example.full_build "aes-128-cfb") 8 16)
           (Some "rc4"%string) 3 Example.key32 Example.iv16 256
           ENCRYPT (Some [x61]) None None 16
           (opened_in_order Example.full_build "aes-128-cfb")).
Defined.

(** What [set_iv] stores when it answers [OK] under a generic or a Sodium
    descriptor. *)
Lemma set_iv_stored cfg B iv (w : world B) d :
  interface_ (self w) = Some d ->
  method d = EN_CIMT_CIPHER \/ is_libsodium_method (method d) = true ->
  fst (run (set_iv cfg B iv) w) = OK ->
  iv_ (self (snd (run (set_iv cfg B iv) w))) = iv
  /\ last_errorno_ (self (snd (run (set_iv cfg B iv) w))) = 0.
Proof.
  intros Hd Hm. open_world w. cbn in Hd. subst.
  remember (run (set_iv cfg B iv) _) as rw eqn:E.
  unfold set_iv, run, bind, call_fn, this, modify, call,
    setup_errorno, return_, pure, skip, on_self, initialized in E.
  cbn -[Z.eqb Z.gtb Z.geb Z.ltb Z.leb Z.div Z.mul Z.land get_key_bits get_iv_size
        memcpy to_int repeat size] in E.
  destruct (method d) eqn:Em;
    try (destruct Hm as [Hm | Hm]; discriminate Hm);
    cbn -[Z.eqb Z.gtb Z.geb Z.ltb Z.leb Z.div Z.mul Z.land get_key_bits get_iv_size
          memcpy to_int repeat size] in E;
    repeat key_step E;
    subst rw; cbn; intros H; try discriminate H; auto.
Qed.

(** X19. [cipher::set_key] and [cipher::set_iv] (lines 639-757):
    [set_key] keeps the descriptor, the resolved cipher, the IV and the
    caller's buffers, only adds to the trace and neither creates nor
    releases a context; [set_iv] keeps the descriptor, the key buffers,
    the contexts, the buffers and the trace, leaves the IV as it is when
    it does not answer [OK], and when it answers [OK] under a generic or
    a Sodium descriptor the IV is the bytes given, as they are, and the
    error number is 0. *)
Theorem set_key_and_set_iv_keep_the_rest (cfg : build_config) (B : backend)
    (w : world B) (key iv : list byte) (key_bitlen : Z) :
  (let rw := run (set_key cfg B key key_bitlen) w in
   same_descriptor w (snd rw) /\ same_iv w (snd rw) /\ same_buffers w (snd rw)
   /\ trace_grows w (snd rw)
   /\ live_contexts (self (snd rw)) = live_contexts (self w))
  /\ (let rw := run (set_iv cfg B iv) w in
      same_descriptor w (snd rw) /\ same_keys w (snd rw) /\ same_buffers w (snd rw)
      /\ calls (snd rw) = calls w
      /\ cipher_context_enc (self (snd rw)) = cipher_context_enc (self w)
      /\ cipher_context_dec (self (snd rw)) = cipher_context_dec (self w)
      /\ (fst rw <> OK -> same_iv w (snd rw))
      /\ (fst rw = OK ->
          forall d, interface_ (self w) = Some d ->
                    method d = EN_CIMT_CIPHER \/ is_libsodium_method (method d) = true ->
                    iv_ (self (snd rw)) = iv /\ last_errorno_ (self (snd rw)) = 0)).
Proof.
  split; cbv zeta.
  - pose proof (set_key_effect cfg B key key_bitlen w) as H. cbv zeta in H.
    destruct H as (H1 & H2 & H3 & H4 & H5 & H6).
    do 4 (split; [assumption|]). apply live_contexts_null; assumption.
  - pose proof (set_iv_effect cfg B iv w) as H. cbv zeta in H.
    destruct H as (H1 & H2 & H3 & H4 & H5 & H6 & H7).
    do 6 (split; [assumption|]). split; [exact H7|].
    intros Hok d Hd Hm. apply (set_iv_stored cfg B iv w d Hd Hm Hok).
Qed.

(** X20. The padding step of the four crypto calls (lines 774-778,
    890-894, 1008-1012 and 1155-1159): a call that passes the first two
    guards and the parameter test leaves the object with the padded IV,
    however it ends; the padded IV is the IV as it was followed by zero
    bytes, and when bytes were added its length is [get_iv_size()]. *)
Theorem crypto_call_leaves_padded_iv (cfg : build_config) (B : backend) (w : world B)
    (dr : direction) (input ad tag_in : option (list byte)) (tag_len : Z) :
  initialized (self w) = true ->
  bad_crypt_params cfg B input w = false ->
  (is_aead (self w) = false ->
   iv_ (self (snd (run (crypt cfg B dr input) w))) = padded_iv cfg B (self w))
  /\ (is_aead (self w) = true ->
      iv_ (self (snd (run (encrypt_aead cfg B input ad tag_len) w)))
      = padded_iv cfg B (self w)
      /\ iv_ (self (snd (run (decrypt_aead cfg B input ad tag_in tag_len) w)))
         = padded_iv cfg B (self w))
  /\ exists k, padded_iv cfg B (self w) = iv_ (self w) ++ repeat x00 k
               /\ (k <> 0%nat ->
                   size (iv_ (self w) ++ repeat x00 k) = get_iv_size cfg B (self w)).
Proof.
  intros Hi Hb.
  split; [intros Ha; apply crypt_pads; assumption|].
  split; [|apply padded_iv_shape].
  intros Ha. split; [apply encrypt_aead_pads | apply decrypt_aead_pads]; assumption.
Qed.

(** X20 on a salsa20 session whose IV was never set. *)
Lemma crypto_call_leaves_padded_iv_witness :
  let cfg := Example.full_build in
  let w := Example.with_buffers (Example.opened Example.full_build "salsa20") 8 0 in
  (is_aead (self w) = false ->
   iv_ (self (snd (run (crypt cfg Example.toy ENCRYPT (Some [x61; x62; x63])) w)))
   = padded_iv cfg Example.toy (self w))
  /\ (is_aead (self w) = true ->
      iv_ (self (snd (run (encrypt_aead cfg Example.toy (Some [x61; x62; x63]) None 16) w)))
      = padded_iv cfg Example.toy (self w)
      /\ iv_ (self (snd (run (decrypt_aead cfg Example.toy (Some [x61; x62; x63])
                               None None 16) w)))
         = padded_iv cfg Example.toy (self w))
  /\ exists k, padded_iv cfg Example.toy (self w) = iv_ (self w) ++ repeat x00 k
               /\ (k <> 0%nat ->
                   size (iv_ (self w) ++ repeat x00 k)
                   = get_iv_size cfg Example.toy (self w)).
Proof.
  exact (crypto_call_leaves_padded_iv Example.full_build Example.toy
           (Example.with_buffers (Example.opened Example.full_build "salsa20") 8 0)
           ENCRYPT (Some [x61; x62; x63]) None None 16
           ltac:(vm_compute; reflexivity) ltac:(vm_compute; reflexivity)).
Defined.

(** X21. The Sodium AEAD cases of [cipher::encrypt_aead] and
    [cipher::decrypt_aead] (lines 1091-1133 and 1245-1284): on a session
    of a registered Sodium AEAD method, a call that passes the parameter
    test with a tag length of at least 16 calls the detached primitive
    of the method once, on the padded IV and the key buffer; it answers
    [OK] when the primitive returns 0 and [LIBSODIUM_OPERATION]
    otherwise, the error number is what the primitive returned, the
    bytes written land at the start of the output and tag buffers, and
    the length behind [olen] is not updated. *)
Theorem sodium_aead_keeps_olen (cfg : build_config) (B : backend) (w : world B)
    (d : cipher_interface_info_t) (inp : list byte) (ad tag_in : option (list byte))
    (tag_len : Z) :
  In d (supported_ciphers cfg) ->
  interface_ (self w) = Some d ->
  is_libsodium_aead (method d) = true ->
  bad_crypt_params cfg B (Some inp) w = false ->
  16 <= tag_len ->
  let iv := padded_iv cfg B (self w) in
  let key := libsodium_context_key (self w) in
  (let r := crypto_aead_encrypt_detached B (method d) inp ad iv key in
   let rw := run (encrypt_aead cfg B (Some inp) ad tag_len) w in
   fst rw = (if c_ret r =? 0 then OK else LIBSODIUM_OPERATION)
   /\ last_errorno_ (self (snd rw)) = c_ret r
   /\ olen (snd rw) = olen w
   /\ output (snd rw) = option_map (blit (c_out r)) (output w)
   /\ tag (snd rw) = option_map (blit (c_tag r)) (tag w)
   /\ calls (snd rw) = calls w ++ [CALL_aead_encrypt_detached (method d) inp ad iv key])
  /\ (let r := crypto_aead_decrypt_detached B (method d) inp tag_in ad iv key in
      let rw := run (decrypt_aead cfg B (Some inp) ad tag_in tag_len) w in
      fst rw = (if c_ret r =? 0 then OK else LIBSODIUM_OPERATION)
      /\ last_errorno_ (self (snd rw)) = c_ret r
      /\ olen (snd rw) = olen w
      /\ output (snd rw) = option_map (blit (c_out r)) (output w)
      /\ tag (snd rw) = tag w
      /\ calls (snd rw)
         = calls w ++ [CALL_aead_decrypt_detached (method d) inp tag_in ad iv key]).
Proof.
  intros Hin Hd Hm Hb Ht.
  assert (Hl : is_libsodium_method (method d) = true)
    by (unfold is_libsodium_method; rewrite Hm; apply orb_true_r).
  destruct (registry_libsodium cfg d Hin Hl) as (Hs & _ & Hf & Hx).
  cbv zeta. split.
  - rewrite (aead_encrypt_result cfg B d w inp ad tag_len Hd Hm (Hf Hm) Hs Hx Hb Ht).
    cbv zeta. cbn [fst snd self output olen tag calls].
    repeat split; destruct (self w); reflexivity.
  - rewrite (aead_decrypt_result cfg B d w inp ad tag_in tag_len Hd Hm (Hf Hm) Hs Hx Hb Ht).
    cbv zeta. cbn [fst snd self output olen tag calls].
    repeat split; destruct (self w); reflexivity.
Qed.

(** X21 on chacha20-poly1305 with a sixteen-byte tag buffer. *)
Lemma sodium_aead_keeps_olen_witness :
  let cfg := Example.full_build in
  let w := Example.with_buffers
             (Example.keyed Example.full_build "chacha20-poly1305" Example.key32 Example.iv8)
             8 16 in
  let d := entry "chacha20-poly1305" EN_CIMT_LIBSODIUM_CHACHA20_POLY1305 None
             "CHACHA20-POLY1305" EN_CIFT_AEAD in
  let inp := [x61; x62; x63] in
  let tag_in := Some (repeat x00 16) in
  let iv := padded_iv cfg Example.toy (self w) in
  let key := libsodium_context_key (self w) in
  (let r := crypto_aead_encrypt_detached Example.toy (method d) inp None iv key in
   let rw := run (encrypt_aead cfg Example.toy (Some inp) None 16) w in
   fst rw = (if c_ret r =? 0 then OK else LIBSODIUM_OPERATION)
   /\ last_errorno_ (self (snd rw)) = c_ret r
   /\ olen (snd rw) = olen w
   /\ output (snd rw) = option_map (blit (c_out r)) (output w)
   /\ tag (snd rw) = option_map (blit (c_tag r)) (tag w)
   /\ calls (snd rw) = calls w ++ [CALL_aead_encrypt_detached (method d) inp None iv key])
  /\ (let r := crypto_aead_decrypt_detached Example.toy (method d) inp tag_in None iv key in
      let rw := run (decrypt_aead cfg Example.toy (Some inp) None tag_in 16) w in
      fst rw = (if c_ret r =? 0 then OK else LIBSODIUM_OPERATION)
      /\ last_errorno_ (self (snd rw)) = c_ret r
      /\ olen (snd rw) = olen w
      /\ output (snd rw) = option_map (blit (c_out r)) (output w)
      /\ tag (snd rw) = tag w
      /\ calls (snd rw)
         = calls w ++ [CALL_aead_decrypt_detached (method d) inp tag_in None iv key]).
Proof.
  exact (sodium_aead_keeps_olen Example.full_build Example.toy
           (Example.with_buffers
              (Example.keyed Example.full_build "chacha20-poly1305" Example.key32 Example.iv8)
              8 16)
           (entry "chacha20-poly1305" EN_CIMT_LIBSODIUM_CHACHA20_POLY1305 None
              "CHACHA20-POLY1305" EN_CIFT_AEAD)
           [x61; x62; x63] None (Some (repeat x00 16)) 16
           ltac:(simpl; find_entry) ltac:(vm_compute; reflexivity) eq_refl
           ltac:(vm_compute; reflexivity) ltac:(lia)).
Defined.

Lemma registry_xchacha20 cfg d :
  In d (supported_ciphers cfg) -> method d = EN_CIMT_LIBSODIUM_XCHACHA20 ->
  HAVE_crypto_stream_xchacha20 cfg = true.
Proof.
  unfold supported_ciphers. split_flags cfg; simpl; intros H;
    repeat (destruct H as [<- | H];
            [simpl; intros Hx; try discriminate Hx; reflexivity|]);
    contradiction.
Qed.

(** X23. The size getters (lines 472-637) on a session whose descriptor
    is a table entry that is not generic: the block size is 4 for xxtea
    and 1 for a Sodium method, the key has 128 bits for xxtea and 256
    for a Sodium method, and the IV size is 0 for xxtea, the counter
    size plus the nonce size of the primitive for a stream method, and
    the nonce size for an AEAD method; under the terminator all three
    are 0. *)
Theorem sizes_of_in_process_methods (cfg : build_config) (B : backend) (ci : cipher B)
    (d : cipher_interface_info_t) :
  In d (supported_ciphers cfg) ->
  interface_ ci = Some d ->
  method d <> EN_CIMT_CIPHER ->
  get_block_size cfg B ci
  = match method d with
    | EN_CIMT_INVALID => 0
    | EN_CIMT_XXTEA => 4
    | _ => 1
    end
  /\ get_key_bits cfg B ci
     = match method d with
       | EN_CIMT_INVALID => 0
       | EN_CIMT_XXTEA => 128
       | _ => 256
       end
  /\ get_iv_size cfg B ci
     = match method d with
       | EN_CIMT_LIBSODIUM_CHACHA20 =>
           LIBSODIUM_COUNTER_SIZE + crypto_stream_chacha20_NONCEBYTES
       | EN_CIMT_LIBSODIUM_CHACHA20_IETF =>
           LIBSODIUM_COUNTER_SIZE + crypto_stream_chacha20_ietf_NONCEBYTES
       | EN_CIMT_LIBSODIUM_XCHACHA20 =>
           LIBSODIUM_COUNTER_SIZE + crypto_stream_xchacha20_NONCEBYTES
       | EN_CIMT_LIBSODIUM_SALSA20 =>
           LIBSODIUM_COUNTER_SIZE + crypto_stream_salsa20_NONCEBYTES
       | EN_CIMT_LIBSODIUM_XSALSA20 =>
           LIBSODIUM_COUNTER_SIZE + crypto_stream_xsalsa20_NONCEBYTES
       | EN_CIMT_LIBSODIUM_CHACHA20_POLY1305 => crypto_aead_chacha20poly1305_NPUBBYTES
       | EN_CIMT_LIBSODIUM_CHACHA20_POLY1305_IETF =>
           crypto_aead_chacha20poly1305_IETF_NPUBBYTES
       | EN_CIMT_LIBSODIUM_XCHACHA20_POLY1305_IETF =>
           crypto_aead_xchacha20poly1305_ietf_NPUBBYTES
       | _ => 0
       end.
Proof.
  intros Hin Hd Hm.
  pose proof (registry_methods cfg d Hin) as Hr.
  pose proof (registry_libsodium cfg d Hin) as Hs.
  pose proof (registry_xchacha20 cfg d Hin) as Hx.
  unfold get_block_size, get_key_bits, get_iv_size. rewrite Hd.
  destruct (method d) eqn:Em; try congruence;
    try (destruct Hr as [Hr | [Hr | [Hr | Hr]]]; discriminate Hr);
    try (repeat split; reflexivity);
    destruct (Hs eq_refl) as (-> & _ & _ & Hy);
    rewrite ?(Hx eq_refl), ?(Hy eq_refl); repeat split; reflexivity.
Qed.

(** X23 on the xsalsa20 session of the examples. *)
Lemma sizes_of_in_process_methods_witness :
  let ci := Example.opened Example.full_build "xsalsa20" in
  get_block_size Example.full_build Example.toy ci = 1
  /\ get_key_bits Example.full_build Example.toy ci = 256
  /\ get_iv_size Example.full_build Example.toy ci
     = LIBSODIUM_COUNTER_SIZE + crypto_stream_xsalsa20_NONCEBYTES.
Proof.
  exact (sizes_of_in_process_methods Example.full_build Example.toy
           (Example.opened Example.full_build "xsalsa20")
           (entry "xsalsa20" EN_CIMT_LIBSODIUM_XSALSA20 None "XSALSA20" EN_CIFT_NONE)
           ltac:(simpl; find_entry) ltac:(vm_compute; reflexivity) ltac:(discriminate)).
Defined.

Lemma skipn_repeat {A} (a : A) n k : skipn k (repeat a n) = repeat a (n - k).
Proof.
  revert k. induction n as [|n IH]; intros [|k]; cbn; try reflexivity. apply IH.
Qed.

Lemma firstn_repeat {A} (a : A) n k : firstn k (repeat a n) = repeat a (Nat.min k n).
Proof.
  revert k. induction n as [|n IH]; intros [|k]; cbn; try reflexivity. now rewrite IH.
Qed.

Lemma le_decode_zeros k : le_decode (repeat x00 k) = 0.
Proof. induction k as [|k IH]; cbn [repeat le_decode]; [reflexivity|]. rewrite IH. reflexivity. Qed.

Lemma stream_iv_size cfg B (ci : cipher B) d :
  In d (supported_ciphers cfg) -> interface_ ci = Some d ->
  has_stream_case (method d) = true ->
  16 <= get_iv_size cfg B ci /\ flags d = EN_CIFT_NONE
  /\ CRYPTO_USE_LIBSODIUM cfg = true
  /\ (forall ci' : cipher B, interface_ ci' = Some d ->
                             get_iv_size cfg B ci' = get_iv_size cfg B ci).
Proof.
  intros Hin Hd Hm.
  destruct (has_stream_case_stream _ Hm) as (Hl & Hs).
  destruct (registry_libsodium cfg d Hin Hl) as (Hsod & Hf & _).
  split; [|split; [exact (Hf Hs) | split; [exact Hsod|]]].
  - unfold get_iv_size. rewrite Hd, Hsod.
    destruct (method d); try discriminate Hm; cbn; lia.
  - intros ci' Hd'. unfold get_iv_size. rewrite Hd, Hd'.
    destruct (method d); try discriminate Hm; reflexivity.
Qed.

Lemma set_iv_length cfg B iv (w : world B) d :
  interface_ (self w) = Some d -> is_libsodium_method (method d) = true ->
  fst (run (set_iv cfg B iv) w) = OK ->
  get_iv_size cfg B (self w) = size iv.
Proof.
  intros Hd Hm. unfold set_iv, run, bind, this, initialized. rewrite Hd.
  destruct (method d) eqn:Em; try discriminate Hm;
    cbn [method_eqb method_value Z.eqb Pos.eqb negb];
    destruct (get_iv_size cfg B (self w) =? size iv) eqn:E;
    cbn; intros H; try discriminate H; apply Z.eqb_eq; exact E.
Qed.

(** X24. [cipher::set_iv] followed by [cipher::encrypt] or
    [cipher::decrypt] on a Sodium stream session (lines 737-752 with
    lines 837-871 and 953-987): when [set_iv] has answered [OK] the IV
    has the size [get_iv_size()], so the next call pads nothing and
    hands the primitive the bytes given: the bytes after the eighth as
    nonce and, as counter, the little-endian value of the first eight
    bytes, or of the first four for chacha20-ietf, whose primitive takes
    a [uint32_t]. *)
Theorem set_iv_then_stream_call (cfg : build_config) (B : backend) (w : world B)
    (d : cipher_interface_info_t) (dr : direction) (iv inp buf : list byte) :
  In d (supported_ciphers cfg) ->
  interface_ (self w) = Some d ->
  has_stream_case (method d) = true ->
  fst (run (set_iv cfg B iv) w) = OK ->
  let w2 := next_call (snd (run (set_iv cfg B iv) w)) buf in
  bad_crypt_params cfg B (Some inp) w2 = false ->
  let counter := match method d with
                 | EN_CIMT_LIBSODIUM_CHACHA20_IETF => le_decode (firstn 4 iv)
                 | _ => le_decode (firstn 8 iv)
                 end in
  size iv = get_iv_size cfg B (self w)
  /\ calls (snd (run (crypt cfg B dr (Some inp)) w2))
     = calls w ++ [CALL_stream_xor_ic (method d) inp (skipn 8 iv) counter
                     (libsodium_context_key (self w))].
Proof.
  intros Hin Hd Hm Hok w2 Hb counter.
  destruct (has_stream_case_stream _ Hm) as (Hl & Hs).
  destruct (stream_iv_size cfg B (self w) d Hin Hd Hm) as (Hge & Hf & Hsod & Hsame).
  pose proof (set_iv_length cfg B iv w d Hd Hl Hok) as Hlen.
  pose proof (set_iv_effect cfg B iv w) as He. cbv zeta in He.
  destruct He as ((E1 & _) & (E2 & _) & _ & E4 & _).
  destruct (set_iv_stored cfg B iv w d Hd (or_intror Hl) Hok) as (Hiv & _).
  assert (Hd2 : interface_ (self w2) = Some d) by (unfold w2; cbn; congruence).
  assert (Hpad : padded_iv cfg B (self w2) = iv).
  { assert (Hiv2 : iv_ (self w2) = iv) by exact Hiv.
    unfold padded_iv. rewrite Hd2, Hiv2, (Hsame _ Hd2), Hlen, Z.ltb_irrefl, andb_false_r.
    reflexivity. }
  split; [symmetry; exact Hlen|].
  rewrite (stream_call_arguments cfg B d w2 dr inp Hd2 Hm Hf Hsod Hb).
  cbv zeta. rewrite Hpad. cbn [w2 next_call self calls]. rewrite E2, E4.
  assert (Hlong : (8 <= length iv)%nat) by (unfold size in Hlen; lia).
  rewrite (counter_arg_bytes (method d) iv Hlong). unfold counter.
  destruct (method d); reflexivity.
Qed.

(** X24 on chacha20-ietf with a twenty-byte IV whose bytes 4 to 7 are
    not zero. *)
Lemma set_iv_then_stream_call_witness :
  let cfg := Example.full_build in
  let iv := Example.iv8 ++ Example.iv12 in
  let w := world_of (Example.opened Example.full_build "chacha20-ietf") in
  let w2 := next_call (snd (run (set_iv cfg Example.toy iv) w)) (repeat x00 8) in
  let counter := le_decode (firstn 4 iv) in
  size iv = get_iv_size cfg Example.toy (self w)
  /\ calls (snd (run (crypt cfg Example.toy ENCRYPT (Some [x61; x62; x63])) w2))
     = calls w ++ [CALL_stream_xor_ic EN_CIMT_LIBSODIUM_CHACHA20_IETF [x61; x62; x63]
                     (skipn 8 iv) counter (libsodium_context_key (self w))].
Proof.
  exact (set_iv_then_stream_call Example.full_build Example.toy
           (world_of (Example.opened Example.full_build "chacha20-ietf"))
           (entry "chacha20-ietf" EN_CIMT_LIBSODIUM_CHACHA20_IETF None "CHACHA20-IETF"
              EN_CIFT_NONE)
           ENCRYPT (Example.iv8 ++ Example.iv12) [x61; x62; x63] (repeat x00 8)
           ltac:(simpl; find_entry) ltac:(vm_compute; reflexivity) eq_refl
           ltac:(vm_compute; reflexivity) ltac:(vm_compute; reflexivity)).
Defined.

(** X25. [cipher::clear_iv] (line 759) followed by [cipher::encrypt] or
    [cipher::decrypt] on a Sodium stream session: after [clear_iv] the
    next call that passes the parameter test runs on an IV of
    [get_iv_size()] zero bytes: the primitive gets counter 0 and an
    all-zero nonce, and the object keeps that IV. *)
Theorem cleared_iv_is_zero_iv (cfg : build_config) (B : backend) (w : world B)
    (d : cipher_interface_info_t) (dr : direction) (inp buf : list byte) :
  In d (supported_ciphers cfg) ->
  interface_ (self w) = Some d ->
  has_stream_case (method d) = true ->
  let w2 := next_call (state_after (clear_iv B w)) buf in
  bad_crypt_params cfg B (Some inp) w2 = false ->
  let n := Z.to_nat (get_iv_size cfg B (self w)) in
  calls (snd (run (crypt cfg B dr (Some inp)) w2))
  = calls w ++ [CALL_stream_xor_ic (method d) inp (repeat x00 (n - 8)) 0
                  (libsodium_context_key (self w))]
  /\ iv_ (self (snd (run (crypt cfg B dr (Some inp)) w2))) = repeat x00 n.
Proof.
  intros Hin Hd Hm w2 Hb n.
  destruct (stream_iv_size cfg B (self w) d Hin Hd Hm) as (Hge & Hf & Hsod & Hsame).
  assert (Hw2 : interface_ (self w2) = Some d /\ iv_ (self w2) = []
                /\ libsodium_context_key (self w2) = libsodium_context_key (self w)
                /\ calls w2 = calls w).
  { unfold w2. destruct w as [ci ? ? ? ?]. destruct ci. cbn in *. auto. }
  destruct Hw2 as (Hd2 & Hiv & Hk & Hc).
  assert (Hpad : padded_iv cfg B (self w2) = repeat x00 n).
  { unfold padded_iv. rewrite Hd2, Hiv, Hf, (Hsame _ Hd2).
    assert (Hv : (method_value (method d) >=? method_value EN_CIMT_CIPHER) = true)
      by (destruct (method d); try discriminate Hm; reflexivity).
    rewrite Hv.
    assert (Hlt : (size (@nil byte) <? get_iv_size cfg B (self w)) = true)
      by (apply Z.ltb_lt; cbn; lia).
    assert (Hne : (0 =? get_iv_size cfg B (self w)) = false)
      by (apply Z.eqb_neq; lia).
    rewrite Hlt, Hne. cbn [Z.land EN_CIFT_NONE Z.eqb andb negb].
    unfold resize0. rewrite firstn_nil. cbn [app length].
    rewrite Nat.sub_0_r. reflexivity. }
  assert (Ha : is_aead (self w2) = false)
    by (unfold is_aead; rewrite Hd2, Hf; reflexivity).
  assert (Hi : initialized (self w2) = true)
    by (unfold initialized; rewrite Hd2; destruct (method d); try discriminate Hm;
        reflexivity).
  split.
  - rewrite (stream_call_arguments cfg B d w2 dr inp Hd2 Hm Hf Hsod Hb).
    cbv zeta. rewrite Hpad, Hk, Hc, skipn_repeat, firstn_repeat, le_decode_zeros.
    destruct (method d); reflexivity.
  - rewrite (crypt_pads cfg B dr (Some inp) w2 Hi Ha Hb). exact Hpad.
Qed.

(** X25 on salsa20 after [clear_iv]. *)
Lemma cleared_iv_is_zero_iv_witness :
  let cfg := Example.full_build in
  let w := world_of (Example.keyed Example.full_build "salsa20" Example.key32 Example.iv16) in
  let w2 := next_call (state_after (clear_iv Example.toy w)) (repeat x00 8) in
  let n := Z.to_nat (get_iv_size cfg Example.toy (self w)) in
  calls (snd (run (crypt cfg Example.toy ENCRYPT (Some [x61; x62; x63])) w2))
  = calls w ++ [CALL_stream_xor_ic EN_CIMT_LIBSODIUM_SALSA20 [x61; x62; x63]
                  (repeat x00 (n - 8)) 0 (libsodium_context_key (self w))]
  /\ iv_ (self (snd (run (crypt cfg Example.toy ENCRYPT (Some [x61; x62; x63])) w2)))
     = repeat x00 n.
Proof.
  exact (cleared_iv_is_zero_iv Example.full_build Example.toy
           (world_of (Example.keyed Example.full_build "salsa20" Example.key32 Example.iv16))
           (entry "salsa20" EN_CIMT_LIBSODIUM_SALSA20 None "SALSA20" EN_CIFT_NONE)
           ENCRYPT [x61; x62; x63] (repeat x00 8)
           ltac:(simpl; find_entry) ltac:(vm_compute; reflexivity) eq_refl
           ltac:(vm_compute; reflexivity)).
Defined.

(* ================================================================== *)
(** ** The round trip through the generic back-end *)
(* ================================================================== *)








Section Gives.

Variable B : backend.









End Gives.

Section GenericRoundTrip.

Variable cfg : build_config.
Variable B : backend.









End GenericRoundTrip.




